(** * VSChats React client: session, channel and dispatch logic

    A shallow embedding of the stateful core of the chat client component
    ([App] in the enhanced App.js): the startup credential check, the socket
    event handlers, the typing indicator, the optimistic message send, the
    desktop notification and the VAPID key helper.

    The component is a React function component.  Its [useState] cells and
    [useRef] cells are the fields of one record, [AppState]; every handler
    is a function on that record.  What the handlers do to the outside
    world (socket emits, alerts, notifications, opening or closing the
    socket) is appended to the [effects] field, oldest first.  Values the
    platform supplies (the clock, the answer to a confirm dialog, the
    outcome of a fetch) are arguments of the handler that reads them.

    A handler defined in the component body closes over the state cells of
    the render that created it.  Where a callback outlives its render (a
    [setTimeout] callback, a socket listener) the captured values are stored
    with the callback, because the source reads them and not the live
    cells. *)

From Stdlib Require Import ZArith NArith String Ascii List Bool Lia DecimalString Sorted SpecFloat.
From stdpp Require Import gmap strings list fin_maps.

Local Open Scope string_scope.

(** ** JavaScript string helpers

    Strings are Stdlib strings: sequences of code units below 256.  Every
    literal the source compares against is ASCII. *)

Module Js.

(** A string is truthy unless it is empty. *)
Definition truthy (s : string) : bool :=
  match s with
  | EmptyString => false
  | String _ _ => true
  end.

(** [s.includes(pat)]. *)
Fixpoint includes (pat s : string) : bool :=
  String.prefix pat s
  || match s with
     | EmptyString => false
     | String _ rest => includes pat rest
     end.

(** Code units that [String.prototype.trim] strips, within the range of
    this model: TAB, LF, VT, FF, CR, SPACE and NBSP. *)
Definition is_space (c : ascii) : bool :=
  let n := nat_of_ascii c in
  ((9 <=? n)%nat && (n <=? 13)%nat) || (n =? 32)%nat || (n =? 160)%nat.

Fixpoint trimStart (s : string) : string :=
  match s with
  | EmptyString => EmptyString
  | String c rest => if is_space c then trimStart rest else s
  end.

Definition trimEnd (s : string) : string :=
  String.rev (trimStart (String.rev s)).

(** [s.trim()]. *)
Definition trim (s : string) : string := trimEnd (trimStart s).

(** [s.substring(0, n)] for [n] within or beyond the length. *)
Definition substring0 (n : nat) (s : string) : string := String.substring 0 n s.

End Js.

(** ** Data model *)

(** Identifiers arrive from the server as JSON numbers or strings; a [Set]
    and [===] tell the two apart. *)
Definition JsId : Type := (Z + string)%type.

Record User := mkUser {
  user_id : JsId;
  username : string;
}.

Record Message := mkMessage {
  msg_id : JsId;
  content : string;
  sender_id : JsId;
  created_at : string;
  isOwn : bool;
  pending : bool;   (* an absent field reads as falsy *)
}.

(** [connectionStatus] is a string cell; these are the values the source
    stores in it. *)
Inductive ConnectionStatus :=
| Disconnected
| Connecting
| Connected
| ConnError
| Reconnecting (attempt : N)
| Failed.

#[global] Instance ConnectionStatus_eq_dec : EqDecision ConnectionStatus.
Proof. solve_decision. Defined.

(** ** Presence sets (the [user_online] / [user_offline] listeners) *)

Module Presence.

(** [new Set([...prev, userId])] *)
Definition user_online (userId : JsId) (prev : gset JsId) : gset JsId :=
  prev ∪ {[userId]}.

(** [const newSet = new Set(prev); newSet.delete(userId); return newSet] *)
Definition user_offline (userId : JsId) (prev : gset JsId) : gset JsId :=
  prev ∖ {[userId]}.

(** [onlineUsers.has(user.id)], the flag the contact list renders. *)
Definition online (s : gset JsId) (id : JsId) : bool := bool_decide (id ∈ s).

End Presence.

(** ** The component state *)

Record JsError := mkError { err_name : string; err_message : string }.

(** The socket object held in [socketRef].  Its listeners are created by
    [initializeSocket] and close over the [selectedUser] of the render that
    called it. *)
Record Socket := mkSocket {
  auth_token : string;
  listener_selectedUser : option User;
}.

(** The two kinds of [setTimeout] callback the modelled handlers create.
    [() => { handleTypingStop(); }] calls the [handleTypingStop] of the
    render that scheduled it, so it carries that render's [selectedUser] and
    [isTyping]. *)
Inductive Callback :=
| TypingStopCallback (sel : option User) (typing : bool)
| MarkDeliveredCallback (id : JsId).

Record Timer := mkTimer { timer_id : N; due : Z; callback : Callback }.

Inductive Effect :=
| SocketOpen (token : string)
| SocketDisconnect
| SocketEmit (event : string) (receiverId : JsId) (body : option string)
| Alert (text : string)
| ShowNotification (title body : string)
| LoadUsers.

#[global] Instance Effect_eq_dec : EqDecision Effect.
Proof. solve_decision. Defined.

Record AppState := mkApp {
  currentUser : option User;   (* useState(null) *)
  users : list User;   (* useState([]) *)
  selectedUser : option User;   (* useState(null) *)
  messages : list Message;   (* useState([]) *)
  newMessage : string;   (* useState('') *)
  onlineUsers : gset JsId;   (* useState(new Set()) *)
  connectionStatus : ConnectionStatus;   (* useState('disconnected') *)
  typingUsers : gset JsId;   (* useState(new Set()) *)
  isTyping : bool;   (* useState(false) *)
  socketRef : option Socket;   (* useRef(null) *)
  typingTimeoutRef : option N;   (* useRef(null): a timer id *)
  localStorage : gmap string string;   (* window.localStorage *)
  timers : list Timer;   (* pending setTimeout callbacks, in scheduling order *)
  next_timer : N;   (* the id the next setTimeout returns *)
  status_log : list ConnectionStatus;   (* every value given to setConnectionStatus, oldest first *)
  effects : list Effect;   (* what the handlers did to the outside, oldest first *)
}.

(** Field updates. *)
Definition set_currentUser (v : option User) (st : AppState) : AppState :=
  mkApp v (users st) (selectedUser st) (messages st) (newMessage st)
    (onlineUsers st) (connectionStatus st) (typingUsers st) (isTyping st)
    (socketRef st) (typingTimeoutRef st) (localStorage st) (timers st)
    (next_timer st) (status_log st) (effects st).

Definition set_users (v : list User) (st : AppState) : AppState :=
  mkApp (currentUser st) v (selectedUser st) (messages st) (newMessage st)
    (onlineUsers st) (connectionStatus st) (typingUsers st) (isTyping st)
    (socketRef st) (typingTimeoutRef st) (localStorage st) (timers st)
    (next_timer st) (status_log st) (effects st).

Definition set_selectedUser (v : option User) (st : AppState) : AppState :=
  mkApp (currentUser st) (users st) v (messages st) (newMessage st)
    (onlineUsers st) (connectionStatus st) (typingUsers st) (isTyping st)
    (socketRef st) (typingTimeoutRef st) (localStorage st) (timers st)
    (next_timer st) (status_log st) (effects st).

Definition set_messages (v : list Message) (st : AppState) : AppState :=
  mkApp (currentUser st) (users st) (selectedUser st) v (newMessage st)
    (onlineUsers st) (connectionStatus st) (typingUsers st) (isTyping st)
    (socketRef st) (typingTimeoutRef st) (localStorage st) (timers st)
    (next_timer st) (status_log st) (effects st).

Definition set_newMessage (v : string) (st : AppState) : AppState :=
  mkApp (currentUser st) (users st) (selectedUser st) (messages st) v
    (onlineUsers st) (connectionStatus st) (typingUsers st) (isTyping st)
    (socketRef st) (typingTimeoutRef st) (localStorage st) (timers st)
    (next_timer st) (status_log st) (effects st).

Definition set_onlineUsers (v : gset JsId) (st : AppState) : AppState :=
  mkApp (currentUser st) (users st) (selectedUser st) (messages st)
    (newMessage st) v (connectionStatus st) (typingUsers st) (isTyping st)
    (socketRef st) (typingTimeoutRef st) (localStorage st) (timers st)
    (next_timer st) (status_log st) (effects st).

Definition set_connectionStatus (v : ConnectionStatus) (st : AppState) : AppState :=
  mkApp (currentUser st) (users st) (selectedUser st) (messages st)
    (newMessage st) (onlineUsers st) v (typingUsers st) (isTyping st)
    (socketRef st) (typingTimeoutRef st) (localStorage st) (timers st)
    (next_timer st) (status_log st) (effects st).

Definition set_typingUsers (v : gset JsId) (st : AppState) : AppState :=
  mkApp (currentUser st) (users st) (selectedUser st) (messages st)
    (newMessage st) (onlineUsers st) (connectionStatus st) v (isTyping st)
    (socketRef st) (typingTimeoutRef st) (localStorage st) (timers st)
    (next_timer st) (status_log st) (effects st).

Definition set_isTyping (v : bool) (st : AppState) : AppState :=
  mkApp (currentUser st) (users st) (selectedUser st) (messages st)
    (newMessage st) (onlineUsers st) (connectionStatus st) (typingUsers st)
    v (socketRef st) (typingTimeoutRef st) (localStorage st) (timers st)
    (next_timer st) (status_log st) (effects st).

Definition set_socketRef (v : option Socket) (st : AppState) : AppState :=
  mkApp (currentUser st) (users st) (selectedUser st) (messages st)
    (newMessage st) (onlineUsers st) (connectionStatus st) (typingUsers st)
    (isTyping st) v (typingTimeoutRef st) (localStorage st) (timers st)
    (next_timer st) (status_log st) (effects st).

Definition set_typingTimeoutRef (v : option N) (st : AppState) : AppState :=
  mkApp (currentUser st) (users st) (selectedUser st) (messages st)
    (newMessage st) (onlineUsers st) (connectionStatus st) (typingUsers st)
    (isTyping st) (socketRef st) v (localStorage st) (timers st)
    (next_timer st) (status_log st) (effects st).

Definition set_localStorage (v : gmap string string) (st : AppState) : AppState :=
  mkApp (currentUser st) (users st) (selectedUser st) (messages st)
    (newMessage st) (onlineUsers st) (connectionStatus st) (typingUsers st)
    (isTyping st) (socketRef st) (typingTimeoutRef st) v (timers st)
    (next_timer st) (status_log st) (effects st).

Definition set_timers (v : list Timer) (st : AppState) : AppState :=
  mkApp (currentUser st) (users st) (selectedUser st) (messages st)
    (newMessage st) (onlineUsers st) (connectionStatus st) (typingUsers st)
    (isTyping st) (socketRef st) (typingTimeoutRef st) (localStorage st) v
    (next_timer st) (status_log st) (effects st).

Definition set_next_timer (v : N) (st : AppState) : AppState :=
  mkApp (currentUser st) (users st) (selectedUser st) (messages st)
    (newMessage st) (onlineUsers st) (connectionStatus st) (typingUsers st)
    (isTyping st) (socketRef st) (typingTimeoutRef st) (localStorage st)
    (timers st) v (status_log st) (effects st).

Definition set_status_log (v : list ConnectionStatus) (st : AppState) : AppState :=
  mkApp (currentUser st) (users st) (selectedUser st) (messages st)
    (newMessage st) (onlineUsers st) (connectionStatus st) (typingUsers st)
    (isTyping st) (socketRef st) (typingTimeoutRef st) (localStorage st)
    (timers st) (next_timer st) v (effects st).

Definition set_effects (v : list Effect) (st : AppState) : AppState :=
  mkApp (currentUser st) (users st) (selectedUser st) (messages st)
    (newMessage st) (onlineUsers st) (connectionStatus st) (typingUsers st)
    (isTyping st) (socketRef st) (typingTimeoutRef st) (localStorage st)
    (timers st) (next_timer st) (status_log st) v.

(** The state of a freshly mounted component over a given storage. *)
Definition mount (storage : gmap string string) : AppState :=
  mkApp None [] None [] "" ∅ Disconnected ∅ false None None storage [] 0 [] [].

(** ** Primitive operations *)

Definition perform (e : Effect) (st : AppState) : AppState :=
  set_effects (effects st ++ [e]) st.

(** [socketRef.current.emit(event, { receiverId, content })] *)
Definition emit (event : string) (receiverId : JsId) (body : option string)
    (st : AppState) : AppState :=
  perform (SocketEmit event receiverId body) st.

Definition alert (text : string) (st : AppState) : AppState :=
  perform (Alert text) st.

Definition setConnectionStatus (s : ConnectionStatus) (st : AppState) : AppState :=
  set_status_log (status_log st ++ [s]) (set_connectionStatus s st).

(** [setTimeout(cb, delay)] called at time [now]; returns the timer id. *)
Definition setTimeout (now delay : Z) (cb : Callback) (st : AppState)
    : N * AppState :=
  let id := next_timer st in
  (id, set_next_timer (id + 1)%N
         (set_timers (timers st ++ [mkTimer id (now + delay) cb]) st)).

(** [clearTimeout(ref)]: nothing happens for [null] or an id that is not
    pending. *)
Definition clearTimeout (ref : option N) (st : AppState) : AppState :=
  match ref with
  | None => st
  | Some id =>
      set_timers (filter (fun t => timer_id t ≠ id) (timers st)) st
  end.

(** [localStorage.removeItem] twice and [setCurrentUser(null)]. *)
Definition clearAuthData (st : AppState) : AppState :=
  set_currentUser None
    (set_localStorage (delete "userData" (delete "token" (localStorage st))) st).

(** ** Typing indicator *)

(** The body of [handleTypingStop], for a closure that captured [sel] and
    [typing].  The refs are read live. *)
Definition handleTypingStop_in (sel : option User) (typing : bool)
    (st : AppState) : AppState :=
  match sel, socketRef st, typing with
  | Some u, Some _, true =>
      let st1 := set_isTyping false st in
      let st2 := emit "typing_stop" (user_id u) None st1 in
      clearTimeout (typingTimeoutRef st2) st2
  | _, _, _ => st
  end.

(** [handleTypingStop] called from a handler of the current render. *)
Definition handleTypingStop (st : AppState) : AppState :=
  handleTypingStop_in (selectedUser st) (isTyping st) st.

(** [handleTypingStart] (the spec's [markTyping]) called at time [now] from
    a handler of the current render. *)
Definition handleTypingStart (now : Z) (st : AppState) : AppState :=
  match selectedUser st, socketRef st, isTyping st with
  | Some u, Some _, false =>
      let st1 := set_isTyping true st in
      let st2 := emit "typing_start" (user_id u) None st1 in
      let st3 := clearTimeout (typingTimeoutRef st2) st2 in
      let '(id, st4) :=
        setTimeout now 2000
          (TypingStopCallback (selectedUser st) (isTyping st)) st3 in
      set_typingTimeoutRef (Some id) st4
  | _, _, _ => st
  end.

(** [handleInputChange]: the input's [onChange]. *)
Definition handleInputChange (now : Z) (value : string) (st : AppState)
    : AppState :=
  let st1 := set_newMessage value st in
  if Js.truthy (Js.trim value)
  then handleTypingStart now st1
  else handleTypingStop st1.

(** ** Timers firing *)

Definition mark_delivered (id : JsId) (msg : Message) : Message :=
  if decide (msg_id msg = id)
  then mkMessage (msg_id msg) (content msg) (sender_id msg) (created_at msg)
         (isOwn msg) false
  else msg.

Definition run_callback (cb : Callback) (st : AppState) : AppState :=
  match cb with
  | TypingStopCallback sel typing => handleTypingStop_in sel typing st
  | MarkDeliveredCallback id =>
      set_messages (map (mark_delivered id) (messages st)) st
  end.

(** The timer [id] fires: it leaves the pending list and its callback runs. *)
Definition fire (id : N) (st : AppState) : AppState :=
  match List.find (fun t => bool_decide (timer_id t = id)) (timers st) with
  | Some t =>
      run_callback (callback t)
        (set_timers (filter (fun t' => timer_id t' ≠ id) (timers st)) st)
  | None => st
  end.

(** The pending timer that is due first; among equals, the one scheduled
    first. *)
Fixpoint earliest (ts : list Timer) : option Timer :=
  match ts with
  | [] => None
  | t :: rest =>
      match earliest rest with
      | Some t' => if (due t' <? due t)%Z then Some t' else Some t
      | None => Some t
      end
  end.

Fixpoint run_until (fuel : nat) (t : Z) (st : AppState) : AppState :=
  match fuel with
  | O => st
  | S fuel' =>
      match earliest (timers st) with
      | Some tm =>
          if (due tm <=? t)%Z
          then run_until fuel' t (fire (timer_id tm) st)
          else st
      | None => st
      end
  end.

(** The clock reaches [t]: every timer due by then fires, in due order.  No
    callback schedules a timer, so the number of pending timers bounds the
    number of firings. *)
Definition advance_to (t : Z) (st : AppState) : AppState :=
  run_until (length (timers st)) t st.

(** ** Logout *)

(** [handleLogout]; [confirmed] is what [window.confirm] returned. *)
Definition handleLogout (confirmed : bool) (st : AppState) : AppState :=
  if confirmed then
    let st1 := clearAuthData st in
    let st2 := set_currentUser None st1 in
    let st3 := set_selectedUser None st2 in
    let st4 := set_messages [] st3 in
    let st5 := set_users [] st4 in
    let st6 :=
      match socketRef st5 with
      | Some _ => perform SocketDisconnect st5
      | None => st5
      end in
    alert "You have been logged out successfully." st6
  else st.

(** ** Opening the socket *)

(** The body of [initializeSocket(token)] for a closure that captured [sel]
    as its [selectedUser]; the listeners it installs are [on_socket_event]
    below, and they see the same [sel]. *)
Definition initializeSocket_in (sel : option User) (token : string)
    (st : AppState) : AppState :=
  let st1 := setConnectionStatus Connecting st in
  let st2 := perform (SocketOpen token) st1 in
  set_socketRef (Some (mkSocket token sel)) st2.

(** [initializeSocket] called from a handler of the current render. *)
Definition initializeSocket (token : string) (st : AppState) : AppState :=
  initializeSocket_in (selectedUser st) token st.

(** ** Socket listeners *)

Inductive Permission := PermDefault | PermGranted | PermDenied.

(** What the listeners read from the browser when they run. *)
Record Browser := mkBrowser {
  document_hidden : bool;           (* document.hidden *)
  notification_supported : bool;    (* 'Notification' in window *)
  notification_permission : Permission;
  confirm_answer : bool;            (* what window.confirm returns *)
}.

Inductive SocketEvent :=
| EvConnect
| EvDisconnect (reason : string)
| EvConnectError (error : JsError)
| EvReconnectAttempt (attempt : N)
| EvReconnectFailed
| EvMessage (message : Message)
| EvUserOnline (userId : JsId)
| EvUserOffline (userId : JsId)
| EvTypingStart (userId : JsId)
| EvTypingStop (userId : JsId)
| EvMessageDelivered
| EvError (message : option string).



(** [error.message.includes('auth') || error.message.includes('401')] *)
Definition is_auth_failure (error : JsError) : bool :=
  Js.includes "auth" (err_message error) || Js.includes "401" (err_message error).

Definition notification_title (sel : option User) : string :=
  "New message from " ++
  match sel with
  | Some u => if Js.truthy (username u) then username u else "Someone"
  | None => "Someone"
  end.

Definition notification_body (text : string) : string :=
  if (50 <? String.length text)%nat
  then Js.substring0 50 text ++ "..."
  else text.

Definition as_received (m : Message) : Message :=
  mkMessage (msg_id m) (content m) (sender_id m) (created_at m) false (pending m).

Definition on_message (env : Browser) (sock : Socket) (message : Message)
    (st : AppState) : AppState :=
  let st1 := set_messages (messages st ++ [as_received message]) st in
  match document_hidden env, notification_supported env,
        notification_permission env with
  | true, true, PermGranted =>
      perform (ShowNotification
                 (notification_title (listener_selectedUser sock))
                 (notification_body (content message))) st1
  | _, _, _ => st1
  end.

Definition on_connect_error (env : Browser) (error : JsError) (st : AppState)
    : AppState :=
  let st1 := setConnectionStatus ConnError st in
  if is_auth_failure error then
    let st2 := handleLogout (confirm_answer env) st1 in
    alert "Session expired. Please login again." st2
  else st1.

Definition on_error (message : option string) (st : AppState) : AppState :=
  match message with
  | Some m =>
      if Js.truthy m && negb (Js.includes "auth" m) then alert m st else st
  | None => st
  end.

(** One event delivered to the listeners that [initializeSocket] installed
    on the socket in [socketRef].  Without a socket there are no listeners. *)
Definition on_socket_event (env : Browser) (ev : SocketEvent) (st : AppState)
    : AppState :=
  match socketRef st with
  | None => st
  | Some sock =>
      match ev with
      | EvConnect => setConnectionStatus Connected st
      | EvDisconnect _ => setConnectionStatus Disconnected st
      | EvConnectError error => on_connect_error env error st
      | EvReconnectAttempt attempt => setConnectionStatus (Reconnecting attempt) st
      | EvReconnectFailed =>
          alert "Unable to connect to server. Please check your internet connection."
            (setConnectionStatus Failed st)
      | EvMessage message => on_message env sock message st
      | EvUserOnline userId =>
          set_onlineUsers (Presence.user_online userId (onlineUsers st)) st
      | EvUserOffline userId =>
          set_onlineUsers (Presence.user_offline userId (onlineUsers st)) st
      | EvTypingStart userId =>
          set_typingUsers (Presence.user_online userId (typingUsers st)) st
      | EvTypingStop userId =>
          set_typingUsers (Presence.user_offline userId (typingUsers st)) st
      | EvMessageDelivered => st
      | EvError message => on_error message st
      end
  end.

Definition run_events (env : Browser) (evs : list SocketEvent) (st : AppState)
    : AppState :=
  fold_left (fun s ev => on_socket_event env ev s) evs st.

(** ** Sending a message *)

(** [sendMessage] called at time [now] from a handler of the current
    render.  [iso] is [new Date().toISOString()]; [emit_throws] says whether
    the socket's [emit] raises. *)
Definition sendMessage (now : Z) (iso : string) (emit_throws : bool)
    (st : AppState) : AppState :=
  let content := Js.trim (newMessage st) in
  match Js.truthy content, selectedUser st, socketRef st with
  | true, Some sel, Some _ =>
      let st1 := handleTypingStop st in
      match currentUser st with
      | None => st1   (* reading currentUser.id raises; the promise rejects *)
      | Some me =>
          let optimisticMessage :=
            mkMessage (inl now) content (user_id me) iso true true in
          let st2 := set_messages (messages st1 ++ [optimisticMessage]) st1 in
          let st3 := set_newMessage "" st2 in
          if emit_throws then
            let st4 :=
              set_messages
                (filter (fun msg => msg_id msg ≠ msg_id optimisticMessage)
                   (messages st3)) st3 in
            alert "Failed to send message. Please try again." st4
          else
            let st4 := emit "send_message" (user_id sel) (Some content) st3 in
            snd (setTimeout now 1000
                   (MarkDeliveredCallback (msg_id optimisticMessage)) st4)
      end
  | _, _, _ => st
  end.






(** ** Startup: the stored credential and its validation *)

(** What [res.json()] gives: the parsed profile, or an exception. *)
Inductive JsonResult :=
| JsonValue (userData : User)
| JsonThrows (error : JsError).

Record Response := mkResponse {
  status : N;
  content_type : option string;   (* res.headers.get('content-type') *)
  json_body : JsonResult;
}.

(** [res.ok]: the status is in the range 200 to 299. *)
Definition res_ok (res : Response) : bool :=
  (200 <=? status res)%N && (status res <=? 299)%N.

(** How [fetch] settles: with a response, or rejected (a network failure). *)
Inductive FetchOutcome :=
| FetchResolves (res : Response)
| FetchRejects (error : JsError).

(** [!contentType || !contentType.includes('application/json')], negated. *)
Definition is_json (contentType : option string) : bool :=
  match contentType with
  | Some c => Js.truthy c && Js.includes "application/json" c
  | None => false
  end.

(** The [catch] block of [validateToken]: its return value. *)
Definition validation_catch (error : JsError) : bool :=
  bool_decide (err_name error = "TypeError")
  && Js.includes "JSON" (err_message error).

(** [localStorage.getItem(key)] when the result is used as a condition. *)
Definition stored (key : string) (st : AppState) : option string :=
  match localStorage st !! key with
  | Some v => if Js.truthy v then Some v else None
  | None => None
  end.

Section Startup.

(** [JSON.parse] on a stored profile ([None]: it raises) and
    [JSON.stringify] on a profile. *)
Variable JSON_parse : string -> option User.
Variable JSON_stringify : User -> string.

(** [validateToken(token)] once the request [outcome] is known: the
    boolean the promise resolves to, and the state. *)
Definition validateToken (token : string) (outcome : FetchOutcome)
    (st : AppState) : bool * AppState :=
  match outcome with
  | FetchRejects error => (validation_catch error, st)
  | FetchResolves res =>
      if negb (is_json (content_type res)) then (false, st)
      else if res_ok res then
        match json_body res with
        | JsonValue userData =>
            (true,
             set_currentUser (Some userData)
               (set_localStorage
                  (<["userData" := JSON_stringify userData]> (localStorage st))
                  st))
        | JsonThrows error => (validation_catch error, st)
        end
      else (false, st)
  end.

(** [initializeApp], run once after the first render, together with the
    continuation attached to the validation promise.  [validateToken] never
    rejects, so the [.catch] continuation does not run.  The loading flags
    of the splash screen are left out. *)
Definition initializeApp (outcome : FetchOutcome) (st : AppState) : AppState :=
  match stored "token" st, stored "userData" st with
  | Some token, Some userData =>
      match JSON_parse userData with
      | None => clearAuthData st
      | Some parsedUserData =>
          let st1 := set_currentUser (Some parsedUserData) st in
          let '(isValid, st2) := validateToken token outcome st1 in
          if isValid
          then perform LoadUsers (initializeSocket_in (selectedUser st) token st2)
          else clearAuthData st2
      end
  | _, _ => st
  end.

End Startup.

(** ** The VAPID key helpers

    Here a string is its sequence of UTF-16 code units, because the two
    helpers walk the decoded string differently: one by index, one with
    the string iterator, which joins surrogate pairs. *)

Module Vapid.

Abbreviation JsString := (list N).

Definition EQUALS : N := 61.
Definition MINUS : N := 45.
Definition PLUS : N := 43.
Definition UNDERSCORE : N := 95.
Definition SLASH : N := 47.

(** ['='.repeat((4 - base64String.length % 4) % 4)] *)
Definition padding (base64String : JsString) : JsString :=
  replicate ((4 - length base64String mod 4) mod 4) EQUALS.

(** [s.replace(/x/g, y)] for one code unit [x]. *)
Definition replace_all (x y : N) (s : JsString) : JsString :=
  map (fun c => if (c =? x)%N then y else c) s.

Definition base64_of (base64String : JsString) : JsString :=
  replace_all UNDERSCORE SLASH
    (replace_all MINUS PLUS (base64String ++ padding base64String)%list).

(** [s.charCodeAt(i)]; [None] stands for NaN. *)
Definition charCodeAt (i : nat) (s : JsString) : option N := s !! i.

(** Storing a number into a [Uint8Array]: modulo 256, NaN as 0. *)
Definition to_uint8 (v : option N) : N :=
  match v with
  | Some n => (n mod 256)%N
  | None => 0%N
  end.

Definition is_high_surrogate (c : N) : bool := (55296 <=? c)%N && (c <=? 56319)%N.
Definition is_low_surrogate (c : N) : bool := (56320 <=? c)%N && (c <=? 57343)%N.

(** [[...s]]: the string iterator yields one string per code point. *)
Fixpoint spread (s : JsString) : list JsString :=
  match s with
  | [] => []
  | h :: rest =>
      match rest with
      | l :: rest' =>
          if is_high_surrogate h && is_low_surrogate l
          then [h; l] :: spread rest'
          else [h] :: spread rest
      | [] => [[h]]
      end
  end.

(** The [for] loop of the second helper, from index [i], at most [fuel]
    rounds. *)
Fixpoint fill_loop (fuel i : nat) (rawData : JsString) (outputArray : list N)
    : list N :=
  match fuel with
  | O => outputArray
  | S fuel' =>
      if (i <? length rawData)%nat
      then fill_loop fuel' (S i) rawData
             (<[i := to_uint8 (charCodeAt i rawData)]> outputArray)
      else outputArray
  end.

Section Helpers.

(** [window.atob]; [None] when it raises. *)
Variable atob : JsString -> option JsString.

(** The helper inside the component of src/App.js. *)
Definition urlBase64ToUint8Array_spread (base64String : JsString)
    : option (list N) :=
  match atob (base64_of base64String) with
  | Some rawData =>
      Some (map to_uint8 (map (charCodeAt 0) (spread rawData)))
  | None => None
  end.

(** The helper at the end of the enhanced App.js. *)
Definition urlBase64ToUint8Array_loop (base64String : JsString)
    : option (list N) :=
  match atob (base64_of base64String) with
  | Some rawData =>
      Some (fill_loop (length rawData) 0 rawData
              (replicate (length rawData) 0%N))
  | None => None
  end.

End Helpers.

(** A model of the browser's [atob] (forgiving base64 decoding), used to
    run the helpers on concrete keys. *)
Module Base64.

Definition sextet (c : N) : option N :=
  if (65 <=? c)%N && (c <=? 90)%N then Some (c - 65)%N
  else if (97 <=? c)%N && (c <=? 122)%N then Some (c - 71)%N
  else if (48 <=? c)%N && (c <=? 57)%N then Some (c + 4)%N
  else if (c =? PLUS)%N then Some 62%N
  else if (c =? SLASH)%N then Some 63%N
  else None.

Definition is_ascii_whitespace (c : N) : bool :=
  (c =? 9)%N || (c =? 10)%N || (c =? 12)%N || (c =? 13)%N || (c =? 32)%N.

(** At most two trailing [=] are dropped. *)
Definition strip_padding (data : JsString) : JsString :=
  match rev data with
  | a :: b :: r =>
      if (a =? EQUALS)%N
      then if (b =? EQUALS)%N then rev r else rev (b :: r)
      else data
  | [a] => if (a =? EQUALS)%N then [] else data
  | [] => data
  end.

(** Four sextets give three bytes; a tail of three gives two, of two one. *)
Fixpoint bytes_of_sextets (l : list N) : list N :=
  match l with
  | a :: b :: c :: d :: rest =>
      let w := (a * 262144 + b * 4096 + c * 64 + d)%N in
      ((w / 65536) mod 256)%N :: ((w / 256) mod 256)%N :: (w mod 256)%N
        :: bytes_of_sextets rest
  | [a; b; c] =>
      let w := ((a * 4096 + b * 64 + c) / 4)%N in
      [((w / 256) mod 256)%N; (w mod 256)%N]
  | [a; b] => [(((a * 64 + b) / 16) mod 256)%N]
  | _ => []
  end.

Definition atob (data : JsString) : option JsString :=
  let d := filter (fun c => is_ascii_whitespace c = false) data in
  let d := if (length d mod 4 =? 0)%nat then strip_padding d else d in
  if (length d mod 4 =? 1)%nat then None
  else bytes_of_sextets <$> mapM sextet d.

End Base64.

End Vapid.

(** ** Observations on states and traces *)

(** A key stroke at time [t]: the timers due by then fire first. *)
Definition type_at (t : Z) (value : string) (st : AppState) : AppState :=
  handleInputChange t value (advance_to t st).

(** A run of key strokes, each with its time and the text in the input. *)
Definition type_all (keys : list (Z * string)) (st : AppState) : AppState :=
  fold_left (fun s key => type_at key.1 key.2 s) keys st.

(** While the user keeps typing: [isTyping] is set and every pending timer
    is a typing timer that captured [isTyping = false]. *)
Definition typing_stuck (st : AppState) : Prop :=
  isTyping st = true
  ∧ Forall (fun t => ∃ sel, callback t = TypingStopCallback sel false) (timers st).

(** The socket emits of a trace with a given event name. *)
Definition emit_named (event : string) (e : Effect) : bool :=
  match e with
  | SocketEmit ev _ _ => bool_decide (ev = event)
  | _ => false
  end.

Definition emits_of (event : string) (trace : list Effect) : list Effect :=
  filter (fun e => emit_named event e = true) trace.

(** A binary string: every code unit is a byte. *)
Definition binary (s : list N) : Prop := Forall (fun c => (c < 256)%N) s.

(** The exception that reaches the [catch] block of [validateToken], if
    one does: a rejected [fetch], or a body that fails to parse. *)
Definition validation_exception (outcome : FetchOutcome) : option JsError :=
  match outcome with
  | FetchRejects error => Some error
  | FetchResolves res =>
      if is_json (content_type res) && res_ok res then
        match json_body res with
        | JsonThrows error => Some error
        | JsonValue _ => None
        end
      else None
  end.

(** The counters of the [reconnecting] statuses in a log, and the number
    of times the log enters [failed]. *)
Definition reconnect_counters (log : list ConnectionStatus) : list N :=
  omap (fun s => match s with Reconnecting n => Some n | _ => None end) log.

Definition failed_transitions (log : list ConnectionStatus) : nat :=
  length (filter (fun s => s = Failed) log).

(** The attempt numbers the transport delivers in a trace, and the number
    of [reconnect_failed] events in it. *)
Definition delivered_attempts (evs : list SocketEvent) : list N :=
  omap (fun ev => match ev with EvReconnectAttempt n => Some n | _ => None end) evs.

Definition is_reconnect_failed (ev : SocketEvent) : bool :=
  match ev with EvReconnectFailed => true | _ => false end.

Definition reconnect_failed_events (evs : list SocketEvent) : nat :=
  length (filter (fun ev => is_reconnect_failed ev = true) evs).

(** The status a listener writes for an event, if it writes one. *)
Definition status_written (ev : SocketEvent) : option ConnectionStatus :=
  match ev with
  | EvConnect => Some Connected
  | EvDisconnect _ => Some Disconnected
  | EvConnectError _ => Some ConnError
  | EvReconnectAttempt attempt => Some (Reconnecting attempt)
  | EvReconnectFailed => Some Failed
  | _ => None
  end.

(** The events a socket hands to the listeners registered on it with
    [socketRef.current.on].  The options given to [io] carry the token in
    [auth], an option the client reads from version 3 on; from that version
    the reconnection events [reconnect_attempt] and [reconnect_failed] are
    emitted by the manager ([socket.io]) and not by the socket, so a
    listener registered on the socket for them is never called.  A failed
    attempt reaches the socket as [connect_error]. *)
Definition delivered_to_socket (ev : SocketEvent) : bool :=
  match ev with
  | EvReconnectAttempt _ | EvReconnectFailed => false
  | _ => true
  end.

(** An outage that uses up the five attempts, as the socket sees it. *)
Definition outage : list SocketEvent :=
  EvConnect :: EvDisconnect "transport close"
  :: replicate 5 (EvConnectError (mkError "Error" "websocket error")).

(** Whether the [message] listener shows a notification. *)
Definition notifies (env : Browser) : bool :=
  document_hidden env && notification_supported env
  && match notification_permission env with
     | PermGranted => true
     | _ => false
     end.

(** The timer invariant: timer ids are not reused, and the id kept in
    [typingTimeoutRef], if it is pending, is that of a typing timer. *)
Definition is_typing_callback (cb : Callback) : Prop :=
  match cb with
  | TypingStopCallback _ _ => True
  | MarkDeliveredCallback _ => False
  end.

Record timers_wf (st : AppState) : Prop := mkTimersWf {
  wf_nodup : NoDup (map timer_id (timers st));
  wf_fresh : Forall (fun t => (timer_id t < next_timer st)%N) (timers st);
  wf_ref_fresh : ∀ k, typingTimeoutRef st = Some k → (k < next_timer st)%N;
  wf_ref_typing : ∀ t, t ∈ timers st →
                    typingTimeoutRef st = Some (timer_id t) →
                    is_typing_callback (callback t);
}.

(** The states the component can be in: it is mounted, and then handlers
    run.  Only key strokes, sends and firing timers touch the timers; the
    other handlers (startup, login, the loaders, logout, the socket
    listeners) leave the three timer fields as they are. *)
Inductive reachable : AppState → Prop :=
| reach_mount (storage : gmap string string) : reachable (mount storage)
| reach_input (now : Z) (value : string) (st : AppState) :
    reachable st → reachable (handleInputChange now value st)
| reach_send (now : Z) (iso : string) (emit_throws : bool) (st : AppState) :
    reachable st → reachable (sendMessage now iso emit_throws st)
| reach_fire (tid : N) (st : AppState) :
    reachable st → reachable (fire tid st)
| reach_other (st st' : AppState) :
    reachable st →
    timers st' = timers st →
    next_timer st' = next_timer st →
    typingTimeoutRef st' = typingTimeoutRef st →
    reachable st'.

(** Two messages that differ at most in the [pending] flag. *)
Definition same_upto_pending (a b : Message) : Prop :=
  msg_id a = msg_id b ∧ content a = content b ∧ sender_id a = sender_id b
  ∧ created_at a = created_at b ∧ isOwn a = isOwn b.

(** No message with this id is still pending. *)
Definition delivered (id : JsId) (l : list Message) : Prop :=
  ∀ m, m ∈ l → msg_id m = id → pending m = false.

(** The events that leave the conversation in place: all but an
    authentication failure whose logout the user confirms. *)
Definition keeps_conversation (env : Browser) (ev : SocketEvent) : bool :=
  match ev with
  | EvConnectError error => negb (is_auth_failure error && confirm_answer env)
  | _ => true
  end.

(** The messages a trace of events appends. *)
Definition received (evs : list SocketEvent) : list Message :=
  omap (fun ev => match ev with
                  | EvMessage m => Some (as_received m)
                  | _ => None
                  end) evs.

(** ** Sample data *)

(** A stored session, with a stand-in for the JSON text of the profile. *)
Definition alice : User := mkUser (inl 1%Z) "alice".
Definition bob : User := mkUser (inl 2%Z) "bob".

Definition parse_demo (text : string) : option User :=
  if decide (text = "alice-profile") then Some alice else None.

Definition stringify_demo (u : User) : string := username u ++ "-profile".

Definition demo_storage : gmap string string :=
  <["userData" := "alice-profile"]> (<["token" := "t1"]> ∅).

(** A hidden page with notifications allowed, whose user declines the
    logout dialog. *)
Definition demo_env : Browser := mkBrowser true true PermGranted false.

(** A validated startup with the socket connected. *)
Definition started : AppState :=
  on_socket_event demo_env EvConnect
    (initializeApp parse_demo stringify_demo
       (FetchResolves
          (mkResponse 200 (Some "application/json") (JsonValue alice)))
       (mount demo_storage)).

(** The contacts loaded and the conversation with bob open. *)
Definition chat_ready : AppState :=
  set_selectedUser (Some bob) (set_users [alice; bob] started).

(** An open socket with two contacts online. *)
Definition presence_demo : AppState :=
  set_onlineUsers {[inl 7%Z; inl 9%Z]}
    (initializeSocket "t1" (mount ∅)).

(** ** The status dot and the connection banner *)



(** ** Responses of the REST calls *)

(** What [res.json()] gives for a body of type [A]. *)
Inductive BodyResult (A : Type) :=
| BodyValue (value : A)
| BodyThrows (error : JsError).
Arguments BodyValue {A} value.
Arguments BodyThrows {A} error.

Record HttpResponse (A : Type) := mkHttp {
  http_status : N;
  http_content_type : option string;
  http_body : BodyResult A;
}.
Arguments mkHttp {A} _ _ _.
Arguments http_status {A} _.
Arguments http_content_type {A} _.
Arguments http_body {A} _.

Inductive HttpOutcome (A : Type) :=
| HttpResolves (res : HttpResponse A)
| HttpRejects (error : JsError).
Arguments HttpResolves {A} res.
Arguments HttpRejects {A} error.

Definition http_ok {A : Type} (res : HttpResponse A) : bool :=
  (200 <=? http_status res)%N && (http_status res <=? 299)%N.

(** The [catch] block of the two loaders: a [TypeError] is silent. *)
Definition load_catch (text : string) (error : JsError) (st : AppState)
    : AppState :=
  if bool_decide (err_name error ≠ "TypeError") then alert text st else st.

(** ** Loading the contacts *)

(** [loadUsers] once the request [outcome] is known.  Without a stored
    token no request is made. *)
Definition loadUsers (env : Browser) (outcome : HttpOutcome (list User))
    (st : AppState) : AppState :=
  match stored "token" st with
  | None => handleLogout (confirm_answer env) st
  | Some _ =>
      match outcome with
      | HttpRejects error =>
          load_catch "Failed to load users. Please check your connection and try again."
            error st
      | HttpResolves res =>
          if negb (is_json (http_content_type res)) then set_users [] st
          else if http_ok res then
            match http_body res with
            | BodyValue usersData => set_users usersData st
            | BodyThrows error =>
                load_catch "Failed to load users. Please check your connection and try again."
                  error st
            end
          else if (http_status res =? 401)%N then
            alert "Your session has expired. Please login again."
              (handleLogout (confirm_answer env) st)
          else
            load_catch "Failed to load users. Please check your connection and try again."
              (mkError "Error" "Failed to load users") st
      end
  end.

(** [loadUsers] from the point where its request has settled; the token
    is not read again. *)
Definition loadUsers_settle (env : Browser) (outcome : HttpOutcome (list User))
    (st : AppState) : AppState :=
  match outcome with
  | HttpRejects error =>
      load_catch "Failed to load users. Please check your connection and try again."
        error st
  | HttpResolves res =>
      if negb (is_json (http_content_type res)) then set_users [] st
      else if http_ok res then
        match http_body res with
        | BodyValue usersData => set_users usersData st
        | BodyThrows error =>
            load_catch "Failed to load users. Please check your connection and try again."
              error st
        end
      else if (http_status res =? 401)%N then
        alert "Your session has expired. Please login again."
          (handleLogout (confirm_answer env) st)
      else
        load_catch "Failed to load users. Please check your connection and try again."
          (mkError "Error" "Failed to load users") st
  end.

(** ** Loading a conversation *)

(** [users.find(user => user.id === userId)] *)
Definition find_user (userId : JsId) (contacts : list User) : option User :=
  List.find (fun user => bool_decide (user_id user = userId)) contacts.

(** The body of [loadMessages(userId)] for a closure that captured
    [contacts] as its [users], once the request [outcome] is known. *)
Definition loadMessages_in (contacts : list User) (env : Browser)
    (userId : JsId) (outcome : HttpOutcome (list Message)) (st : AppState)
    : AppState :=
  match outcome with
  | HttpRejects error =>
      load_catch "Failed to load messages. Please try again." error st
  | HttpResolves res =>
      if negb (is_json (http_content_type res)) then set_messages [] st
      else if http_ok res then
        match http_body res with
        | BodyValue messagesData =>
            set_selectedUser (find_user userId contacts)
              (set_messages messagesData st)
        | BodyThrows error =>
            load_catch "Failed to load messages. Please try again." error st
        end
      else if (http_status res =? 401)%N then
        alert "Your session has expired. Please login again."
          (handleLogout (confirm_answer env) st)
      else
        load_catch "Failed to load messages. Please try again."
          (mkError "Error" "Failed to load messages") st
  end.

(** [loadMessages] called from the contact list of the current render. *)
Definition loadMessages (env : Browser) (userId : JsId)
    (outcome : HttpOutcome (list Message)) (st : AppState) : AppState :=
  loadMessages_in (users st) env userId outcome st.

(** [handleBackToContacts]; the sidebar flag is left out. *)
Definition handleBackToContacts (st : AppState) : AppState :=
  set_messages [] (set_selectedUser None st).

(** ** Login and registration *)

(** The two cells of the login card. *)
Record AuthCells := mkAuthCells {
  isLogin : bool;    (* useState(true) *)
  loading : bool;    (* useState(false) *)
}.

(** The fields of the submitted form; the username field exists only in
    registration mode. *)
Record AuthForm := mkAuthForm {
  form_email : string;
  form_password : string;
  form_username : option string;
}.

(** The request [handleAuth] sends. *)
Record AuthRequest := mkAuthRequest {
  req_url : string;
  req_email : string;
  req_password : string;
  req_username : option string;   (* absent from a login body *)
}.

(** The fields [handleAuth] reads from the parsed response body. *)
Record AuthData := mkAuthData {
  data_error : option string;
  data_token : string;
  data_user : User;
  data_vapidPublicKey : list N;
}.

Record AuthResponse := mkAuthResponse {
  auth_status : N;
  auth_content_type : option string;
  auth_text : option JsError;        (* [res.text()] raising, if it does *)
  auth_json : BodyResult AuthData;
}.

Inductive AuthOutcome :=
| AuthResolves (res : AuthResponse)
| AuthRejects (error : JsError).

Definition auth_ok (res : AuthResponse) : bool :=
  (200 <=? auth_status res)%N && (auth_status res <=? 299)%N.

(** What [handleAuth] leaves behind: the cells, the component state, the
    request it sent if it sent one, and what it started without waiting:
    the push set-up with its key and token, and the welcome alert with its
    due time. *)
Record AuthResult := mkAuthResult {
  auth_cells : AuthCells;
  auth_app : AppState;
  auth_request : option AuthRequest;
  auth_push : option (list N * string);
  auth_welcome : option (Z * string);
}.

(** [value || fallback] on strings. *)
Definition or_else (value : option string) (fallback : string) : string :=
  match value with
  | Some s => if Js.truthy s then s else fallback
  | None => fallback
  end.

(** The checks before the request: the alert shown, if one is. *)
Definition auth_rejection (login : bool) (email password : string)
    (username : option string) : option string :=
  if negb (Js.truthy email) || negb (Js.truthy password)
     || (negb login && negb (Js.truthy (or_else username "")))
  then Some "Please fill all fields"
  else if negb login && Js.truthy (or_else username "")
          && (String.length (or_else username "") <? 3)%nat
  then Some "Username must be at least 3 characters long"
  else if (String.length password <? 6)%nat
  then Some "Password must be at least 6 characters long"
  else None.

Section Auth.

Variable JSON_stringify : User -> string.

(** The [try] block of [handleAuth] after the response: either the error
    that reaches [catch], or the parsed body. *)
Definition auth_body (outcome : AuthOutcome) : JsError + AuthData :=
  match outcome with
  | AuthRejects error => inl error
  | AuthResolves res =>
      if negb (is_json (auth_content_type res)) then
        match auth_text res with
        | Some error => inl error
        | None => inl (mkError "Error" "Server error. Please try again later.")
        end
      else
        match auth_json res with
        | BodyThrows error => inl error
        | BodyValue data =>
            if auth_ok res then inr data
            else inl (mkError "Error"
                        (or_else (data_error data) "Authentication failed"))
        end
  end.

(** [handleAuth] for a form submitted at time [now]; [outcome] is how the
    request settles, if one is sent. *)
Definition handleAuth (now : Z) (form : AuthForm) (outcome : AuthOutcome)
    (cells : AuthCells) (st : AppState) : AuthResult :=
  let email := Js.trim (form_email form) in
  let password := form_password form in
  let name := Js.trim <$> form_username form in
  match auth_rejection (isLogin cells) email password name with
  | Some text => mkAuthResult cells (alert text st) None None None
  | None =>
      let request :=
        if isLogin cells
        then mkAuthRequest "/api/login" email password None
        else mkAuthRequest "/api/register" email password name in
      match auth_body outcome with
      | inl error =>
          mkAuthResult (mkAuthCells (isLogin cells) false)
            (alert (or_else (Some (err_message error))
                      "Operation failed. Please try again.") st)
            (Some request) None None
      | inr data =>
          if isLogin cells then
            let st1 :=
              set_localStorage
                (<["userData" := JSON_stringify (data_user data)]>
                   (<["token" := data_token data]> (localStorage st))) st in
            let st2 := set_currentUser (Some (data_user data)) st1 in
            let st3 := initializeSocket (data_token data) st2 in
            let st4 := perform LoadUsers st3 in
            mkAuthResult (mkAuthCells true false) st4 (Some request)
              (Some (data_vapidPublicKey data, data_token data))
              (Some ((now + 100)%Z,
                     "Welcome back, " ++ username (data_user data) ++ "!"))
          else
            mkAuthResult (mkAuthCells true false)
              (alert "Registration successful! Please login with your credentials." st)
              (Some request) None None
      end
  end.

End Auth.

(** The response of a successful login. *)
Definition granted (data : AuthData) : AuthOutcome :=
  AuthResolves (mkAuthResponse 200 (Some "application/json") None (BodyValue data)).

(** A login form and the body that grants it. *)
Definition demo_form : AuthForm := mkAuthForm " a@b.com " "secret1" None.

Definition demo_grant : AuthData :=
  mkAuthData None "t1" alice [83; 71; 107]%N.

(** ** The service worker *)

Module ServiceWorker.

(** A value that [event.data.json()] can return.  An object keeps its
    members in the order of the text; a number is the double it denotes. *)
#[warnings="-register-all"] Inductive Json :=
| JNull
| JBool (b : bool)
| JNumber (x : spec_float)
| JString (s : string)
| JArray (items : list Json)
| JObject (members : list (string * Json)).

(** The payload of a push event: absent, text that parses to a JSON
    value, or text on which [json()] raises. *)
Inductive PushPayload :=
| NoData
| JsonData (data : Json)
| BadJson (error : JsError).

(** Whether a value counts as true in [||]. *)
Definition truthy (v : Json) : bool :=
  match v with
  | JNull => false
  | JBool b => b
  | JNumber (S754_zero _) | JNumber S754_nan => false
  | JNumber _ => true
  | JString s => Js.truthy s
  | JArray _ | JObject _ => true
  end.

(** The member of an object with a given name: the last one, as
    [JSON.parse] keeps it. *)
Fixpoint member (key : string) (members : list (string * Json)) : option Json :=
  match members with
  | [] => None
  | (k, v) :: rest =>
      match member key rest with
      | Some later => Some later
      | None => if String.eqb k key then Some v else None
      end
  end.

(** [data.title] and [data.body] on a value other than [null]: [None]
    stands for [undefined].  Only an object has members; strings, arrays,
    numbers and booleans have no property of either name. *)
Definition field (key : string) (data : Json) : option Json :=
  match data with
  | JObject members => member key members
  | _ => None
  end.

(** [value || fallback] with a string literal as the fallback. *)
Definition or_default (value : option Json) (fallback : string) : Json :=
  match value with
  | Some v => if truthy v then v else JString fallback
  | None => JString fallback
  end.

(** What the listener passes to [showNotification]: the title, and the
    body, icon, badge and data members of the options. *)
Record Shown := mkShown {
  shown_title : Json;
  shown_body : Json;
  shown_icon : string;
  shown_badge : string;
  shown_data : Json;
}.

(** The [push] listener: the notification shown, or the error raised.
    Reading [data.body] of [null] raises before anything is shown. *)
Definition on_push (payload : PushPayload) : JsError + Shown :=
  match payload with
  | BadJson error => inl error
  | JsonData JNull =>
      inl (mkError "TypeError" "Cannot read properties of null (reading 'body')")
  | JsonData data =>
      inr (mkShown (or_default (field "title" data) "Chat App")
             (or_default (field "body" data) "You have a new message")
             "/icon-192x192.png" "/icon-72x72.png" data)
  | NoData =>
      inr (mkShown (or_default (field "title" (JObject [])) "Chat App")
             (or_default (field "body" (JObject [])) "You have a new message")
             "/icon-192x192.png" "/icon-72x72.png" (JObject []))
  end.

(** What the [notificationclick] listener does after closing the
    notification. *)
Inductive ClickAction :=
| FocusClient (index : nat)
| OpenWindow (url : string)
| Nothing.

(** The [for] loop over the window clients, from position [index]:
    [can_focus] says whether ['focus' in client]. *)
Fixpoint focus_first (index : nat) (clientList : list bool) : option nat :=
  match clientList with
  | [] => None
  | can_focus :: rest =>
      if can_focus then Some index else focus_first (S index) rest
  end.

Definition on_notificationclick (clientList : list bool) (openWindow : bool)
    : ClickAction :=
  match focus_first 0 clientList with
  | Some index => FocusClient index
  | None => if openWindow then OpenWindow "/" else Nothing
  end.

End ServiceWorker.

(** A list of effects that holds alerts only. *)
Definition only_alerts (trace : list Effect) : Prop :=
  Forall (fun e => ∃ text, e = Alert text) trace.

(** ** Traces of handler calls *)

Section Actions.

Variable JSON_parse : string -> option User.
Variable JSON_stringify : User -> string.

(** [initializeApp] up to the point where it waits for the validation
    request: the token under validation, if a request is made, and the
    state. *)
Definition initializeApp_begin (st : AppState) : option string * AppState :=
  match stored "token" st, stored "userData" st with
  | Some token, Some userData =>
      match JSON_parse userData with
      | None => (None, clearAuthData st)
      | Some parsedUserData =>
          (Some token, set_currentUser (Some parsedUserData) st)
      end
  | _, _ => (None, st)
  end.

(** The rest of [initializeApp], run when the validation request has
    settled, on the state as it is by then.  The closure holds the [token]
    read at the start and the [selectedUser] of the first render, [sel]. *)
Definition initializeApp_settle (sel : option User) (token : string)
    (outcome : FetchOutcome) (st : AppState) : AppState :=
  let '(isValid, st2) := validateToken JSON_stringify token outcome st in
  if isValid
  then perform LoadUsers (initializeSocket_in sel token st2)
  else clearAuthData st2.

(** One step of the component with what the platform supplies to it.

    The four asynchronous handlers return at their first [await] and go on
    when the request has settled, and other handlers can run in between.
    [AStartup], [ALoadUsers] and [ALoadMessages] are such a handler run with
    nothing in between.  For the runs with something in between there are
    the two halves: [AStartupBegin] and [AValidationSettle] for
    [initializeApp]; the token check of [loadUsers], which changes the state
    only through [ALogout], and [AUsersSettle]; [AMessagesSettle] for
    [loadMessages], whose first half changes nothing.  Before its request
    [handleAuth] changes nothing but the loading cell, so [AAuth] is also
    its second half.  A second half carries what its closure captured. *)
Inductive Action :=
| AStartup (outcome : FetchOutcome)
| AAuth (now : Z) (cells : AuthCells) (form : AuthForm) (outcome : AuthOutcome)
| ASocket (ev : SocketEvent)
| AInput (now : Z) (value : string)
| ASend (now : Z) (iso : string) (emit_throws : bool)
| AClock (t : Z)
| ALogout
| ALoadUsers (outcome : HttpOutcome (list User))
| ALoadMessages (userId : JsId) (outcome : HttpOutcome (list Message))
| ABack
| AStartupBegin
| AValidationSettle (sel : option User) (token : string) (outcome : FetchOutcome)
| AUsersSettle (outcome : HttpOutcome (list User))
| AMessagesSettle (contacts : list User) (userId : JsId)
    (outcome : HttpOutcome (list Message)).

Definition act (env : Browser) (a : Action) (st : AppState) : AppState :=
  match a with
  | AStartup outcome => initializeApp JSON_parse JSON_stringify outcome st
  | AAuth now cells form outcome =>
      auth_app (handleAuth JSON_stringify now form outcome cells st)
  | ASocket ev => on_socket_event env ev st
  | AInput now value => handleInputChange now value st
  | ASend now iso emit_throws => sendMessage now iso emit_throws st
  | AClock t => advance_to t st
  | ALogout => handleLogout (confirm_answer env) st
  | ALoadUsers outcome => loadUsers env outcome st
  | ALoadMessages userId outcome => loadMessages env userId outcome st
  | ABack => handleBackToContacts st
  | AStartupBegin => snd (initializeApp_begin st)
  | AValidationSettle sel token outcome =>
      initializeApp_settle sel token outcome st
  | AUsersSettle outcome => loadUsers_settle env outcome st
  | AMessagesSettle contacts userId outcome =>
      loadMessages_in contacts env userId outcome st
  end.

Definition run (env : Browser) (actions : list Action) (st : AppState)
    : AppState :=
  fold_left (fun s a => act env a s) actions st.

End Actions.

(** Every action but a key stroke and a send. *)
Definition emits_nothing (a : Action) : Prop :=
  match a with
  | AInput _ _ | ASend _ _ _ => False
  | _ => True
  end.

(** A message as it is once its delivery timer has run. *)
Definition settled (m : Message) : Message :=
  mkMessage (msg_id m) (content m) (sender_id m) (created_at m) (isOwn m) false.

(** A sent message on its way to delivery: it is in the sequence already
    marked, or it is there pending with its delivery timer pending, due at
    [T]. *)
Definition on_its_way (m : Message) (T : Z) (st : AppState) : Prop :=
  settled m ∈ messages st
  ∨ (m ∈ messages st
     ∧ ∃ tm, tm ∈ timers st
             ∧ callback tm = MarkDeliveredCallback (msg_id m) ∧ due tm = T).

(** The steps that keep the open conversation while the message sent at
    [now] waits for its timer: all but a conversation being loaded, going
    back to the contacts, a logout dialog being confirmed, and a failed
    send whose provisional id is the same, which removes both messages. *)
Definition keeps_message (env : Browser) (now : Z) (a : Action) : bool :=
  match a with
  | ASocket ev => keeps_conversation env ev
  | ASend now' _ emit_throws => negb (emit_throws && bool_decide (now' = now))
  | ALogout | ALoadUsers _ | AUsersSettle _ => negb (confirm_answer env)
  | ALoadMessages _ _ | AMessagesSettle _ _ _ | ABack => false
  | _ => true
  end.

(** A step that leaves the timers alone and at most appends messages. *)
Definition conversation_kept (st st' : AppState) : Prop :=
  timers st' = timers st
  ∧ next_timer st' = next_timer st
  ∧ typingTimeoutRef st' = typingTimeoutRef st
  ∧ ∃ extra, messages st' = (messages st ++ extra)%list.

(** Whether the last event about [id] in a trace says online, starting
    from [before]. *)
Definition presence_after (id : JsId) (evs : list SocketEvent) (before : bool)
    : bool :=
  fold_left
    (fun b ev =>
       match ev with
       | EvUserOnline i => if decide (i = id) then true else b
       | EvUserOffline i => if decide (i = id) then false else b
       | _ => b
       end) evs before.

(** Every pending typing callback captured [isTyping = false]. *)
Definition callbacks_stale (st : AppState) : Prop :=
  Forall (fun t => match callback t with
                   | TypingStopCallback _ typing => typing = false
                   | MarkDeliveredCallback _ => True
                   end) (timers st).

(** An effect other than a socket emit. *)
Definition no_emit (e : Effect) : Prop :=
  match e with
  | SocketEmit _ _ _ => False
  | _ => True
  end.

(** A step that leaves the typing flag and the timers alone and emits
    nothing. *)
Definition quiet (st st' : AppState) : Prop :=
  isTyping st' = isTyping st
  ∧ timers st' = timers st
  ∧ ∃ extra, effects st' = (effects st ++ extra)%list ∧ Forall no_emit extra.

(** One more [typing_start] than [typing_stop] has been emitted exactly
    while [isTyping] is set. *)
Definition typing_balanced (st : AppState) : Prop :=
  length (emits_of "typing_start" (effects st))
  = (length (emits_of "typing_stop" (effects st))
     + (if isTyping st then 1 else 0))%nat.

(** A current user implies a stored profile. *)
Definition profile_backed (st : AppState) : Prop :=
  currentUser st ≠ None → is_Some (localStorage st !! "userData").

(** A step that leaves both presence sets alone. *)
Definition presence_kept (st st' : AppState) : Prop :=
  typingUsers st' = typingUsers st ∧ onlineUsers st' = onlineUsers st.

(** A step that leaves the stored credentials and the current user
    alone. *)
Definition session_same (st st' : AppState) : Prop :=
  localStorage st' = localStorage st ∧ currentUser st' = currentUser st.

(** What a step can do to the session: leave it, end it, or leave a
    profile stored. *)
Definition session_step (st st' : AppState) : Prop :=
  session_same st st'
  ∨ currentUser st' = None
  ∨ is_Some (localStorage st' !! "userData").

(** * Properties *)

Ltac break_matches :=
  repeat match goal with
         | |- context [match ?x with _ => _ end] => destruct x eqn:?
         end.

(** ** Presence *)

Lemma online_spec (s : gset JsId) (id : JsId) :
  Presence.online s id = true ↔ id ∈ s.
Proof. unfold Presence.online. apply bool_decide_eq_true. Qed.

Lemma user_offline_absent (userId : JsId) (s : gset JsId) :
  Presence.online (Presence.user_offline userId s) userId = false.
Proof.
  unfold Presence.online, Presence.user_offline.
  apply bool_decide_eq_false. rewrite elem_of_difference, elem_of_singleton.
  tauto.
Qed.

Lemma user_offline_idem (userId : JsId) (s : gset JsId) :
  Presence.user_offline userId (Presence.user_offline userId s)
  = Presence.user_offline userId s.
Proof.
  unfold Presence.user_offline. apply set_eq. intros x.
  rewrite !elem_of_difference. tauto.
Qed.

Lemma user_offline_subset (userId : JsId) (s : gset JsId) :
  Presence.user_offline userId s ⊆ s.
Proof.
  unfold Presence.user_offline. intros x. rewrite elem_of_difference. tauto.
Qed.

(** C8.  In a state whose socket has its listeners, if a contact id is in
    the online set then, after a [user_offline] event for that id, the id
    reads as offline; a second delivery of the same event leaves the whole
    state as the first left it; and the online set after the event is a
    subset of the one before. *)
Theorem user_offline_event_roundtrip
    (env : Browser) (sock : Socket) (userId : JsId) (st : AppState) :
  socketRef st = Some sock →
  Presence.online (onlineUsers st) userId = true →
  let st1 := on_socket_event env (EvUserOffline userId) st in
  Presence.online (onlineUsers st1) userId = false
  ∧ on_socket_event env (EvUserOffline userId) st1 = st1
  ∧ onlineUsers st1 ⊆ onlineUsers st.
Proof.
  intros Hsock _. unfold on_socket_event. rewrite Hsock. cbn.
  rewrite Hsock. split; [apply user_offline_absent|].
  split; [|apply user_offline_subset].
  unfold set_onlineUsers; cbn. by rewrite user_offline_idem.
Qed.

Lemma user_offline_event_roundtrip_witness :
  let env := mkBrowser false true PermGranted true in
  let st1 := on_socket_event env (EvUserOffline (inl 7%Z)) presence_demo in
  Presence.online (onlineUsers st1) (inl 7%Z) = false
  ∧ on_socket_event env (EvUserOffline (inl 7%Z)) st1 = st1
  ∧ onlineUsers st1 ⊆ onlineUsers presence_demo.
Proof.
  apply (user_offline_event_roundtrip _ (mkSocket "t1" None)).
  - reflexivity.
  - vm_compute. reflexivity.
Defined.

(** ** The VAPID key helpers agree *)

Section VapidProofs.
Import Vapid.

Lemma to_uint8_byte (c : N) : (c < 256)%N → to_uint8 (Some c) = c.
Proof. intros H. cbn. by apply N.mod_small. Qed.

Lemma spread_binary (raw : JsString) :
  binary raw → spread raw = map (fun c => [c]) raw.
Proof.
  induction 1 as [|h rest Hh Hrest IH]; [done|].
  cbn [spread map]. destruct rest as [|l rest'].
  - done.
  - assert (is_high_surrogate h = false) as ->.
    { unfold is_high_surrogate. apply andb_false_intro1.
      apply N.leb_gt. lia. }
    cbn [andb]. by rewrite IH.
Qed.

Lemma spread_bytes (raw : JsString) :
  binary raw → map to_uint8 (map (charCodeAt 0) (spread raw)) = raw.
Proof.
  intros Hbin. rewrite spread_binary by done.
  induction Hbin as [|h rest Hh Hrest IH]; [done|].
  cbn [map]. rewrite IH. f_equal.
  unfold charCodeAt. cbn [lookup list_lookup]. by apply to_uint8_byte.
Qed.

(** The loop invariant: the first [i] cells hold their final values. *)
Lemma fill_loop_spec (raw : JsString) (fuel i : nat) (out : list N) :
  length out = length raw →
  (length raw ≤ i + fuel)%nat →
  (i ≤ length raw)%nat →
  take i out = take i (map (fun c => (c mod 256)%N) raw) →
  fill_loop fuel i raw out = map (fun c => (c mod 256)%N) raw.
Proof.
  revert i out. induction fuel as [|fuel IH]; intros i out Hlen Hfuel Hi Hpre.
  - cbn. assert (i = length raw) as -> by lia.
    rewrite <- Hlen in Hpre at 1. rewrite take_ge in Hpre by lia.
    rewrite take_ge in Hpre; [done|]. rewrite length_map. lia.
  - cbn [fill_loop]. destruct (i <? length raw)%nat eqn:Hlt.
    + apply Nat.ltb_lt in Hlt.
      destruct (lookup_lt_is_Some_2 raw i Hlt) as [c Hc].
      apply IH.
      * by rewrite length_insert.
      * lia.
      * lia.
      * unfold charCodeAt. rewrite Hc. cbn [to_uint8].
        rewrite (take_S_r (map _ raw) i (c mod 256)%N).
        2:{ by rewrite list_lookup_fmap, Hc. }
        rewrite (take_S_r (<[i:=(c mod 256)%N]> out) i (c mod 256)%N).
        2:{ apply list_lookup_insert_eq. lia. }
        rewrite take_insert_ge by lia. by rewrite Hpre.
    + apply Nat.ltb_ge in Hlt. assert (i = length raw) as -> by lia.
      rewrite <- Hlen in Hpre at 1. rewrite take_ge in Hpre by lia.
      rewrite take_ge in Hpre; [done|]. rewrite length_map. lia.
Qed.

Lemma mod256_binary (raw : JsString) :
  binary raw → map (fun c => (c mod 256)%N) raw = raw.
Proof.
  induction 1 as [|h rest Hh Hrest IH]; [done|].
  cbn [map]. rewrite IH. f_equal. by apply N.mod_small.
Qed.

Lemma loop_bytes (raw : JsString) :
  binary raw →
  fill_loop (length raw) 0 raw (replicate (length raw) 0%N) = raw.
Proof.
  intros Hbin. rewrite fill_loop_spec.
  - by apply mod256_binary.
  - by rewrite length_replicate.
  - lia.
  - lia.
  - done.
Qed.

Lemma padded_length (s : JsString) :
  (length (base64_of s) mod 4 = 0)%nat.
Proof.
  unfold base64_of, replace_all, padding.
  rewrite !length_map, length_app, length_replicate.
  remember (length s) as n eqn:Hn. clear Hn.
  pose proof (Nat.div_mod_eq n 4) as Hq.
  pose proof (Nat.mod_upper_bound n 4 ltac:(lia)) as Hr.
  generalize dependent (n mod 4)%nat. intros r Hq Hr.
  generalize dependent (n / 4)%nat. intros q Hq. subst n.
  assert (r = 0 ∨ r = 1 ∨ r = 2 ∨ r = 3)%nat as [-> | [-> | [-> | ->]]] by lia.
  - change ((4 - 0) mod 4)%nat with 0%nat.
    replace (4 * q + 0 + 0)%nat with (q * 4)%nat by lia.
    apply Nat.Div0.mod_mul.
  - change ((4 - 1) mod 4)%nat with 3%nat.
    replace (4 * q + 1 + 3)%nat with ((q + 1) * 4)%nat by lia.
    apply Nat.Div0.mod_mul.
  - change ((4 - 2) mod 4)%nat with 2%nat.
    replace (4 * q + 2 + 2)%nat with ((q + 1) * 4)%nat by lia.
    apply Nat.Div0.mod_mul.
  - change ((4 - 3) mod 4)%nat with 1%nat.
    replace (4 * q + 3 + 1)%nat with ((q + 1) * 4)%nat by lia.
    apply Nat.Div0.mod_mul.
Qed.

End VapidProofs.

(** The two replacements, one code unit at a time: [-] (45) becomes [+]
    (43), [_] (95) becomes [/] (47), every other code unit stays. *)
Lemma replace_all_both (s : Vapid.JsString) :
  Vapid.replace_all Vapid.UNDERSCORE Vapid.SLASH
    (Vapid.replace_all Vapid.MINUS Vapid.PLUS s)
  = map (fun c => if (c =? 45)%N then 43%N
                  else if (c =? 95)%N then 47%N else c) s.
Proof.
  unfold Vapid.replace_all. rewrite map_map. apply map_ext. intros c.
  change Vapid.MINUS with 45%N. change Vapid.PLUS with 43%N.
  change Vapid.UNDERSCORE with 95%N. change Vapid.SLASH with 47%N.
  destruct (c =? 45)%N eqn:H45; [done|]. done.
Qed.

Lemma replace_all_padding (k : nat) :
  map (fun c => if (c =? 45)%N then 43%N
                else if (c =? 95)%N then 47%N else c) (replicate k 61%N)
  = replicate k 61%N.
Proof. induction k as [|k IH]; [done|]. cbn [replicate map]. by rewrite IH. Qed.

(** C10.  Let [atob] return only binary strings, as the browser's does.
    Then the two helpers give the same result on every input (both raise
    when [atob] raises).  The string handed to [atob] is, code unit by code
    unit, the input with every [-] (45) turned into [+] (43) and every [_]
    (95) into [/] (47) and all else kept, followed by [k] signs [=] (61),
    where [k] is the one number below four that makes the length a multiple
    of four; and when that string decodes to [raw], both helpers return one
    and the same array, of the length of [raw], whose cell [i] is the char
    code of the character [i] of [raw]. *)
Theorem urlBase64ToUint8Array_helpers_agree
    (atob : Vapid.JsString → option Vapid.JsString)
    (Hatob : ∀ s raw, atob s = Some raw → binary raw)
    (base64String : Vapid.JsString) :
  Vapid.urlBase64ToUint8Array_spread atob base64String
  = Vapid.urlBase64ToUint8Array_loop atob base64String
  ∧ (∃ k, (k < 4)%nat
      ∧ ((length base64String + k) mod 4 = 0)%nat
      ∧ Vapid.base64_of base64String
        = (map (fun c => if (c =? 45)%N then 43%N
                         else if (c =? 95)%N then 47%N else c) base64String
           ++ replicate k 61%N)%list)
  ∧ ∀ raw, atob (Vapid.base64_of base64String) = Some raw →
      ∃ out,
        Vapid.urlBase64ToUint8Array_spread atob base64String = Some out
        ∧ Vapid.urlBase64ToUint8Array_loop atob base64String = Some out
        ∧ length out = length raw
        ∧ ∀ i, out !! i = Vapid.charCodeAt i raw.
Proof.
  unfold Vapid.urlBase64ToUint8Array_spread, Vapid.urlBase64ToUint8Array_loop.
  split; [|split].
  - destruct (atob (Vapid.base64_of base64String)) as [raw|] eqn:Hraw; [|done].
    pose proof (Hatob _ _ Hraw) as Hbin.
    by rewrite spread_bytes, loop_bytes.
  - exists ((4 - length base64String mod 4) mod 4)%nat.
    assert (Vapid.base64_of base64String
            = (map (fun c => if (c =? 45)%N then 43%N
                             else if (c =? 95)%N then 47%N else c) base64String
               ++ replicate ((4 - length base64String mod 4) mod 4) 61%N)%list)
      as Hshape.
    { unfold Vapid.base64_of, Vapid.padding. rewrite replace_all_both, map_app.
      change Vapid.EQUALS with 61%N. by rewrite replace_all_padding. }
    split; [apply Nat.mod_upper_bound; lia|]. split; [|exact Hshape].
    pose proof (padded_length base64String) as Hlen.
    by rewrite Hshape, length_app, length_map, length_replicate in Hlen.
  - intros raw Hraw. rewrite Hraw. pose proof (Hatob _ _ Hraw) as Hbin.
    exists raw. rewrite spread_bytes, loop_bytes by done. done.
Qed.

Lemma bytes_of_sextets_binary (l : list N) :
  binary (Vapid.Base64.bytes_of_sextets l).
Proof.
  assert (∀ n (l : list N), (length l ≤ n)%nat →
            binary (Vapid.Base64.bytes_of_sextets l)) as Hfuel.
  { clear l. induction n as [|n IH]; intros l Hlen.
    - destruct l; [constructor | cbn in Hlen; lia].
    - destruct l as [|a [|b [|c [|d rest]]]]; cbn [Vapid.Base64.bytes_of_sextets].
      + constructor.
      + constructor.
      + repeat constructor. apply N.mod_lt. lia.
      + repeat constructor; apply N.mod_lt; lia.
      + repeat (constructor; [apply N.mod_lt; lia|]).
        apply IH. cbn in Hlen. lia. }
  by apply (Hfuel (length l)).
Qed.

Lemma atob_binary (s raw : Vapid.JsString) :
  Vapid.Base64.atob s = Some raw → binary raw.
Proof.
  unfold Vapid.Base64.atob. intros H.
  destruct (_ =? 1)%nat in H; [done|].
  destruct (mapM _ _) as [xs|] in H; [|done].
  cbn in H. injection H as <-. apply bytes_of_sextets_binary.
Qed.

(** The key ["_-8"]: it is handed to [atob] as ["/+8="] and decodes to the
    bytes 255 and 239. *)
Lemma urlBase64ToUint8Array_helpers_agree_witness :
  let key := [95; 45; 56]%N in
  Vapid.base64_of key = [47; 43; 56; 61]%N
  ∧ Vapid.urlBase64ToUint8Array_loop Vapid.Base64.atob key = Some [255; 239]%N
  ∧ Vapid.urlBase64ToUint8Array_spread Vapid.Base64.atob key = Some [255; 239]%N.
Proof.
  intros key.
  destruct (urlBase64ToUint8Array_helpers_agree Vapid.Base64.atob atob_binary key)
    as (Hagree & (k & Hk & Hmod & Hshape) & _).
  assert (k = 1%nat) as ->.
  { cbn [length key] in Hmod.
    assert (k = 0 ∨ k = 1 ∨ k = 2 ∨ k = 3)%nat as [-> | [-> | [-> | ->]]] by lia;
      cbn in Hmod; congruence. }
  split; [exact Hshape|].
  assert (Vapid.urlBase64ToUint8Array_loop Vapid.Base64.atob key
          = Some [255; 239]%N) as Hloop by (vm_compute; reflexivity).
  split; [exact Hloop|]. by rewrite Hagree.
Defined.

(** ** Startup validation *)

Lemma clearAuthData_storage (st : AppState) :
  localStorage (clearAuthData st) !! "token" = None
  ∧ localStorage (clearAuthData st) !! "userData" = None
  ∧ currentUser (clearAuthData st) = None
  ∧ effects (clearAuthData st) = effects st
  ∧ socketRef (clearAuthData st) = socketRef st.
Proof.
  unfold clearAuthData; cbn. repeat split.
  - rewrite lookup_delete_ne by done. apply lookup_delete_eq.
  - apply lookup_delete_eq.
Qed.

Lemma stored_mount (key value : string) (storage : gmap string string) :
  stored key (mount storage) = Some value →
  storage !! key = Some value ∧ Js.truthy value = true.
Proof.
  unfold stored, mount; cbn. destruct (storage !! key) as [v|]; [|done].
  destruct (Js.truthy v) eqn:Hv; [|done]. intros [= ->]. done.
Qed.

Section StartupProofs.

Variable JSON_parse : string -> option User.
Variable JSON_stringify : User -> string.

(** A response that is refused before its body is read: not typed as JSON,
    or JSON with a status outside 200 to 299. *)
Lemma validateToken_refused (token : string) (res : Response) (st : AppState) :
  is_json (content_type res) = false ∨ res_ok res = false →
  validateToken JSON_stringify token (FetchResolves res) st = (false, st).
Proof.
  unfold validateToken. intros [H|H].
  - by rewrite H.
  - rewrite H. by destruct (is_json _).
Qed.

Lemma initializeApp_refused (storage : gmap string string)
    (token userData : string) (res : Response) :
  stored "token" (mount storage) = Some token →
  stored "userData" (mount storage) = Some userData →
  is_json (content_type res) = false ∨ res_ok res = false →
  let st :=
    initializeApp JSON_parse JSON_stringify (FetchResolves res) (mount storage) in
  localStorage st !! "token" = None
  ∧ localStorage st !! "userData" = None
  ∧ currentUser st = None
  ∧ socketRef st = None
  ∧ effects st = [].
Proof.
  intros Ht Hu Hres. unfold initializeApp. rewrite Ht, Hu.
  destruct (JSON_parse userData) as [parsed|].
  - rewrite validateToken_refused by done.
    destruct (clearAuthData_storage (set_currentUser (Some parsed) (mount storage)))
      as (? & ? & ? & ? & ?).
    done.
  - destruct (clearAuthData_storage (mount storage)) as (? & ? & ? & ? & ?).
    done.
Qed.

(** C7.  At startup with a stored token and a stored profile, when the
    validation request is answered with status 401 (whatever its content
    type and body), the token and the profile are gone from the storage,
    no user is current, and the run has opened no socket: no socket object
    exists and the trace of effects holds no [SocketOpen]. *)
Theorem validate_401_clears_credentials (storage : gmap string string)
    (token userData : string) (res : Response) :
  stored "token" (mount storage) = Some token →
  stored "userData" (mount storage) = Some userData →
  status res = 401%N →
  let st :=
    initializeApp JSON_parse JSON_stringify (FetchResolves res) (mount storage) in
  localStorage st !! "token" = None
  ∧ localStorage st !! "userData" = None
  ∧ currentUser st = None
  ∧ socketRef st = None
  ∧ ∀ tok, SocketOpen tok ∉ effects st.
Proof.
  intros Ht Hu H401.
  destruct (initializeApp_refused storage token userData res Ht Hu)
    as (H1 & H2 & H3 & H4 & H5).
  { right. unfold res_ok. by rewrite H401. }
  cbn zeta. rewrite H5. repeat split; try done. intros tok Hin.
  by apply elem_of_nil in Hin.
Qed.

Lemma validateToken_exception (token : string) (outcome : FetchOutcome)
    (error : JsError) (st : AppState) :
  validation_exception outcome = Some error →
  validateToken JSON_stringify token outcome st = (validation_catch error, st).
Proof.
  unfold validation_exception, validateToken.
  destruct outcome as [res|e].
  - destruct (is_json _); [|done]. destruct (res_ok _); [|done].
    destruct (json_body res); [done|]. by intros [= ->].
  - by intros [= ->].
Qed.

(** C1, as the code has it.  At startup with a stored token and a stored
    profile that parses: (a) when validation ends in an exception that is
    a [TypeError] whose message contains ["JSON"], the storage is left as it
    was, the cached profile stays the current user, and the socket is
    opened with the stored token; (b) when the response is not typed as
    JSON, the token and the profile are removed and no user is current. *)
Theorem validation_outcome_and_session (storage : gmap string string)
    (token userData : string) (profile : User) :
  stored "token" (mount storage) = Some token →
  stored "userData" (mount storage) = Some userData →
  JSON_parse userData = Some profile →
  (∀ outcome error,
     validation_exception outcome = Some error →
     err_name error = "TypeError" →
     Js.includes "JSON" (err_message error) = true →
     let st := initializeApp JSON_parse JSON_stringify outcome (mount storage) in
     localStorage st = storage
     ∧ currentUser st = Some profile
     ∧ effects st = [SocketOpen token; LoadUsers])
  ∧ (∀ res,
       is_json (content_type res) = false →
       let st :=
         initializeApp JSON_parse JSON_stringify (FetchResolves res)
           (mount storage) in
       localStorage st !! "token" = None
       ∧ localStorage st !! "userData" = None
       ∧ currentUser st = None
       ∧ effects st = []).
Proof.
  intros Ht Hu Hp. split.
  - intros outcome error Hex Hname Hmsg. unfold initializeApp.
    rewrite Ht, Hu, Hp. rewrite (validateToken_exception _ _ error) by done.
    unfold validation_catch. rewrite Hname, Hmsg. done.
  - intros res Hres.
    destruct (initializeApp_refused storage token userData res Ht Hu)
      as (H1 & H2 & H3 & H4 & H5); [by left|]. done.
Qed.

(** What the code does on a network failure: a rejected [fetch] whose
    error is not a [TypeError] mentioning ["JSON"] clears the session. *)
Lemma network_failure_clears_session (storage : gmap string string)
    (token userData : string) (error : JsError) :
  stored "token" (mount storage) = Some token →
  stored "userData" (mount storage) = Some userData →
  Js.includes "JSON" (err_message error) = false →
  let st :=
    initializeApp JSON_parse JSON_stringify (FetchRejects error) (mount storage) in
  localStorage st !! "token" = None
  ∧ localStorage st !! "userData" = None
  ∧ currentUser st = None
  ∧ effects st = [].
Proof.
  intros Ht Hu Hmsg. unfold initializeApp. rewrite Ht, Hu.
  destruct (JSON_parse userData) as [parsed|].
  - cbn [validateToken]. unfold validation_catch. rewrite Hmsg, andb_false_r.
    destruct (clearAuthData_storage (set_currentUser (Some parsed) (mount storage)))
      as (? & ? & ? & ? & ?).
    done.
  - destruct (clearAuthData_storage (mount storage)) as (? & ? & ? & ? & ?).
    done.
Qed.

End StartupProofs.

Lemma validate_401_clears_credentials_witness :
  let res := mkResponse 401 (Some "application/json; charset=utf-8")
               (JsonThrows (mkError "SyntaxError" "Unexpected end of JSON input")) in
  let st :=
    initializeApp parse_demo stringify_demo (FetchResolves res)
      (mount demo_storage) in
  localStorage st !! "token" = None
  ∧ localStorage st !! "userData" = None
  ∧ currentUser st = None
  ∧ socketRef st = None
  ∧ ∀ tok, SocketOpen tok ∉ effects st.
Proof.
  apply (validate_401_clears_credentials parse_demo stringify_demo
           demo_storage "t1" "alice-profile").
  - vm_compute. reflexivity.
  - vm_compute. reflexivity.
  - reflexivity.
Defined.

(** C1 fails as stated: a stored session is present and the validation
    request is answered by an HTML error page (a malformed response, not a
    rejection of the token); the token and the profile are removed and no
    user is current. *)
Lemma non_json_response_invalidates_session :
  let res := mkResponse 503 (Some "text/html")
               (JsonThrows (mkError "SyntaxError" "Unexpected token < in JSON at position 0")) in
  let st :=
    initializeApp parse_demo stringify_demo (FetchResolves res)
      (mount demo_storage) in
  stored "token" (mount demo_storage) = Some "t1"
  ∧ stored "userData" (mount demo_storage) = Some "alice-profile"
  ∧ parse_demo "alice-profile" = Some alice
  ∧ ¬ (localStorage st !! "token" = Some "t1"
       ∧ localStorage st !! "userData" = Some "alice-profile"
       ∧ currentUser st = Some alice).
Proof.
  vm_compute. repeat split; try reflexivity. intros (H & _). discriminate H.
Qed.

Lemma validation_outcome_and_session_witness :
  (let st :=
     initializeApp parse_demo stringify_demo
       (FetchResolves
          (mkResponse 200 (Some "application/json")
             (JsonThrows (mkError "TypeError" "Invalid JSON body"))))
       (mount demo_storage) in
   localStorage st = demo_storage
   ∧ currentUser st = Some alice
   ∧ effects st = [SocketOpen "t1"; LoadUsers])
  ∧ (let st :=
       initializeApp parse_demo stringify_demo
         (FetchResolves (mkResponse 200 None (JsonValue alice)))
         (mount demo_storage) in
     localStorage st !! "token" = None
     ∧ localStorage st !! "userData" = None
     ∧ currentUser st = None
     ∧ effects st = []).
Proof.
  destruct (validation_outcome_and_session parse_demo stringify_demo
              demo_storage "t1" "alice-profile" alice) as [Hkeep Hdrop].
  - vm_compute. reflexivity.
  - vm_compute. reflexivity.
  - reflexivity.
  - split.
    + apply (Hkeep (FetchResolves
                      (mkResponse 200 (Some "application/json")
                         (JsonThrows (mkError "TypeError" "Invalid JSON body"))))
               (mkError "TypeError" "Invalid JSON body")).
      * vm_compute. reflexivity.
      * reflexivity.
      * vm_compute. reflexivity.
    + apply (Hdrop (mkResponse 200 None (JsonValue alice))). reflexivity.
Defined.

(** ** Sending while not connected *)

Lemma sendMessage_guard (now : Z) (iso : string) (emit_throws : bool)
    (st : AppState) :
  Js.truthy (Js.trim (newMessage st)) = false
  ∨ selectedUser st = None ∨ socketRef st = None →
  sendMessage now iso emit_throws st = st.
Proof.
  unfold sendMessage. intros [H|[H|H]]; rewrite H.
  - done.
  - by destruct (Js.truthy _).
  - by destruct (Js.truthy _), (selectedUser st).
Qed.




(** ** The typing indicator *)

(** A callback that captured [isTyping = false] does nothing when it
    runs. *)
Lemma stale_typing_stop_inert (sel : option User) (st : AppState) :
  run_callback (TypingStopCallback sel false) st = st.
Proof.
  unfold run_callback, handleTypingStop_in.
  destruct sel; [destruct (socketRef st)|]; reflexivity.
Qed.

(** [handleTypingStart] passes its guard only when [isTyping] is false, so
    the callback it schedules has captured [false]. *)
Lemma handleTypingStart_timer (now : Z) (st : AppState) (u : User) (sock : Socket) :
  selectedUser st = Some u → socketRef st = Some sock → isTyping st = false →
  timers (handleTypingStart now st)
  = (timers (clearTimeout (typingTimeoutRef st) st)
     ++ [mkTimer (next_timer st) (now + 2000) (TypingStopCallback (Some u) false)])%list
  ∧ effects (handleTypingStart now st)
    = (effects st ++ [SocketEmit "typing_start" (user_id u) None])%list
  ∧ isTyping (handleTypingStart now st) = true.
Proof.
  intros Hu Hs Ht. unfold handleTypingStart. rewrite Hu, Hs, Ht.
  destruct (typingTimeoutRef st) as [k|] eqn:Hk; cbn; rewrite Hk; done.
Qed.

(** A call while [isTyping] is already set changes nothing: no emit, and
    the pending timer keeps its due time. *)
Lemma handleTypingStart_again (now : Z) (st : AppState) :
  isTyping st = true → handleTypingStart now st = st.
Proof.
  intros Ht. unfold handleTypingStart. rewrite Ht.
  by destruct (selectedUser st), (socketRef st).
Qed.

Lemma fire_stuck (tid : N) (st : AppState) :
  typing_stuck st →
  typing_stuck (fire tid st) ∧ effects (fire tid st) = effects st.
Proof.
  intros [Hty Hcbs]. unfold fire.
  destruct (List.find _ _) as [tm|] eqn:Hfind; [|done].
  apply List.find_some in Hfind as [Hin _]. apply list_elem_of_In in Hin.
  eapply Forall_forall in Hcbs as Hcb; [|exact Hin]. destruct Hcb as [sel ->].
  rewrite stale_typing_stop_inert. split; [|done]. split; [done|]. cbn.
  apply Forall_forall. intros t Ht. apply list_elem_of_filter in Ht as [_ Ht].
  by eapply Forall_forall in Hcbs.
Qed.

Lemma run_until_stuck (fuel : nat) (t : Z) (st : AppState) :
  typing_stuck st →
  typing_stuck (run_until fuel t st) ∧ effects (run_until fuel t st) = effects st.
Proof.
  revert st. induction fuel as [|fuel IH]; intros st Hst; [done|].
  cbn [run_until]. destruct (earliest (timers st)) as [tm|]; [|done].
  destruct (due tm <=? t)%Z; [|done].
  destruct (fire_stuck (timer_id tm) st Hst) as [Hst' Heff].
  destruct (IH _ Hst') as [Hst'' Heff']. split; [done | congruence].
Qed.

Lemma type_at_stuck (t : Z) (value : string) (st : AppState) :
  Js.truthy (Js.trim value) = true →
  typing_stuck st →
  typing_stuck (type_at t value st) ∧ effects (type_at t value st) = effects st.
Proof.
  intros Hvalue Hst. unfold type_at, advance_to.
  destruct (run_until_stuck (length (timers st)) t st Hst) as [[Hty Hcbs] Heff].
  unfold handleInputChange. rewrite Hvalue.
  rewrite handleTypingStart_again by done. done.
Qed.

Lemma type_all_stuck (keys : list (Z * string)) (st : AppState) :
  Forall (fun key => Js.truthy (Js.trim key.2) = true) keys →
  typing_stuck st →
  typing_stuck (type_all keys st) ∧ effects (type_all keys st) = effects st.
Proof.
  intros Hkeys. revert st. induction Hkeys as [|key keys Hkey _ IH]; intros st Hst.
  - done.
  - cbn [type_all fold_left].
    destruct (type_at_stuck key.1 key.2 st Hkey Hst) as [Hst' Heff].
    destruct (IH _ Hst') as [Hst'' Heff']. unfold type_all in *.
    split; [done | congruence].
Qed.

(** Any run of key strokes with non-blank text, however they are spaced,
    started with the conversation open, [isTyping] unset and no timer
    pending: whatever time the clock then reaches, the run has emitted one
    [typing_start] and nothing else. *)
Lemma typing_run_emits_start_only (key : Z * string) (keys : list (Z * string))
    (t : Z) (st : AppState) (u : User) (sock : Socket) :
  selectedUser st = Some u → socketRef st = Some sock →
  isTyping st = false → timers st = [] →
  Forall (fun key => Js.truthy (Js.trim key.2) = true) (key :: keys) →
  effects (advance_to t (type_all (key :: keys) st))
  = (effects st ++ [SocketEmit "typing_start" (user_id u) None])%list.
Proof.
  intros Hu Hs Hty Hts Hkeys. apply Forall_cons in Hkeys as [Hkey Hkeys].
  cbn [type_all fold_left]. fold (type_all keys (type_at key.1 key.2 st)).
  assert (type_at key.1 key.2 st
          = handleTypingStart key.1 (set_newMessage key.2 st)) as Hfirst.
  { unfold type_at, advance_to. rewrite Hts. cbn [length run_until].
    unfold handleInputChange. by rewrite Hkey. }
  destruct (handleTypingStart_timer key.1 (set_newMessage key.2 st) u sock)
    as (Htimers & Heff & Htyping); try done.
  assert (typing_stuck (type_at key.1 key.2 st)) as Hstuck.
  { rewrite Hfirst. split; [done|]. rewrite Htimers.
    apply Forall_app. split.
    - destruct (typingTimeoutRef (set_newMessage key.2 st)); cbn; rewrite Hts;
        constructor.
    - repeat constructor. by eexists. }
  destruct (type_all_stuck keys _ Hkeys Hstuck) as [Hstuck' Heff'].
  unfold advance_to.
  destruct (run_until_stuck (length (timers (type_all keys (type_at key.1 key.2 st))))
              t _ Hstuck') as [_ Heff''].
  rewrite Heff'', Heff', Hfirst, Heff. done.
Qed.

(** C3 on the code: two key strokes one second apart, then silence.  One
    [typing_start] is emitted.  The second call does not move the timer:
    it stays due at 2000, two seconds after the first call.  When that
    timer fires it emits nothing, and no [typing_stop] has been emitted by
    time 3000, two seconds after the last call, nor later; [isTyping] stays
    set and no timer is left. *)
Theorem typing_debounce_two_keystrokes :
  let st1 := type_at 0 "h" chat_ready in
  let st2 := type_at 1000 "he" st1 in
  let st3 := advance_to 3000 st2 in
  let st4 := advance_to 60000 st3 in
  emits_of "typing_start" (effects st4)
    = [SocketEmit "typing_start" (inl 2%Z) None]
  ∧ map due (timers st1) = [2000%Z]
  ∧ map due (timers st2) = [2000%Z]
  ∧ emits_of "typing_stop" (effects st3) = []
  ∧ emits_of "typing_stop" (effects st4) = []
  ∧ isTyping st4 = true
  ∧ timers st4 = [].
Proof. vm_compute. repeat split; reflexivity. Qed.

(** ** Authentication failure on the channel *)

(** C4 on the code: the [connect_error] listener runs [handleLogout],
    which asks [window.confirm] first.  When the error message matches the
    pattern and the user declines, the stored credentials, the current
    user and the socket are all left as they were (no disconnect is
    performed), the status becomes [error], and the "Session expired"
    alert is shown all the same. *)
Theorem auth_failure_declined_keeps_session (env : Browser) (sock : Socket)
    (error : JsError) (st : AppState) :
  socketRef st = Some sock →
  is_auth_failure error = true →
  confirm_answer env = false →
  let st' := on_socket_event env (EvConnectError error) st in
  localStorage st' = localStorage st
  ∧ currentUser st' = currentUser st
  ∧ socketRef st' = Some sock
  ∧ connectionStatus st' = ConnError
  ∧ effects st' = (effects st ++ [Alert "Session expired. Please login again."])%list.
Proof.
  intros Hs Hauth Hno. unfold on_socket_event, on_connect_error.
  rewrite Hs, Hauth, Hno. done.
Qed.

Lemma auth_failure_declined_keeps_session_witness :
  let st' :=
    on_socket_event demo_env
      (EvConnectError (mkError "Error" "401 unauthorized")) chat_ready in
  localStorage st' = localStorage chat_ready
  ∧ currentUser st' = currentUser chat_ready
  ∧ socketRef st' = Some (mkSocket "t1" None)
  ∧ connectionStatus st' = ConnError
  ∧ effects st'
    = (effects chat_ready ++ [Alert "Session expired. Please login again."])%list.
Proof.
  apply (auth_failure_declined_keeps_session demo_env (mkSocket "t1" None)).
  - reflexivity.
  - vm_compute. reflexivity.
  - reflexivity.
Defined.

(** When the user accepts the dialog, the session is cleared and the
    socket is disconnected. *)
Lemma auth_failure_confirmed_logs_out (env : Browser) (sock : Socket)
    (error : JsError) (st : AppState) :
  socketRef st = Some sock →
  is_auth_failure error = true →
  confirm_answer env = true →
  let st' := on_socket_event env (EvConnectError error) st in
  localStorage st' !! "token" = None
  ∧ localStorage st' !! "userData" = None
  ∧ currentUser st' = None
  ∧ effects st'
    = (effects st ++ [SocketDisconnect;
                      Alert "You have been logged out successfully.";
                      Alert "Session expired. Please login again."])%list.
Proof.
  intros Hs Hauth Hyes. unfold on_socket_event, on_connect_error.
  rewrite Hs, Hauth, Hyes. unfold handleLogout. cbn. rewrite Hs. cbn.
  repeat split.
  - rewrite lookup_delete_ne by done. apply lookup_delete_eq.
  - apply lookup_delete_eq.
  - by rewrite <- !app_assoc.
Qed.

(** ** Reconnection attempts *)

Lemma handleLogout_frame (confirmed : bool) (st : AppState) :
  socketRef (handleLogout confirmed st) = socketRef st
  ∧ status_log (handleLogout confirmed st) = status_log st
  ∧ connectionStatus (handleLogout confirmed st) = connectionStatus st
  ∧ timers (handleLogout confirmed st) = timers st
  ∧ next_timer (handleLogout confirmed st) = next_timer st
  ∧ typingTimeoutRef (handleLogout confirmed st) = typingTimeoutRef st.
Proof.
  unfold handleLogout. destruct confirmed; [|done].
  cbn [clearAuthData set_currentUser set_localStorage set_selectedUser
       set_messages set_users socketRef].
  destruct (socketRef st) eqn:Hs; cbn; rewrite ?Hs; done.
Qed.

Lemma on_socket_event_status (env : Browser) (sock : Socket) (ev : SocketEvent)
    (st : AppState) :
  socketRef st = Some sock →
  socketRef (on_socket_event env ev st) = Some sock
  ∧ status_log (on_socket_event env ev st)
    = (status_log st ++ option_list (status_written ev))%list.
Proof.
  intros Hs. unfold on_socket_event. rewrite Hs.
  destruct ev; cbn; try (by rewrite ?app_nil_r).
  - unfold on_connect_error. destruct (is_auth_failure error); [|done].
    pose proof (handleLogout_frame (confirm_answer env)
                  (setConnectionStatus ConnError st)) as (H1 & H2 & _).
    cbn. by rewrite H1, H2.
  - unfold on_message.
    destruct (document_hidden env), (notification_supported env),
      (notification_permission env); cbn; by rewrite ?app_nil_r.
  - unfold on_error. destruct message as [m|]; [|by rewrite app_nil_r].
    destruct (_ && _); cbn; by rewrite app_nil_r.
Qed.

Lemma run_events_status (env : Browser) (sock : Socket) (evs : list SocketEvent)
    (st : AppState) :
  socketRef st = Some sock →
  socketRef (run_events env evs st) = Some sock
  ∧ status_log (run_events env evs st)
    = (status_log st ++ omap status_written evs)%list.
Proof.
  revert st. induction evs as [|ev evs IH]; intros st Hs.
  - cbn. by rewrite app_nil_r.
  - cbn [run_events fold_left].
    destruct (on_socket_event_status env sock ev st Hs) as [Hs' Hlog].
    destruct (IH _ Hs') as [Hs'' Hlog']. split; [exact Hs''|].
    unfold run_events in Hlog'. rewrite Hlog', Hlog, <- app_assoc. f_equal.
    cbn [omap list_omap]. by destruct (status_written ev).
Qed.

Lemma counters_of_written (evs : list SocketEvent) :
  reconnect_counters (omap status_written evs) = delivered_attempts evs.
Proof.
  unfold reconnect_counters, delivered_attempts.
  induction evs as [|ev evs IH]; [done|].
  destruct ev; cbn; rewrite ?IH; done.
Qed.

Lemma failed_of_written (evs : list SocketEvent) :
  failed_transitions (omap status_written evs) = reconnect_failed_events evs.
Proof.
  unfold failed_transitions, reconnect_failed_events.
  induction evs as [|ev evs IH]; [done|].
  destruct ev; cbn [omap list_omap status_written is_reconnect_failed];
    rewrite ?filter_cons; cbn [is_reconnect_failed];
    repeat case_decide; try done; cbn [length]; by rewrite ?IH.
Qed.

(** What the bodies of the two reconnection listeners do when they are
    called: on a freshly opened socket they copy each attempt number into
    the state, next to the fixed text ["/5"], and enter [failed] once per
    [reconnect_failed] event. *)
Lemma reconnect_listener_bodies (env : Browser) (token : string)
    (evs : list SocketEvent) (st0 : AppState) :
  status_log st0 = [] →
  let st := run_events env evs (initializeSocket token st0) in
  status_log st = Connecting :: omap status_written evs
  ∧ reconnect_counters (status_log st) = delivered_attempts evs
  ∧ failed_transitions (status_log st) = reconnect_failed_events evs.
Proof.
  intros Hlog st.
  destruct (run_events_status env (mkSocket token (selectedUser st0)) evs
              (initializeSocket token st0)) as [_ Hst]; [done|].
  fold st in Hst.
  assert (status_log st = (Connecting :: omap status_written evs)) as Hst'.
  { rewrite Hst. unfold initializeSocket, initializeSocket_in. cbn.
    by rewrite Hlog. }
  split; [done|]. rewrite Hst'. split.
  - cbn -[status_written]. apply counters_of_written.
  - unfold failed_transitions. rewrite filter_cons.
    case_decide; [done|]. apply failed_of_written.
Qed.

Lemma delivered_attempts_none (evs : list SocketEvent) :
  Forall (fun ev => delivered_to_socket ev = true) evs →
  delivered_attempts evs = [] ∧ reconnect_failed_events evs = 0%nat.
Proof.
  unfold delivered_attempts, reconnect_failed_events.
  induction 1 as [|ev evs Hev _ [IH1 IH2]]; [done|].
  destruct ev; cbn in Hev; try done;
    cbn [omap list_omap]; rewrite ?filter_cons; cbn [is_reconnect_failed];
    rewrite ?IH1; case_decide; done.
Qed.

(** The status cell holds the value written last. *)
Lemma on_socket_event_last_status (env : Browser) (ev : SocketEvent)
    (st : AppState) :
  last (status_log st) = Some (connectionStatus st) →
  last (status_log (on_socket_event env ev st))
  = Some (connectionStatus (on_socket_event env ev st)).
Proof.
  intros Hlast. unfold on_socket_event. destruct (socketRef st) as [sock|]; [|done].
  destruct ev; cbn; rewrite ?last_snoc; try done.
  - unfold on_connect_error. destruct (is_auth_failure error).
    + pose proof (handleLogout_frame (confirm_answer env)
                    (setConnectionStatus ConnError st)) as (_ & H2 & H3 & _).
      cbn. rewrite H2, H3. cbn. by rewrite last_snoc.
    + cbn. by rewrite last_snoc.
  - unfold on_message.
    by destruct (document_hidden env), (notification_supported env),
      (notification_permission env).
  - unfold on_error. destruct message as [m|]; [|done]. by destruct (_ && _).
Qed.

Lemma run_events_last_status (env : Browser) (evs : list SocketEvent)
    (st : AppState) :
  last (status_log st) = Some (connectionStatus st) →
  last (status_log (run_events env evs st))
  = Some (connectionStatus (run_events env evs st)).
Proof.
  revert st. induction evs as [|ev evs IH]; intros st Hlast; [done|].
  cbn [run_events fold_left]. by apply IH, on_socket_event_last_status.
Qed.

(** C5.  The claim does not hold of the code.  The reconnection counter
    and the [failed] state are written only by the listeners that
    [initializeSocket] registers on the socket for [reconnect_attempt] and
    [reconnect_failed], and the socket never delivers these two events.  So
    over every trace of events the socket does deliver, the status never
    carries an attempt counter and never becomes [failed]: using up the
    retry budget produces no transition to [failed] at all, where the claim
    says exactly one. *)
Theorem reconnect_listeners_never_run (env : Browser) (token : string)
    (evs : list SocketEvent) (st0 : AppState) :
  status_log st0 = [] →
  Forall (fun ev => delivered_to_socket ev = true) evs →
  let st := run_events env evs (initializeSocket token st0) in
  reconnect_counters (status_log st) = []
  ∧ failed_transitions (status_log st) = 0%nat
  ∧ connectionStatus st ≠ Failed
  ∧ ∀ n, connectionStatus st ≠ Reconnecting n.
Proof.
  intros Hlog Hevs st.
  destruct (reconnect_listener_bodies env token evs st0 Hlog) as (_ & Hc & Hf).
  destruct (delivered_attempts_none evs Hevs) as [Ha Hr].
  fold st in Hc, Hf. rewrite Ha in Hc. rewrite Hr in Hf.
  assert (last (status_log st) = Some (connectionStatus st)) as Hlast.
  { apply run_events_last_status. cbn. by rewrite last_snoc. }
  assert (connectionStatus st ∈ status_log st) as Hin.
  { destruct (status_log st) as [|s0 log] using rev_ind; [done|].
    rewrite last_snoc in Hlast. injection Hlast as <-.
    apply elem_of_app. right. by apply list_elem_of_singleton. }
  split; [done|]. split; [done|]. split.
  - intros Hfailed. rewrite Hfailed in Hin.
    unfold failed_transitions in Hf.
    apply length_zero_iff_nil in Hf.
    assert (Failed ∈ filter (fun s => s = Failed) (status_log st)) as Hin'
      by by apply list_elem_of_filter.
    rewrite Hf in Hin'. by apply elem_of_nil in Hin'.
  - intros n Hn. rewrite Hn in Hin. unfold reconnect_counters in Hc.
    assert (n ∈ omap (fun s => match s with Reconnecting k => Some k | _ => None end)
                  (status_log st)) as Hin'.
    { apply list_elem_of_omap. exists (Reconnecting n). done. }
    rewrite Hc in Hin'. by apply elem_of_nil in Hin'.
Qed.

(** The outage on a socket opened at startup: the status ends as [error]
    after five connection errors, and [failed] is never entered. *)
Lemma reconnect_listeners_never_run_witness :
  let st := run_events demo_env outage (initializeSocket "t1" (mount demo_storage)) in
  status_log st
  = [Connecting; Connected; Disconnected; ConnError; ConnError; ConnError;
     ConnError; ConnError]
  ∧ connectionStatus st = ConnError
  ∧ reconnect_counters (status_log st) = []
  ∧ failed_transitions (status_log st) = 0%nat
  ∧ connectionStatus st ≠ Failed.
Proof.
  intros st.
  destruct (reconnect_listeners_never_run demo_env "t1" outage (mount demo_storage))
    as (Hc & Hf & Hnot & _).
  - reflexivity.
  - unfold outage. repeat constructor.
  - fold st in Hc, Hf, Hnot.
    split; [vm_compute; reflexivity|]. split; [vm_compute; reflexivity|]. done.
Defined.

(** ** Desktop notification for an incoming message *)

Lemma string_length_append (a b : string) :
  String.length (a ++ b) = (String.length a + String.length b)%nat.
Proof. induction a as [|c a IH]; simpl; [done | by rewrite IH]. Qed.

Lemma substring0_length (n : nat) (s : string) :
  (n ≤ String.length s)%nat → String.length (Js.substring0 n s) = n.
Proof.
  unfold Js.substring0. revert s. induction n as [|n IH]; intros s Hn.
  - by destruct s.
  - destruct s as [|c s]; cbn in *; [lia|]. rewrite IH; [done | lia].
Qed.

Lemma substring0_prefix (n : nat) (s : string) :
  String.prefix (Js.substring0 n s) s = true.
Proof.
  unfold Js.substring0. revert s. induction n as [|n IH]; intros s.
  - by destruct s.
  - destruct s as [|c s]; cbn; [done|].
    destruct (ascii_dec c c); [apply IH | done].
Qed.

Lemma notification_body_spec (text : string) :
  ((String.length text ≤ 50)%nat ∧ notification_body text = text)
  ∨ ((50 < String.length text)%nat
     ∧ notification_body text = Js.substring0 50 text ++ "..."
     ∧ String.length (Js.substring0 50 text) = 50%nat
     ∧ String.prefix (Js.substring0 50 text) text = true
     ∧ String.length (notification_body text) = 53%nat).
Proof.
  unfold notification_body.
  destruct (50 <? String.length text)%nat eqn:Hlen.
  - apply Nat.ltb_lt in Hlen. right.
    pose proof (substring0_length 50 text ltac:(lia)) as H50.
    repeat split; try done.
    + apply substring0_prefix.
    + rewrite string_length_append, H50. reflexivity.
  - apply Nat.ltb_ge in Hlen. by left.
Qed.

(** C9 fails as stated: bob sends 51 characters while the page is hidden
    and notifications are allowed; the body shown has 53 characters, and
    the title names nobody, since the listener reads the [selectedUser] it
    captured when the socket was opened. *)
Lemma notification_body_exceeds_50 :
  let text := "123456789012345678901234567890123456789012345678901" in
  let message := mkMessage (inl 77%Z) text (user_id bob) "2025-01-01T00:00:00.000Z" false false in
  let st := on_socket_event demo_env (EvMessage message) chat_ready in
  notifies demo_env = true
  ∧ String.length text = 51%nat
  ∧ effects st
    = (effects chat_ready
       ++ [ShowNotification "New message from Someone"
             "12345678901234567890123456789012345678901234567890..."])%list
  ∧ ¬ (String.length "12345678901234567890123456789012345678901234567890..." ≤ 50)%nat
  ∧ Js.includes (username bob) "New message from Someone" = false.
Proof.
  vm_compute. repeat split; try reflexivity. intros H.
  repeat (apply le_S_n in H). inversion H.
Qed.

(** C9, as the code has it.  For an incoming message on a socket with
    listeners, the message is appended as a received one.  When the page is
    hidden, the Notification interface exists and permission is granted,
    exactly one notification is shown: its body is the text itself when
    that has at most 50 characters, and otherwise its first 50 characters
    followed by three dots (53 characters).  When any of the three
    conditions fails, no effect is performed. *)
Theorem message_notification (env : Browser) (sock : Socket)
    (message : Message) (st : AppState) :
  socketRef st = Some sock →
  let st' := on_socket_event env (EvMessage message) st in
  messages st' = (messages st ++ [as_received message])%list
  ∧ (notifies env = true →
     ∃ title body,
       effects st' = (effects st ++ [ShowNotification title body])%list
       ∧ body = notification_body (content message)
       ∧ (((String.length (content message) ≤ 50)%nat ∧ body = content message)
          ∨ ((50 < String.length (content message))%nat
             ∧ body = Js.substring0 50 (content message) ++ "..."
             ∧ String.length (Js.substring0 50 (content message)) = 50%nat
             ∧ String.prefix (Js.substring0 50 (content message)) (content message) = true
             ∧ String.length body = 53%nat)))
  ∧ (notifies env = false → effects st' = effects st).
Proof.
  intros Hs. unfold on_socket_event, on_message, notifies. rewrite Hs.
  destruct (document_hidden env), (notification_supported env),
    (notification_permission env); cbn;
    (split; [done|]); (split; [|done]); try done.
  intros _. eexists _, _. split; [reflexivity|]. split; [reflexivity|].
  apply notification_body_spec.
Qed.

Lemma message_notification_witness :
  let message := mkMessage (inl 78%Z) "see you at five" (user_id bob)
                   "2025-01-01T00:00:00.000Z" false false in
  let st' := on_socket_event demo_env (EvMessage message) chat_ready in
  messages st' = (messages chat_ready ++ [as_received message])%list
  ∧ (∃ title body,
       effects st' = (effects chat_ready ++ [ShowNotification title body])%list
       ∧ body = "see you at five")
  ∧ effects (on_socket_event (mkBrowser false true PermGranted false)
               (EvMessage message) chat_ready)
    = effects chat_ready.
Proof.
  intros message st'.
  destruct (message_notification demo_env (mkSocket "t1" None) message chat_ready)
    as (Hmsg & Hshow & _); [reflexivity|].
  destruct (message_notification (mkBrowser false true PermGranted false)
              (mkSocket "t1" None) message chat_ready)
    as (_ & _ & Hquiet); [reflexivity|].
  split; [exact Hmsg|]. split.
  - destruct (Hshow eq_refl) as (title & body & Heff & Hbody & _).
    exists title, body. split; [exact Heff|]. rewrite Hbody. reflexivity.
  - apply Hquiet. reflexivity.
Defined.

(** ** The life of an optimistic message *)

Lemma timers_wf_mount (storage : gmap string string) : timers_wf (mount storage).
Proof.
  split; cbn.
  - constructor.
  - constructor.
  - discriminate.
  - intros t Ht. by apply elem_of_nil in Ht.
Qed.

Lemma same_upto_pending_refl (l : list Message) : Forall2 same_upto_pending l l.
Proof. induction l; constructor; [by repeat split | done]. Qed.

Lemma same_upto_pending_trans (l1 l2 l3 : list Message) :
  Forall2 same_upto_pending l1 l2 → Forall2 same_upto_pending l2 l3 →
  Forall2 same_upto_pending l1 l3.
Proof.
  intros H12. revert l3. induction H12 as [|a b l1 l2 Hab _ IH]; intros l3 H23.
  - inversion H23. constructor.
  - inversion H23 as [|? c ? l3' Hbc H23']; subst. constructor; [|by apply IH].
    destruct Hab as (?&?&?&?&?), Hbc as (?&?&?&?&?). repeat split; congruence.
Qed.

Lemma mark_delivered_same (id : JsId) (l : list Message) :
  Forall2 same_upto_pending l (map (mark_delivered id) l).
Proof.
  induction l as [|m l IH]; cbn; constructor; [|done].
  unfold mark_delivered. case_decide; by repeat split.
Qed.

Lemma mark_delivered_delivers (id : JsId) (l : list Message) :
  delivered id (map (mark_delivered id) l).
Proof.
  intros m Hm Hid. apply list_elem_of_fmap in Hm as (m0 & -> & _).
  unfold mark_delivered in *. case_decide; [done|]. done.
Qed.

Lemma mark_delivered_keeps (id id' : JsId) (l : list Message) :
  delivered id l → delivered id (map (mark_delivered id') l).
Proof.
  intros Hd m Hm Hid. apply list_elem_of_fmap in Hm as (m0 & -> & Hm0).
  unfold mark_delivered in *. case_decide; [done|]. by apply Hd.
Qed.

(** *** What a callback changes *)

Lemma handleTypingStop_in_frame (sel : option User) (typing : bool) (st : AppState) :
  let st' := handleTypingStop_in sel typing st in
  messages st' = messages st
  ∧ next_timer st' = next_timer st
  ∧ typingTimeoutRef st' = typingTimeoutRef st
  ∧ currentUser st' = currentUser st
  ∧ (timers st' = timers st
     ∨ ∃ k, typingTimeoutRef st = Some k
            ∧ timers st' = filter (fun t => timer_id t ≠ k) (timers st)).
Proof.
  unfold handleTypingStop_in.
  destruct sel as [u|]; [|by repeat split; try left].
  destruct (socketRef st) as [sock|]; [|by repeat split; try left].
  destruct typing; [|by repeat split; try left].
  destruct (typingTimeoutRef st) as [k|] eqn:Hk; cbn; rewrite Hk; cbn.
  - repeat split; try done. right. by exists k.
  - repeat split; try done. by left.
Qed.

Lemma run_callback_frame (cb : Callback) (st : AppState) :
  let st' := run_callback cb st in
  next_timer st' = next_timer st
  ∧ typingTimeoutRef st' = typingTimeoutRef st
  ∧ Forall2 same_upto_pending (messages st) (messages st')
  ∧ (∀ id, delivered id (messages st) → delivered id (messages st'))
  ∧ (timers st' = timers st
     ∨ ∃ k, typingTimeoutRef st = Some k
            ∧ timers st' = filter (fun t => timer_id t ≠ k) (timers st)).
Proof.
  destruct cb as [sel typing | id]; cbn [run_callback].
  - destruct (handleTypingStop_in_frame sel typing st) as (Hm & Hn & Hr & _ & Ht).
    cbn zeta. rewrite Hm, Hn, Hr. repeat split; try done.
    apply same_upto_pending_refl.
  - cbn. repeat split; try by left.
    + apply mark_delivered_same.
    + intros id'. apply mark_delivered_keeps.
Qed.

(** *** Timers firing *)

Lemma nodup_ids_filter (P : Timer → Prop) `{!∀ t, Decision (P t)} (ts : list Timer) :
  NoDup (map timer_id ts) → NoDup (map timer_id (filter P ts)).
Proof.
  induction ts as [|a ts IH]; [done|]. cbn [map]. rewrite NoDup_cons.
  intros [Hnotin Hnd]. rewrite filter_cons. case_decide; [|by apply IH].
  cbn [map]. apply NoDup_cons. split; [|by apply IH].
  intros Hin. apply Hnotin. apply list_elem_of_fmap in Hin as (t & Hid & Ht).
  apply list_elem_of_filter in Ht as [_ Ht]. apply list_elem_of_fmap. eauto.
Qed.

Lemma same_id_same_timer (ts : list Timer) (a b : Timer) :
  NoDup (map timer_id ts) → a ∈ ts → b ∈ ts → timer_id a = timer_id b → a = b.
Proof.
  induction ts as [|c ts IH]; intros Hnd Ha Hb Hid.
  - by apply elem_of_nil in Ha.
  - cbn [map] in Hnd. apply NoDup_cons in Hnd as [Hnotin Hnd].
    apply elem_of_cons in Ha as [->|Ha]; apply elem_of_cons in Hb as [->|Hb].
    + done.
    + exfalso. apply Hnotin. rewrite Hid. apply list_elem_of_fmap. eauto.
    + exfalso. apply Hnotin. rewrite <- Hid. apply list_elem_of_fmap. eauto.
    + by apply IH.
Qed.

Lemma find_by_id (ts : list Timer) (tm : Timer) :
  NoDup (map timer_id ts) → tm ∈ ts →
  List.find (fun t => bool_decide (timer_id t = timer_id tm)) ts = Some tm.
Proof.
  induction ts as [|c ts IH]; intros Hnd Hin.
  - by apply elem_of_nil in Hin.
  - cbn [List.find]. destruct (bool_decide_reflect (timer_id c = timer_id tm)) as [Heq|Hne].
    + f_equal. apply (same_id_same_timer (c :: ts)); try done.
      apply elem_of_cons. by left.
    + apply elem_of_cons in Hin as [->|Hin]; [done|].
      cbn [map] in Hnd. apply NoDup_cons in Hnd as [_ Hnd]. by apply IH.
Qed.

Lemma fire_found (st : AppState) (tm : Timer) :
  NoDup (map timer_id (timers st)) → tm ∈ timers st →
  fire (timer_id tm) st
  = run_callback (callback tm)
      (set_timers (filter (fun t' => timer_id t' ≠ timer_id tm) (timers st)) st).
Proof. intros Hnd Hin. unfold fire. by rewrite find_by_id. Qed.

Lemma fire_frame (tid : N) (st : AppState) :
  NoDup (map timer_id (timers st)) →
  let st' := fire tid st in
  typingTimeoutRef st' = typingTimeoutRef st
  ∧ Forall2 same_upto_pending (messages st) (messages st')
  ∧ (∀ id, delivered id (messages st) → delivered id (messages st'))
  ∧ NoDup (map timer_id (timers st'))
  ∧ (∀ t, t ∈ timers st' → t ∈ timers st ∧ timer_id t ≠ tid)
  ∧ (∀ t0, t0 ∈ timers st → timer_id t0 ≠ tid →
       typingTimeoutRef st ≠ Some (timer_id t0) → t0 ∈ timers st').
Proof.
  intros Hnd. unfold fire.
  destruct (List.find _ _) as [tm|] eqn:Hfind.
  - set (st0 := set_timers (filter (fun t' => timer_id t' ≠ tid) (timers st)) st).
    destruct (run_callback_frame (callback tm) st0) as (_ & Hr & Hm & Hd & Ht).
    cbn zeta. rewrite Hr. split; [done|]. split; [done|]. split; [done|].
    assert (timers st0 = filter (fun t' => timer_id t' ≠ tid) (timers st)) as Hst0
      by done.
    assert (typingTimeoutRef st0 = typingTimeoutRef st) as Href by done.
    destruct Ht as [Ht | (k & Hk & Ht)]; rewrite Ht, Hst0.
    + split; [by apply nodup_ids_filter|]. split.
      * intros t Hin. apply list_elem_of_filter in Hin as [? ?]. done.
      * intros t0 Hin Hne _. apply list_elem_of_filter. done.
    + split; [by do 2 apply nodup_ids_filter|]. split.
      * intros t Hin. apply list_elem_of_filter in Hin as [_ Hin].
        apply list_elem_of_filter in Hin as [? ?]. done.
      * intros t0 Hin Hne Hnoref. apply list_elem_of_filter. split.
        -- intros Heq. apply Hnoref. rewrite <- Href, Hk. by rewrite Heq.
        -- apply list_elem_of_filter. done.
  - cbn zeta. split; [done|]. split; [apply same_upto_pending_refl|].
    split; [done|]. split; [done|]. split; [|done].
    intros t Hin. split; [done|]. intros Heq.
    apply list_elem_of_In in Hin.
    pose proof (List.find_none _ _ Hfind t Hin) as Hnone. cbn in Hnone.
    by rewrite bool_decide_eq_true_2 in Hnone.
Qed.

Lemma earliest_spec (ts : list Timer) :
  match earliest ts with
  | Some tm => tm ∈ ts ∧ ∀ t, t ∈ ts → (due tm ≤ due t)%Z
  | None => ts = []
  end.
Proof.
  induction ts as [|a ts IH]; [done|]. cbn [earliest].
  destruct (earliest ts) as [tm|].
  - destruct IH as [Hin Hmin]. destruct (due tm <? due a)%Z eqn:Hlt.
    + apply Z.ltb_lt in Hlt. split; [apply elem_of_cons; by right|].
      intros t Ht. apply elem_of_cons in Ht as [->|Ht]; [lia | by apply Hmin].
    + apply Z.ltb_ge in Hlt. split; [apply elem_of_cons; by left|].
      intros t Ht. apply elem_of_cons in Ht as [->|Ht]; [lia|].
      specialize (Hmin t Ht). lia.
  - subst ts. split; [apply elem_of_cons; by left|].
    intros t Ht. apply elem_of_cons in Ht as [->|Ht]; [lia|].
    by apply elem_of_nil in Ht.
Qed.

Lemma run_until_frame (fuel : nat) (t : Z) (st : AppState) :
  NoDup (map timer_id (timers st)) →
  Forall2 same_upto_pending (messages st) (messages (run_until fuel t st))
  ∧ ∀ id, delivered id (messages st) →
          delivered id (messages (run_until fuel t st)).
Proof.
  revert st. induction fuel as [|fuel IH]; intros st Hnd.
  - cbn. split; [apply same_upto_pending_refl | done].
  - cbn [run_until]. destruct (earliest (timers st)) as [tm|].
    + destruct (due tm <=? t)%Z.
      * destruct (fire_frame (timer_id tm) st Hnd) as (_ & Hm & Hd & Hnd' & _).
        destruct (IH _ Hnd') as [Hm' Hd']. split.
        -- by eapply same_upto_pending_trans.
        -- intros id Hid. by apply Hd', Hd.
      * split; [apply same_upto_pending_refl | done].
    + split; [apply same_upto_pending_refl | done].
Qed.

(** A pending delivery timer that is due by [t] has run once the clock
    reaches [t]. *)
Lemma run_until_delivers (fuel : nat) (t : Z) (st : AppState) (t0 : Timer)
    (id : JsId) :
  NoDup (map timer_id (timers st)) →
  (∀ tm, tm ∈ timers st → typingTimeoutRef st = Some (timer_id tm) →
         is_typing_callback (callback tm)) →
  t0 ∈ timers st → callback t0 = MarkDeliveredCallback id → (due t0 ≤ t)%Z →
  (length (timers st) ≤ fuel)%nat →
  delivered id (messages (run_until fuel t st)).
Proof.
  revert st. induction fuel as [|fuel IH]; intros st Hnd Href Hin Hcb Hdue Hlen.
  - destruct (timers st); [by apply elem_of_nil in Hin | cbn in Hlen; lia].
  - cbn [run_until]. pose proof (earliest_spec (timers st)) as Hearly.
    destruct (earliest (timers st)) as [tm|];
      [|rewrite Hearly in Hin; by apply elem_of_nil in Hin].
    destruct Hearly as [Htm Hmin]. specialize (Hmin t0 Hin).
    destruct (due tm <=? t)%Z eqn:Hle; [|apply Z.leb_gt in Hle; lia].
    destruct (fire_frame (timer_id tm) st Hnd)
      as (Hr & _ & _ & Hnd' & Hsub & Hsurv).
    destruct (decide (timer_id tm = timer_id t0)) as [Heq|Hne].
    + assert (tm = t0) as -> by by apply (same_id_same_timer (timers st)).
      apply run_until_frame; [done|].
      rewrite fire_found by done. rewrite Hcb. cbn.
      apply mark_delivered_delivers.
    + apply (IH _ Hnd').
      * intros tm' Hin' Hk. destruct (Hsub tm' Hin') as [Hin'' _].
        apply Href; [done|]. by rewrite <- Hr.
      * apply Hsurv; [done | congruence |].
        intros Hk. specialize (Href t0 Hin Hk). by rewrite Hcb in Href.
      * done.
      * done.
      * assert (length (timers (fire (timer_id tm) st)) < length (timers st))%nat;
          [|lia].
        assert (NoDup (timers st)) as Hnd0 by by eapply NoDup_fmap_1.
        assert (NoDup (timers (fire (timer_id tm) st))) as Hnd1
          by by eapply NoDup_fmap_1.
        assert (length (tm :: timers (fire (timer_id tm) st))
                ≤ length (timers st))%nat as Hcount; [|cbn in Hcount; lia].
        apply submseteq_length, NoDup_submseteq.
        -- apply NoDup_cons. split; [|done]. intros Hin'.
           by destruct (Hsub tm Hin') as [_ ?].
        -- intros x Hx. apply elem_of_cons in Hx as [->|Hx]; [done|].
           by destruct (Hsub x Hx).
Qed.

(** *** The timer invariant is kept *)

Lemma timers_wf_filter (P : Timer → Prop) `{!∀ t, Decision (P t)}
    (st st' : AppState) :
  timers_wf st →
  timers st' = filter P (timers st) →
  next_timer st' = next_timer st →
  typingTimeoutRef st' = typingTimeoutRef st →
  timers_wf st'.
Proof.
  intros [Hnd Hfresh Hrf Hrt] Ht Hn Hr. split; rewrite ?Ht, ?Hn, ?Hr.
  - by apply nodup_ids_filter.
  - apply Forall_forall. intros t Hin. apply list_elem_of_filter in Hin as [_ Hin].
    by eapply Forall_forall in Hfresh.
  - done.
  - intros t Hin. apply list_elem_of_filter in Hin as [_ Hin]. by apply Hrt.
Qed.

Lemma timers_wf_same (st st' : AppState) :
  timers_wf st →
  timers st' = timers st →
  next_timer st' = next_timer st →
  typingTimeoutRef st' = typingTimeoutRef st →
  timers_wf st'.
Proof.
  intros [Hnd Hfresh Hrf Hrt] Ht Hn Hr. split; rewrite ?Ht, ?Hn, ?Hr; done.
Qed.

Lemma timers_wf_schedule (st st' : AppState) (d : Z) (cb : Callback) :
  timers_wf st →
  timers st' = (timers st ++ [mkTimer (next_timer st) d cb])%list →
  next_timer st' = (next_timer st + 1)%N →
  typingTimeoutRef st' = typingTimeoutRef st
  ∨ (typingTimeoutRef st' = Some (next_timer st) ∧ is_typing_callback cb) →
  timers_wf st'.
Proof.
  intros [Hnd Hfresh Hrf Hrt] Ht Hn Hr.
  assert (∀ t, t ∈ timers st → timer_id t ≠ next_timer st) as Hold.
  { intros t Hin. eapply Forall_forall in Hfresh; [|done]. cbn in Hfresh. lia. }
  split; rewrite ?Ht, ?Hn.
  - rewrite map_app. cbn [map]. apply NoDup_app. split; [done|]. split.
    + intros x Hx Hx'. apply list_elem_of_fmap in Hx as (t & -> & Hin).
      apply list_elem_of_singleton in Hx'. by apply (Hold t).
    + apply NoDup_singleton.
  - apply Forall_app. split.
    + eapply Forall_impl; [done|]. cbn. intros; lia.
    + constructor; [cbn; lia | constructor].
  - intros k Hk. destruct Hr as [Hr | [Hr _]]; rewrite Hr in Hk.
    + specialize (Hrf k Hk). lia.
    + injection Hk as <-. lia.
  - intros t Hin Hk. apply elem_of_app in Hin as [Hin|Hin].
    + destruct Hr as [Hr | [Hr _]]; rewrite Hr in Hk.
      * by apply Hrt.
      * injection Hk as Hk. by destruct (Hold t Hin).
    + apply list_elem_of_singleton in Hin as ->. cbn in *.
      destruct Hr as [Hr | [_ Hcb]]; [|done].
      rewrite Hr in Hk. specialize (Hrf _ Hk). lia.
Qed.

Lemma handleTypingStop_in_wf (sel : option User) (typing : bool) (st : AppState) :
  timers_wf st → timers_wf (handleTypingStop_in sel typing st).
Proof.
  intros Hwf.
  destruct (handleTypingStop_in_frame sel typing st)
    as (_ & Hn & Hr & _ & [Ht | (k & _ & Ht)]).
  - by eapply timers_wf_same.
  - by eapply timers_wf_filter.
Qed.

Lemma handleTypingStart_wf (now : Z) (st : AppState) :
  timers_wf st → timers_wf (handleTypingStart now st).
Proof.
  intros Hwf. unfold handleTypingStart.
  destruct (selectedUser st) as [u|]; [|done].
  destruct (socketRef st) as [sock|]; [|done].
  destruct (isTyping st); [done|].
  set (st3 := clearTimeout _ _).
  assert (timers_wf st3) as Hwf3.
  { subst st3. destruct (typingTimeoutRef st) as [k|] eqn:Hk; cbn; rewrite Hk.
    - by eapply (timers_wf_filter (fun t => timer_id t ≠ k) st).
    - by eapply timers_wf_same. }
  eapply (timers_wf_schedule st3); [done | reflexivity | reflexivity |].
  right. done.
Qed.

Lemma fire_wf (tid : N) (st : AppState) : timers_wf st → timers_wf (fire tid st).
Proof.
  intros Hwf. unfold fire. destruct (List.find _ _) as [tm|]; [|done].
  set (st0 := set_timers _ st).
  assert (timers_wf st0) as Hwf0
    by by eapply (timers_wf_filter (fun t' => timer_id t' ≠ tid) st).
  destruct (run_callback_frame (callback tm) st0)
    as (Hn & Hr & _ & _ & [Ht | (k & _ & Ht)]).
  - by eapply timers_wf_same.
  - by eapply timers_wf_filter.
Qed.

Lemma on_socket_event_timers (env : Browser) (ev : SocketEvent) (st : AppState) :
  let st' := on_socket_event env ev st in
  timers st' = timers st
  ∧ next_timer st' = next_timer st
  ∧ typingTimeoutRef st' = typingTimeoutRef st.
Proof.
  unfold on_socket_event. destruct (socketRef st) as [sock|]; [|done].
  destruct ev; cbn; try done.
  - unfold on_connect_error. destruct (is_auth_failure error); [|done].
    pose proof (handleLogout_frame (confirm_answer env)
                  (setConnectionStatus ConnError st)) as (_ & _ & _ & H1 & H2 & H3).
    cbn. by rewrite H1, H2, H3.
  - unfold on_message.
    by destruct (document_hidden env), (notification_supported env),
      (notification_permission env).
  - unfold on_error. destruct message as [m|]; [|done]. by destruct (_ && _).
Qed.

Lemma on_socket_event_wf (env : Browser) (ev : SocketEvent) (st : AppState) :
  timers_wf st → timers_wf (on_socket_event env ev st).
Proof.
  intros Hwf. destruct (on_socket_event_timers env ev st) as (? & ? & ?).
  by eapply timers_wf_same.
Qed.

Lemma on_socket_event_messages (env : Browser) (sock : Socket)
    (ev : SocketEvent) (st : AppState) :
  socketRef st = Some sock →
  keeps_conversation env ev = true →
  messages (on_socket_event env ev st) = (messages st ++ received [ev])%list.
Proof.
  intros Hs Hkeep. unfold on_socket_event. rewrite Hs.
  destruct ev; cbn; rewrite ?app_nil_r; try done.
  - unfold on_connect_error. cbn in Hkeep.
    destruct (is_auth_failure error); [|done].
    destruct (confirm_answer env); [done|]. done.
  - unfold on_message.
    by destruct (document_hidden env), (notification_supported env),
      (notification_permission env).
  - unfold on_error. destruct message as [m|]; [|done]. by destruct (_ && _).
Qed.

Lemma run_events_frame (env : Browser) (sock : Socket) (evs : list SocketEvent)
    (st : AppState) :
  socketRef st = Some sock →
  Forall (fun ev => keeps_conversation env ev = true) evs →
  let st' := run_events env evs st in
  messages st' = (messages st ++ received evs)%list
  ∧ timers st' = timers st
  ∧ next_timer st' = next_timer st
  ∧ typingTimeoutRef st' = typingTimeoutRef st.
Proof.
  intros Hs Hkeep. revert st Hs.
  induction Hkeep as [|ev evs Hev _ IH]; intros st Hs.
  - cbn. by rewrite app_nil_r.
  - cbn [run_events fold_left].
    destruct (on_socket_event_status env sock ev st Hs) as [Hs' _].
    destruct (on_socket_event_timers env ev st) as (Ht & Hn & Hr).
    destruct (IH _ Hs') as (Hm' & Ht' & Hn' & Hr'). unfold run_events in *.
    cbn zeta. rewrite Hm', Ht', Hn', Hr', Ht, Hn, Hr.
    rewrite (on_socket_event_messages env sock) by done.
    rewrite <- app_assoc. repeat split. f_equal.
    unfold received. cbn [omap list_omap]. by destruct ev.
Qed.

Lemma run_until_wf (fuel : nat) (t : Z) (st : AppState) :
  timers_wf st → timers_wf (run_until fuel t st).
Proof.
  revert st. induction fuel as [|fuel IH]; intros st Hwf; [done|].
  cbn [run_until]. destruct (earliest (timers st)) as [tm|]; [|done].
  destruct (due tm <=? t)%Z; [|done]. by apply IH, fire_wf.
Qed.

Lemma handleInputChange_wf (now : Z) (value : string) (st : AppState) :
  timers_wf st → timers_wf (handleInputChange now value st).
Proof.
  intros Hwf. unfold handleInputChange.
  assert (timers_wf (set_newMessage value st)) as Hwf' by by eapply timers_wf_same.
  destruct (Js.truthy _).
  - by apply handleTypingStart_wf.
  - by apply handleTypingStop_in_wf.
Qed.

(** *** The two paths of [sendMessage] *)

Section SendPaths.

Variables (now : Z) (iso : string) (st : AppState) (sel me : User) (sock : Socket).
Hypothesis Htext : Js.truthy (Js.trim (newMessage st)) = true.
Hypothesis Hsel : selectedUser st = Some sel.
Hypothesis Hsock : socketRef st = Some sock.
Hypothesis Hme : currentUser st = Some me.

Let optimistic : Message :=
  mkMessage (inl now) (Js.trim (newMessage st)) (user_id me) iso true true.

Lemma sendMessage_failed :
  let st1 := sendMessage now iso true st in
  messages st1 = filter (fun m => msg_id m ≠ inl now) (messages st)
  ∧ timers st1 = timers (handleTypingStop st)
  ∧ next_timer st1 = next_timer st
  ∧ typingTimeoutRef st1 = typingTimeoutRef st
  ∧ effects st1
    = (effects (handleTypingStop st)
       ++ [Alert "Failed to send message. Please try again."])%list.
Proof.
  unfold sendMessage. rewrite Htext, Hsel, Hsock, Hme.
  destruct (handleTypingStop_in_frame (selectedUser st) (isTyping st) st)
    as (Hm & Hn & Hr & _ & _).
  fold (handleTypingStop st) in Hm, Hn, Hr.
  cbn. rewrite Hm, Hn, Hr. repeat split.
  rewrite filter_app, filter_cons_False by (cbn; tauto).
  by rewrite filter_nil, app_nil_r.
Qed.

Lemma sendMessage_sent :
  let st1 := sendMessage now iso false st in
  messages st1 = (messages st ++ [optimistic])%list
  ∧ timers st1
    = (timers (handleTypingStop st)
       ++ [mkTimer (next_timer st) (now + 1000)
             (MarkDeliveredCallback (inl now))])%list
  ∧ next_timer st1 = (next_timer st + 1)%N
  ∧ typingTimeoutRef st1 = typingTimeoutRef st
  ∧ socketRef st1 = Some sock
  ∧ effects st1
    = (effects (handleTypingStop st)
       ++ [SocketEmit "send_message" (user_id sel)
             (Some (Js.trim (newMessage st)))])%list.
Proof.
  unfold sendMessage. rewrite Htext, Hsel, Hsock, Hme.
  destruct (handleTypingStop_in_frame (selectedUser st) (isTyping st) st)
    as (Hm & Hn & Hr & _ & _).
  fold (handleTypingStop st) in Hm, Hn, Hr.
  assert (socketRef (handleTypingStop st) = Some sock) as Hs.
  { unfold handleTypingStop, handleTypingStop_in. rewrite Hsel, Hsock.
    destruct (isTyping st); [|done].
    destruct (typingTimeoutRef st) as [k|] eqn:Hk; cbn; rewrite Hk; done. }
  cbn. rewrite Hm, Hn, Hr, Hs. done.
Qed.

End SendPaths.

Lemma sendMessage_wf (now : Z) (iso : string) (emit_throws : bool) (st : AppState) :
  timers_wf st → timers_wf (sendMessage now iso emit_throws st).
Proof.
  intros Hwf. pose proof (handleTypingStop_in_wf (selectedUser st) (isTyping st) st Hwf)
    as HwfT. fold (handleTypingStop st) in HwfT.
  destruct (handleTypingStop_in_frame (selectedUser st) (isTyping st) st)
    as (_ & Hn & Hr & _ & _). fold (handleTypingStop st) in Hn, Hr.
  destruct (Js.truthy (Js.trim (newMessage st))) eqn:Htext;
    [|by rewrite sendMessage_guard by by left].
  destruct (selectedUser st) as [sel|] eqn:Hsel;
    [|by rewrite sendMessage_guard by (right; by left)].
  destruct (socketRef st) as [sock|] eqn:Hsock;
    [|by rewrite sendMessage_guard by (right; by right)].
  destruct (currentUser st) as [me|] eqn:Hme.
  - destruct emit_throws.
    + destruct (sendMessage_failed now iso st sel me sock Htext Hsel Hsock Hme)
        as (_ & Ht & Hn' & Hr' & _).
      eapply (timers_wf_same (handleTypingStop st)); [done | done | |];
        congruence.
    + destruct (sendMessage_sent now iso st sel me sock Htext Hsel Hsock Hme)
        as (_ & Ht & Hn' & Hr' & _).
      eapply (timers_wf_schedule (handleTypingStop st)); [done | | |].
      * rewrite Ht, Hn. reflexivity.
      * congruence.
      * left. congruence.
  - unfold sendMessage. by rewrite Htext, Hsel, Hsock, Hme.
Qed.

(** The timer invariant holds in every reachable state, and the handlers
    that do not use timers are steps of the last kind. *)
Lemma reachable_wf (st : AppState) : reachable st → timers_wf st.
Proof.
  induction 1 as [storage | now value st _ IH | now iso emit_throws st _ IH
                 | tid st _ IH | st st' _ IH Ht Hn Hr].
  - apply timers_wf_mount.
  - by apply handleInputChange_wf.
  - by apply sendMessage_wf.
  - by apply fire_wf.
  - by eapply timers_wf_same.
Qed.

Lemma reachable_socket_event (env : Browser) (ev : SocketEvent) (st : AppState) :
  reachable st → reachable (on_socket_event env ev st).
Proof.
  intros Hst. destruct (on_socket_event_timers env ev st) as (? & ? & ?).
  by eapply reach_other.
Qed.

Lemma reachable_logout (confirmed : bool) (st : AppState) :
  reachable st → reachable (handleLogout confirmed st).
Proof.
  intros Hst. destruct (handleLogout_frame confirmed st) as (_ & _ & _ & ? & ? & ?).
  by eapply reach_other.
Qed.

Lemma reachable_startup (JSON_parse : string → option User)
    (JSON_stringify : User → string) (outcome : FetchOutcome) (st : AppState) :
  reachable st → reachable (initializeApp JSON_parse JSON_stringify outcome st).
Proof.
  intros Hst. eapply reach_other; [exact Hst | | |];
    unfold initializeApp;
    destruct (stored "token" st), (stored "userData" st); try done;
    destruct (JSON_parse _); try done;
    destruct outcome as [res|e]; cbn [validateToken];
    repeat (match goal with
            | |- context [if ?b then _ else _] => destruct b
            | |- context [match json_body ?r with _ => _ end] =>
                destruct (json_body r)
            end; try done).
Qed.

Lemma reachable_advance (t : Z) (st : AppState) :
  reachable st → reachable (advance_to t st).
Proof.
  unfold advance_to. generalize (length (timers st)). intros fuel. revert st.
  induction fuel as [|fuel IH]; intros st Hst; [done|].
  cbn [run_until]. destruct (earliest (timers st)) as [tm|]; [|done].
  destruct (due tm <=? t)%Z; [|done]. by apply IH, reach_fire.
Qed.

(** When nothing but socket events that keep the conversation arrive
    before [now + 1000].  If [emit] raises, the message is gone again when
    [sendMessage] returns, the alert is shown, and no timer was scheduled.
    If [emit] returns, the message is appended as pending, one timer is
    scheduled for [now + 1000], and once the clock has reached that time
    the list still holds every message (those from before, the optimistic
    one, those received since), in order and equal up to the pending flag,
    and no message with the optimistic id is pending. *)
Lemma optimistic_message_among_events (env : Browser) (now : Z)
    (iso : string) (emit_throws : bool) (evs : list SocketEvent)
    (st : AppState) (sel me : User) (sock : Socket) :
  timers_wf st →
  Js.truthy (Js.trim (newMessage st)) = true →
  selectedUser st = Some sel →
  socketRef st = Some sock →
  currentUser st = Some me →
  Forall (fun ev => keeps_conversation env ev = true) evs →
  let optimistic :=
    mkMessage (inl now) (Js.trim (newMessage st)) (user_id me) iso true true in
  let st1 := sendMessage now iso emit_throws st in
  let st3 := advance_to (now + 1000) (run_events env evs st1) in
  if emit_throws then
    messages st1 = filter (fun m => msg_id m ≠ inl now) (messages st)
    ∧ (∀ m, m ∈ messages st1 → msg_id m ≠ inl now)
    ∧ timers st1 = timers (handleTypingStop st)
    ∧ effects st1
      = (effects (handleTypingStop st)
         ++ [Alert "Failed to send message. Please try again."])%list
  else
    messages st1 = (messages st ++ [optimistic])%list
    ∧ timers st1
      = (timers (handleTypingStop st)
         ++ [mkTimer (next_timer st) (now + 1000)
               (MarkDeliveredCallback (inl now))])%list
    ∧ Forall2 same_upto_pending
        (messages st ++ [optimistic] ++ received evs)%list (messages st3)
    ∧ delivered (inl now) (messages st3)
    ∧ ∃ m, m ∈ messages st3 ∧ same_upto_pending optimistic m
           ∧ pending m = false.
Proof.
  intros Hwf Htext Hsel Hsock Hme Hkeep optimistic st1 st3.
  destruct emit_throws.
  - destruct (sendMessage_failed now iso st sel me sock Htext Hsel Hsock Hme)
      as (Hm & Ht & _ & _ & He).
    split; [done|]. split; [|done].
    intros m Hin. fold st1 in Hm. rewrite Hm in Hin.
    by apply list_elem_of_filter in Hin as [? _].
  - destruct (sendMessage_sent now iso st sel me sock Htext Hsel Hsock Hme)
      as (Hm & Ht & Hn & Hr & Hs & _).
    fold st1 in Hm, Ht, Hn, Hr, Hs.
    pose proof (sendMessage_wf now iso false st Hwf) as Hwf1. fold st1 in Hwf1.
    destruct (run_events_frame env sock evs st1 Hs Hkeep) as (Hm2 & Ht2 & Hn2 & Hr2).
    set (st2 := run_events env evs st1) in *.
    assert (timers_wf st2) as [Hnd _ _ Href] by by eapply timers_wf_same.
    split; [done|]. split; [done|].
    assert (Forall2 same_upto_pending
              (messages st ++ [optimistic] ++ received evs)%list (messages st3))
      as Hsame.
    { subst st3. unfold advance_to.
      replace (messages st ++ [optimistic] ++ received evs)%list
        with (messages st2) by (rewrite Hm2, Hm; by rewrite <- app_assoc).
      by apply run_until_frame. }
    assert (delivered (inl now) (messages st3)) as Hdel.
    { subst st3. unfold advance_to.
      eapply (run_until_delivers _ _ st2
                (mkTimer (next_timer st) (now + 1000)
                   (MarkDeliveredCallback (inl now)))); try done.
      rewrite Ht2, Ht. apply elem_of_app. right. by apply list_elem_of_singleton. }
    split; [done|]. split; [done|].
    apply Forall2_app_inv_l in Hsame as (older & rest & _ & Hrest & Heq).
    apply Forall2_cons_inv_l in Hrest as (m & newer & Hm' & _ & ->).
    assert (m ∈ messages st3) as Hin.
    { rewrite Heq. apply elem_of_app. right. apply elem_of_cons. by left. }
    exists m. split; [done|]. split; [done|].
    apply Hdel; [done|]. by destruct Hm' as (<- & _).
Qed.

Lemma reachable_conversation (u : option User) (contacts : list User)
    (st : AppState) :
  reachable st → reachable (set_selectedUser u (set_users contacts st)).
Proof. intros Hst. by eapply reach_other. Qed.

Lemma chat_ready_reachable : reachable chat_ready.
Proof.
  unfold chat_ready, started.
  apply reachable_conversation, reachable_socket_event, reachable_startup,
    reach_mount.
Qed.

Lemma typed_hi_wf : timers_wf (type_at 0 "hi" chat_ready).
Proof.
  apply reachable_wf, reach_input, reachable_advance, chat_ready_reachable.
Qed.

(** *** Among the other handlers *)

Lemma mark_delivered_settled (id : JsId) (m : Message) :
  mark_delivered id (settled m) = settled m.
Proof. unfold mark_delivered. by case_decide. Qed.

Lemma mark_delivered_own (m : Message) : mark_delivered (msg_id m) m = settled m.
Proof. unfold mark_delivered. by case_decide. Qed.

Lemma mark_delivered_other (id : JsId) (m : Message) :
  msg_id m ≠ id → mark_delivered id m = m.
Proof. intros Hne. unfold mark_delivered. by case_decide. Qed.

(** What a firing timer does to the messages: nothing, unless it is a
    delivery timer. *)
Lemma fire_messages (tid : N) (st : AppState) :
  NoDup (map timer_id (timers st)) →
  (messages (fire tid st) = messages st
   ∧ ∀ tm, tm ∈ timers st → timer_id tm = tid → is_typing_callback (callback tm))
  ∨ ∃ tm0 id, tm0 ∈ timers st ∧ timer_id tm0 = tid
              ∧ callback tm0 = MarkDeliveredCallback id
              ∧ messages (fire tid st) = map (mark_delivered id) (messages st).
Proof.
  intros Hnd. unfold fire.
  destruct (List.find _ _) as [tm0|] eqn:Hfind.
  - apply List.find_some in Hfind as [Hin Hid].
    apply list_elem_of_In in Hin. apply bool_decide_eq_true in Hid.
    destruct (callback tm0) as [sel typing|id] eqn:Hcb; cbn [run_callback].
    + left. split.
      * by destruct (handleTypingStop_in_frame sel typing
                       (set_timers (filter (fun t' => timer_id t' ≠ tid) (timers st)) st))
          as (-> & _).
      * intros tm Htm Htid.
        assert (tm = tm0) as -> by (apply (same_id_same_timer (timers st)); congruence).
        by rewrite Hcb.
    + right. exists tm0, id. done.
  - left. split; [done|]. intros tm Htm Htid. apply list_elem_of_In in Htm.
    pose proof (List.find_none _ _ Hfind tm Htm) as Hnone. cbn in Hnone.
    by rewrite bool_decide_eq_true_2 in Hnone.
Qed.

Lemma fire_on_its_way (m : Message) (T : Z) (tid : N) (st : AppState) :
  timers_wf st → on_its_way m T st → on_its_way m T (fire tid st).
Proof.
  intros [Hnd _ _ Href] Hway.
  destruct (fire_frame tid st Hnd) as (_ & _ & _ & _ & _ & Hsurv).
  assert (∀ tm, tm ∈ timers st →
                callback tm = MarkDeliveredCallback (msg_id m) →
                typingTimeoutRef st ≠ Some (timer_id tm)) as Hnoref.
  { intros tm Htm Hcb Hk. specialize (Href tm Htm Hk). by rewrite Hcb in Href. }
  unfold on_its_way in *.
  destruct (fire_messages tid st Hnd)
    as [[Hm Htyping] | (tm0 & id & Hin0 & Hid0 & Hcb0 & Hm)]; rewrite Hm.
  - destruct Hway as [Hs | (Hin & tm & Htm & Hcb & Hdue)]; [by left|].
    right. split; [done|]. exists tm. split; [|done].
    apply Hsurv; [done | | by apply Hnoref].
    intros Htid. specialize (Htyping tm Htm Htid). by rewrite Hcb in Htyping.
  - destruct Hway as [Hs | (Hin & tm & Htm & Hcb & Hdue)].
    + left. apply list_elem_of_fmap. exists (settled m).
      by rewrite mark_delivered_settled.
    + destruct (decide (msg_id m = id)) as [<-|Hne].
      * left. apply list_elem_of_fmap. exists m. by rewrite mark_delivered_own.
      * right. split.
        -- apply list_elem_of_fmap. exists m. by rewrite mark_delivered_other.
        -- exists tm. split; [|done].
           apply Hsurv; [done | | by apply Hnoref].
           intros Htid.
           assert (tm = tm0) as -> by (apply (same_id_same_timer (timers st)); congruence).
           congruence.
Qed.

Lemma run_until_on_its_way (m : Message) (T : Z) (fuel : nat) (t : Z)
    (st : AppState) :
  timers_wf st → on_its_way m T st → on_its_way m T (run_until fuel t st).
Proof.
  revert st. induction fuel as [|fuel IH]; intros st Hwf Hway; [done|].
  cbn [run_until]. destruct (earliest (timers st)) as [tm|]; [|done].
  destruct (due tm <=? t)%Z; [|done].
  apply IH; [by apply fire_wf | by apply fire_on_its_way].
Qed.

(** A step keeps the message on its way when it keeps the messages with
    its id and every timer that [typingTimeoutRef] does not name. *)
Lemma on_its_way_survives (m : Message) (T : Z) (st st' : AppState) :
  timers_wf st →
  (∀ x, x ∈ messages st → msg_id x = msg_id m → x ∈ messages st') →
  (∀ tm, tm ∈ timers st → typingTimeoutRef st ≠ Some (timer_id tm) →
         tm ∈ timers st') →
  on_its_way m T st → on_its_way m T st'.
Proof.
  intros [_ _ _ Href] Hmsgs Htimers [Hs | (Hin & tm & Htm & Hcb & Hdue)].
  - left. by apply Hmsgs.
  - right. split; [by apply Hmsgs|]. exists tm. split; [|done].
    apply Htimers; [done|]. intros Hk. specialize (Href tm Htm Hk).
    by rewrite Hcb in Href.
Qed.

Lemma conversation_kept_on_its_way (m : Message) (T : Z) (st st' : AppState) :
  conversation_kept st st' → timers_wf st → on_its_way m T st →
  timers_wf st' ∧ on_its_way m T st'.
Proof.
  intros (Ht & Hn & Hr & extra & Hm) Hwf Hway. split.
  - by eapply timers_wf_same.
  - eapply on_its_way_survives; [done | | | done].
    + intros x Hx _. rewrite Hm. apply elem_of_app. by left.
    + intros tm Htm _. by rewrite Ht.
Qed.

Lemma handleTypingStop_in_survives (sel : option User) (typing : bool)
    (st : AppState) (tm : Timer) :
  tm ∈ timers st → typingTimeoutRef st ≠ Some (timer_id tm) →
  tm ∈ timers (handleTypingStop_in sel typing st).
Proof.
  intros Htm Hk.
  destruct (handleTypingStop_in_frame sel typing st)
    as (_ & _ & _ & _ & [-> | (k & Hk' & ->)]); [done|].
  apply list_elem_of_filter. split; [congruence | done].
Qed.

Lemma handleTypingStart_survives (now : Z) (st : AppState) (tm : Timer) :
  tm ∈ timers st → typingTimeoutRef st ≠ Some (timer_id tm) →
  tm ∈ timers (handleTypingStart now st)
  ∧ messages (handleTypingStart now st) = messages st.
Proof.
  intros Htm Hk. unfold handleTypingStart.
  destruct (selectedUser st) as [u|]; [|done].
  destruct (socketRef st) as [sock|]; [|done].
  destruct (isTyping st); [done|].
  destruct (typingTimeoutRef st) as [k|] eqn:Href; cbn; rewrite Href; cbn.
  - split; [|done]. apply elem_of_app. left.
    apply list_elem_of_filter. split; [congruence | done].
  - split; [|done]. apply elem_of_app. by left.
Qed.

Lemma handleInputChange_on_its_way (m : Message) (T now : Z) (value : string)
    (st : AppState) :
  timers_wf st → on_its_way m T st →
  on_its_way m T (handleInputChange now value st).
Proof.
  intros Hwf Hway. eapply on_its_way_survives; [done | | | done];
    unfold handleInputChange; destruct (Js.truthy _).
  - intros x Hx _.
    assert (messages (handleTypingStart now (set_newMessage value st))
            = messages st) as ->; [|done].
    unfold handleTypingStart, clearTimeout, setTimeout. by break_matches.
  - intros x Hx _. unfold handleTypingStop.
    by destruct (handleTypingStop_in_frame
                   (selectedUser (set_newMessage value st))
                   (isTyping (set_newMessage value st))
                   (set_newMessage value st)) as (-> & _).
  - intros tm Htm Hk.
    by apply (handleTypingStart_survives now (set_newMessage value st) tm).
  - intros tm Htm Hk.
    by apply (handleTypingStop_in_survives _ _ (set_newMessage value st) tm).
Qed.

Lemma sendMessage_on_its_way (m : Message) (T now now' : Z) (iso : string)
    (emit_throws : bool) (st : AppState) :
  msg_id m = inl now →
  negb (emit_throws && bool_decide (now' = now)) = true →
  timers_wf st → on_its_way m T st →
  on_its_way m T (sendMessage now' iso emit_throws st).
Proof.
  intros Hid Hother Hwf Hway.
  destruct (Js.truthy (Js.trim (newMessage st))) eqn:Htext;
    [|by rewrite sendMessage_guard by by left].
  destruct (selectedUser st) as [sel|] eqn:Hsel;
    [|by rewrite sendMessage_guard by (right; by left)].
  destruct (socketRef st) as [sock|] eqn:Hsock;
    [|by rewrite sendMessage_guard by (right; by right)].
  assert (∀ tm, tm ∈ timers st → typingTimeoutRef st ≠ Some (timer_id tm) →
                tm ∈ timers (handleTypingStop st)) as Hstop
    by (intros tm; apply handleTypingStop_in_survives).
  destruct (currentUser st) as [me|] eqn:Hme.
  - destruct emit_throws.
    + destruct (sendMessage_failed now' iso st sel me sock Htext Hsel Hsock Hme)
        as (Hm & Ht & _).
      eapply on_its_way_survives; [done | | | done].
      * intros x Hx Hx'. rewrite Hm. apply list_elem_of_filter. split; [|done].
        rewrite Hx', Hid. cbn in Hother. case_bool_decide; [done|]. congruence.
      * intros tm Htm Hk. rewrite Ht. by apply Hstop.
    + destruct (sendMessage_sent now' iso st sel me sock Htext Hsel Hsock Hme)
        as (Hm & Ht & _).
      eapply on_its_way_survives; [done | | | done].
      * intros x Hx _. rewrite Hm. apply elem_of_app. by left.
      * intros tm Htm Hk. rewrite Ht. apply elem_of_app. left. by apply Hstop.
  - assert (sendMessage now' iso emit_throws st = handleTypingStop st) as ->
      by (unfold sendMessage; by rewrite Htext, Hsel, Hsock, Hme).
    eapply on_its_way_survives; [done | | exact Hstop | done].
    intros x Hx _. unfold handleTypingStop.
    by destruct (handleTypingStop_in_frame (selectedUser st) (isTyping st) st)
      as (-> & _).
Qed.

Ltac kept_leaf := split_and!; try done; exists []; by rewrite app_nil_r.

Lemma conversation_kept_refl (st : AppState) : conversation_kept st st.
Proof. kept_leaf. Qed.

Lemma on_socket_event_kept (env : Browser) (ev : SocketEvent) (st : AppState) :
  keeps_conversation env ev = true →
  conversation_kept st (on_socket_event env ev st).
Proof.
  intros Hkeep. destruct (on_socket_event_timers env ev st) as (Ht & Hn & Hr).
  split_and!; try done.
  destruct (socketRef st) as [sock|] eqn:Hs.
  - exists (received [ev]). by apply (on_socket_event_messages env sock).
  - exists []. unfold on_socket_event. by rewrite Hs, app_nil_r.
Qed.

Lemma loadUsers_settle_kept (env : Browser) (outcome : HttpOutcome (list User))
    (st : AppState) :
  confirm_answer env = false →
  conversation_kept st (loadUsers_settle env outcome st).
Proof.
  intros Hno. unfold loadUsers_settle, load_catch. rewrite Hno.
  cbn [handleLogout]. break_matches; kept_leaf.
Qed.

Lemma loadUsers_kept (env : Browser) (outcome : HttpOutcome (list User))
    (st : AppState) :
  confirm_answer env = false →
  conversation_kept st (loadUsers env outcome st).
Proof.
  intros Hno. unfold loadUsers. fold (loadUsers_settle env outcome st).
  destruct (stored "token" st).
  - by apply loadUsers_settle_kept.
  - rewrite Hno. apply conversation_kept_refl.
Qed.

Section OptimisticProofs.

Variable JSON_parse : string -> option User.
Variable JSON_stringify : User -> string.

Lemma initializeApp_begin_kept (st : AppState) :
  conversation_kept st (snd (initializeApp_begin JSON_parse st)).
Proof. unfold initializeApp_begin. break_matches; kept_leaf. Qed.

Lemma initializeApp_settle_kept (sel : option User) (token : string)
    (outcome : FetchOutcome) (st : AppState) :
  conversation_kept st (initializeApp_settle JSON_stringify sel token outcome st).
Proof.
  unfold initializeApp_settle.
  destruct outcome as [res|error]; cbn [validateToken].
  - destruct (negb _); [kept_leaf|]. destruct (res_ok res); [|kept_leaf].
    destruct (json_body res); [kept_leaf|].
    destruct (validation_catch _); kept_leaf.
  - destruct (validation_catch _); kept_leaf.
Qed.

Lemma initializeApp_kept (outcome : FetchOutcome) (st : AppState) :
  conversation_kept st (initializeApp JSON_parse JSON_stringify outcome st).
Proof.
  unfold initializeApp.
  destruct (stored "token" st); [|kept_leaf].
  destruct (stored "userData" st); [|kept_leaf].
  destruct (JSON_parse _); [|kept_leaf].
  destruct outcome as [res|error]; cbn [validateToken].
  - destruct (negb _); [kept_leaf|]. destruct (res_ok res); [|kept_leaf].
    destruct (json_body res); [kept_leaf|].
    destruct (validation_catch _); kept_leaf.
  - destruct (validation_catch _); kept_leaf.
Qed.

Lemma handleAuth_kept (now : Z) (form : AuthForm) (outcome : AuthOutcome)
    (cells : AuthCells) (st : AppState) :
  conversation_kept st
    (auth_app (handleAuth JSON_stringify now form outcome cells st)).
Proof.
  unfold handleAuth. destruct (auth_rejection _ _ _ _); [kept_leaf|].
  destruct (auth_body outcome); [kept_leaf|].
  destruct (isLogin cells); kept_leaf.
Qed.

Lemma act_on_its_way (env : Browser) (now : Z) (m : Message) (T : Z)
    (a : Action) (st : AppState) :
  msg_id m = inl now →
  keeps_message env now a = true →
  timers_wf st → on_its_way m T st →
  timers_wf (act JSON_parse JSON_stringify env a st)
  ∧ on_its_way m T (act JSON_parse JSON_stringify env a st).
Proof.
  intros Hid Hkeep Hwf Hway.
  assert (∀ st', conversation_kept st st' → timers_wf st' ∧ on_its_way m T st')
    as Hkept by (intros st' H; by apply (conversation_kept_on_its_way m T st)).
  destruct a; cbn [act]; cbn [keeps_message] in Hkeep; try done.
  - apply Hkept, initializeApp_kept.
  - apply Hkept, handleAuth_kept.
  - by apply Hkept, on_socket_event_kept.
  - split; [by apply handleInputChange_wf | by apply handleInputChange_on_its_way].
  - split; [by apply sendMessage_wf | by apply (sendMessage_on_its_way m T now)].
  - split; [by apply run_until_wf | by apply run_until_on_its_way].
  - apply negb_true_iff in Hkeep. rewrite Hkeep. cbn [handleLogout].
    apply Hkept, conversation_kept_refl.
  - apply negb_true_iff in Hkeep. by apply Hkept, loadUsers_kept.
  - apply Hkept, initializeApp_begin_kept.
  - apply Hkept, initializeApp_settle_kept.
  - apply negb_true_iff in Hkeep. by apply Hkept, loadUsers_settle_kept.
Qed.

Lemma run_on_its_way (env : Browser) (now : Z) (m : Message) (T : Z)
    (window : list Action) (st : AppState) :
  msg_id m = inl now →
  Forall (fun a => keeps_message env now a = true) window →
  timers_wf st → on_its_way m T st →
  timers_wf (run JSON_parse JSON_stringify env window st)
  ∧ on_its_way m T (run JSON_parse JSON_stringify env window st).
Proof.
  intros Hid Hwindow. revert st.
  induction Hwindow as [|a window Ha _ IH]; intros st Hwf Hway; [done|].
  cbn [run fold_left].
  destruct (act_on_its_way env now m T a st Hid Ha Hwf Hway) as [Hwf' Hway'].
  by apply IH.
Qed.

Lemma run_until_settled (m : Message) (fuel : nat) (t : Z) (st : AppState) :
  NoDup (map timer_id (timers st)) →
  settled m ∈ messages st → settled m ∈ messages (run_until fuel t st).
Proof.
  revert st. induction fuel as [|fuel IH]; intros st Hnd Hs; [done|].
  cbn [run_until]. destruct (earliest (timers st)) as [tm|]; [|done].
  destruct (due tm <=? t)%Z; [|done].
  destruct (fire_frame (timer_id tm) st Hnd) as (_ & _ & _ & Hnd' & _).
  apply IH; [done|].
  destruct (fire_messages (timer_id tm) st Hnd)
    as [[-> _] | (tm0 & id & _ & _ & _ & ->)]; [done|].
  apply list_elem_of_fmap. exists (settled m). by rewrite mark_delivered_settled.
Qed.

(** Once the clock has reached the due time, a message on its way is in
    the sequence, marked. *)
Lemma on_its_way_arrives (m : Message) (T t : Z) (st : AppState) :
  timers_wf st → on_its_way m T st → (T ≤ t)%Z →
  settled m ∈ messages (advance_to t st).
Proof.
  intros Hwf Hway Hdue. pose proof Hwf as [Hnd _ _ Href].
  destruct Hway as [Hs | (Hin & tm & Htm & Hcb & Htm_due)].
  - by apply run_until_settled.
  - unfold advance_to.
    destruct (run_until_frame (length (timers st)) t st Hnd) as [Hsame _].
    assert (delivered (msg_id m) (messages (run_until (length (timers st)) t st)))
      as Hdel.
    { eapply (run_until_delivers _ _ st tm); try done. lia. }
    apply list_elem_of_lookup in Hin as [i Hi].
    destruct (Forall2_lookup_l _ _ _ _ _ Hsame Hi) as (m' & Hi' & Hm').
    apply list_elem_of_lookup_2 in Hi'.
    assert (m' = settled m) as <-; [|done].
    pose proof (Hdel m' Hi') as Hp.
    destruct m', Hm' as (Hid&?&?&?&?). cbn in *. subst.
    by rewrite Hp.
Qed.

(** C6.  Take a state that satisfies the timer invariant and passes the
    guards of [sendMessage], and a send at time [now].  If [emit] raises,
    the message is gone again when [sendMessage] returns, the alert is
    shown, and no timer was scheduled, so nothing is ever marked delivered
    for it.  If [emit] returns, the message is appended as pending and one
    timer is scheduled for [now + 1000]; and if every step taken before the
    clock is read at some [t] from [now + 1000] on keeps the conversation
    (socket events, key strokes, further sends, the clock advancing with
    timers firing, the contacts loading, startup and login steps, in any
    number and order, but no conversation being loaded, no going back, no
    confirmed logout and no failed send with the same provisional id), then
    at [t] the message is in the sequence with its pending flag cleared. *)
Theorem optimistic_message_terminal_state (env : Browser) (now t : Z)
    (iso : string) (emit_throws : bool) (window : list Action)
    (st : AppState) (sel me : User) (sock : Socket) :
  timers_wf st →
  Js.truthy (Js.trim (newMessage st)) = true →
  selectedUser st = Some sel →
  socketRef st = Some sock →
  currentUser st = Some me →
  Forall (fun a => keeps_message env now a = true) window →
  (now + 1000 ≤ t)%Z →
  let optimistic :=
    mkMessage (inl now) (Js.trim (newMessage st)) (user_id me) iso true true in
  let st1 := sendMessage now iso emit_throws st in
  let st3 := advance_to t (run JSON_parse JSON_stringify env window st1) in
  if emit_throws then
    messages st1 = filter (fun m => msg_id m ≠ inl now) (messages st)
    ∧ (∀ m, m ∈ messages st1 → msg_id m ≠ inl now)
    ∧ timers st1 = timers (handleTypingStop st)
    ∧ effects st1
      = (effects (handleTypingStop st)
         ++ [Alert "Failed to send message. Please try again."])%list
  else
    messages st1 = (messages st ++ [optimistic])%list
    ∧ timers st1
      = (timers (handleTypingStop st)
         ++ [mkTimer (next_timer st) (now + 1000)
               (MarkDeliveredCallback (inl now))])%list
    ∧ effects st1
      = (effects (handleTypingStop st)
         ++ [SocketEmit "send_message" (user_id sel)
               (Some (Js.trim (newMessage st)))])%list
    ∧ settled optimistic ∈ messages st3.
Proof.
  intros Hwf Htext Hsel Hsock Hme Hwindow Ht optimistic st1 st3.
  destruct emit_throws.
  - destruct (sendMessage_failed now iso st sel me sock Htext Hsel Hsock Hme)
      as (Hm & Htm & _ & _ & He).
    split; [done|]. split; [|done].
    intros m Hin. fold st1 in Hm. rewrite Hm in Hin.
    by apply list_elem_of_filter in Hin as [? _].
  - destruct (sendMessage_sent now iso st sel me sock Htext Hsel Hsock Hme)
      as (Hm & Htm & _ & _ & _ & He).
    fold st1 in Hm, Htm, He.
    pose proof (sendMessage_wf now iso false st Hwf) as Hwf1. fold st1 in Hwf1.
    split; [done|]. split; [done|]. split; [done|].
    assert (on_its_way optimistic (now + 1000) st1) as Hway.
    { right. split.
      - rewrite Hm. apply elem_of_app. right. by apply list_elem_of_singleton.
      - exists (mkTimer (next_timer st) (now + 1000) (MarkDeliveredCallback (inl now))).
        split; [|done]. rewrite Htm. apply elem_of_app. right.
        by apply list_elem_of_singleton. }
    destruct (run_on_its_way env now optimistic (now + 1000) window st1)
      as [Hwf2 Hway2]; try done.
    subst st3. by apply (on_its_way_arrives optimistic (now + 1000)).
Qed.

End OptimisticProofs.

(** Going back empties the sequence, and no timer fills it again. *)
Lemma handleBackToContacts_drops (t : Z) (st : AppState) :
  NoDup (map timer_id (timers st)) →
  messages (advance_to t (handleBackToContacts st)) = [].
Proof.
  intros Hnd. unfold advance_to.
  destruct (run_until_frame (length (timers (handleBackToContacts st))) t
              (handleBackToContacts st) Hnd) as [Hsame _].
  by inversion Hsame.
Qed.

(** C6 fails as stated: the text "hi" is sent at 500 and emitted, and the
    user goes back to the contact list before 1500.  The message is out of
    the sequence from then on, at every time, so it is never marked
    delivered; and no failure is reported, the timer firing in the end
    without any effect. *)
Lemma optimistic_message_dropped_on_back :
  let st := type_at 0 "hi" chat_ready in
  let optimistic := mkMessage (inl 500%Z) "hi" (user_id alice) "iso" true true in
  let st1 := sendMessage 500 "iso" false st in
  let st2 := handleBackToContacts st1 in
  messages st1 = [optimistic]
  ∧ effects st1
    = (effects st ++ [SocketEmit "typing_stop" (inl 2%Z) None;
                      SocketEmit "send_message" (inl 2%Z) (Some "hi")])%list
  ∧ (∀ t, messages (advance_to t st2) = [])
  ∧ effects (advance_to 1500 st2) = effects st1
  ∧ timers (advance_to 1500 st2) = [].
Proof.
  intros st optimistic st1 st2.
  split; [vm_compute; reflexivity|]. split; [vm_compute; reflexivity|].
  split; [|split; vm_compute; reflexivity].
  intros t. apply handleBackToContacts_drops.
  apply (wf_nodup st1), sendMessage_wf, typed_hi_wf.
Qed.

(** A send followed, within the second, by an incoming message, a key
    stroke, the contacts arriving, the clock moving on and a second send. *)
Lemma optimistic_message_terminal_state_witness :
  let st := type_at 0 "hi" chat_ready in
  let incoming := mkMessage (inl 41%Z) "hello" (user_id bob)
                    "2025-01-01T00:00:00.500Z" true true in
  let window :=
    [ASocket (EvMessage incoming); AInput 700 "next";
     ALoadUsers (HttpResolves (mkHttp 200 (Some "application/json")
                                 (BodyValue [alice; bob])));
     AClock 900; ASend 950 "iso2" false] in
  let optimistic := mkMessage (inl 500%Z) "hi" (user_id alice) "iso" true true in
  (let st1 := sendMessage 500 "iso" true st in
   messages st1 = filter (fun m => msg_id m ≠ inl 500%Z) (messages st)
   ∧ (∀ m, m ∈ messages st1 → msg_id m ≠ inl 500%Z)
   ∧ timers st1 = timers (handleTypingStop st)
   ∧ effects st1
     = (effects (handleTypingStop st)
        ++ [Alert "Failed to send message. Please try again."])%list)
  ∧ (let st1 := sendMessage 500 "iso" false st in
     let st3 :=
       advance_to 1500 (run parse_demo stringify_demo demo_env window st1) in
     messages st1 = (messages st ++ [optimistic])%list
     ∧ timers st1
       = (timers (handleTypingStop st)
          ++ [mkTimer (next_timer st) (500 + 1000)
                (MarkDeliveredCallback (inl 500%Z))])%list
     ∧ effects st1
       = (effects (handleTypingStop st)
          ++ [SocketEmit "send_message" (user_id bob) (Some "hi")])%list
     ∧ settled optimistic ∈ messages st3).
Proof.
  intros st incoming window optimistic. split.
  - apply (optimistic_message_terminal_state parse_demo stringify_demo demo_env
             500 1500 "iso" true window st bob alice (mkSocket "t1" None)).
    + exact typed_hi_wf.
    + reflexivity.
    + reflexivity.
    + reflexivity.
    + reflexivity.
    + repeat constructor.
    + lia.
  - apply (optimistic_message_terminal_state parse_demo stringify_demo demo_env
             500 1500 "iso" false window st bob alice (mkSocket "t1" None)).
    + exact typed_hi_wf.
    + reflexivity.
    + reflexivity.
    + reflexivity.
    + reflexivity.
    + repeat constructor.
    + lia.
Defined.

(** The witness runs evaluated: the message ends delivered among the
    others in one, and is absent in the other. *)
Example optimistic_message_runs :
  let st := type_at 0 "hi" chat_ready in
  let incoming := mkMessage (inl 41%Z) "hello" (user_id bob)
                    "2025-01-01T00:00:00.500Z" true true in
  let window :=
    [ASocket (EvMessage incoming); AInput 700 "next";
     ALoadUsers (HttpResolves (mkHttp 200 (Some "application/json")
                                 (BodyValue [alice; bob])));
     AClock 900; ASend 950 "iso2" false] in
  messages (advance_to 1500
              (run parse_demo stringify_demo demo_env window
                 (sendMessage 500 "iso" false st)))
    = [mkMessage (inl 500%Z) "hi" (inl 1%Z) "iso" true false;
       mkMessage (inl 41%Z) "hello" (inl 2%Z) "2025-01-01T00:00:00.500Z" false true;
       mkMessage (inl 950%Z) "next" (inl 1%Z) "iso2" true true]
  ∧ messages (advance_to 1500 (sendMessage 500 "iso" true st)) = []
  ∧ timers (advance_to 1500 (sendMessage 500 "iso" true st)) = [].
Proof. vm_compute. repeat split; reflexivity. Qed.

(** * Further properties *)

(** ** The status dot *)


(** ** The service worker *)

Lemma or_default_truthy (value : option ServiceWorker.Json) (fallback : string) :
  fallback ≠ "" →
  ServiceWorker.truthy (ServiceWorker.or_default value fallback) = true.
Proof.
  intros Hf. unfold ServiceWorker.or_default.
  assert (ServiceWorker.truthy (ServiceWorker.JString fallback) = true) as Hd
    by by destruct fallback.
  destruct value as [v|]; [|done].
  by destruct (ServiceWorker.truthy v) eqn:Hv.
Qed.

Lemma or_default_spec (value : option ServiceWorker.Json) (fallback : string) :
  (∀ v, value = Some v → ServiceWorker.truthy v = true →
        ServiceWorker.or_default value fallback = v)
  ∧ ((∀ v, value = Some v → ServiceWorker.truthy v = false) →
     ServiceWorker.or_default value fallback = ServiceWorker.JString fallback).
Proof.
  unfold ServiceWorker.or_default. split.
  - intros v -> Hv. by rewrite Hv.
  - intros Hfalse. destruct value as [v|]; [|done]. by rewrite (Hfalse v).
Qed.

Lemma truthy_string (v : ServiceWorker.Json) (text : string) :
  ServiceWorker.truthy v = true → v = ServiceWorker.JString text → text ≠ "".
Proof. intros Hv -> ->. done. Qed.

(** X2.  The payload of a push event is absent, not JSON, or any JSON
    value.  The listener raises in two cases only: the payload is not JSON,
    or it is the JSON value [null], on which reading [data.body] is a
    [TypeError].  In every other case it shows one notification, and the
    title and the body it passes are never falsy: a member of the payload
    object that is present and truthy is passed as it is, a member that is
    missing or falsy (empty string, [null], [false], zero) is replaced by the
    default text, and a payload that is not an object (a string, a number,
    an array) gets both defaults.  So a title or body passed as a string is
    never the empty string; a truthy member that is not a string, such as an
    empty array, is passed on unchanged. *)
Theorem push_notification_never_falsy (payload : ServiceWorker.PushPayload) :
  match ServiceWorker.on_push payload with
  | inr shown =>
      ServiceWorker.truthy (ServiceWorker.shown_title shown) = true
      ∧ ServiceWorker.truthy (ServiceWorker.shown_body shown) = true
      ∧ (∀ text, ServiceWorker.shown_title shown = ServiceWorker.JString text →
                 text ≠ "")
      ∧ (∀ text, ServiceWorker.shown_body shown = ServiceWorker.JString text →
                 text ≠ "")
      ∧ ∃ data,
          (payload = ServiceWorker.JsonData data
           ∨ (payload = ServiceWorker.NoData ∧ data = ServiceWorker.JObject []))
          ∧ data ≠ ServiceWorker.JNull
          ∧ ServiceWorker.shown_data shown = data
          ∧ (∀ v, ServiceWorker.field "title" data = Some v →
                  ServiceWorker.truthy v = true →
                  ServiceWorker.shown_title shown = v)
          ∧ ((∀ v, ServiceWorker.field "title" data = Some v →
                   ServiceWorker.truthy v = false) →
             ServiceWorker.shown_title shown = ServiceWorker.JString "Chat App")
          ∧ (∀ v, ServiceWorker.field "body" data = Some v →
                  ServiceWorker.truthy v = true →
                  ServiceWorker.shown_body shown = v)
          ∧ ((∀ v, ServiceWorker.field "body" data = Some v →
                   ServiceWorker.truthy v = false) →
             ServiceWorker.shown_body shown
             = ServiceWorker.JString "You have a new message")
          ∧ ((∀ members, data ≠ ServiceWorker.JObject members) →
             ServiceWorker.shown_title shown = ServiceWorker.JString "Chat App"
             ∧ ServiceWorker.shown_body shown
               = ServiceWorker.JString "You have a new message")
  | inl error =>
      payload = ServiceWorker.BadJson error
      ∨ (payload = ServiceWorker.JsonData ServiceWorker.JNull
         ∧ err_name error = "TypeError")
  end.
Proof.
  assert (∀ data,
            let shown :=
              ServiceWorker.mkShown
                (ServiceWorker.or_default (ServiceWorker.field "title" data) "Chat App")
                (ServiceWorker.or_default (ServiceWorker.field "body" data)
                   "You have a new message")
                "/icon-192x192.png" "/icon-72x72.png" data in
            ServiceWorker.truthy (ServiceWorker.shown_title shown) = true
            ∧ ServiceWorker.truthy (ServiceWorker.shown_body shown) = true
            ∧ (∀ v, ServiceWorker.field "title" data = Some v →
                    ServiceWorker.truthy v = true →
                    ServiceWorker.shown_title shown = v)
            ∧ ((∀ v, ServiceWorker.field "title" data = Some v →
                     ServiceWorker.truthy v = false) →
               ServiceWorker.shown_title shown = ServiceWorker.JString "Chat App")
            ∧ (∀ v, ServiceWorker.field "body" data = Some v →
                    ServiceWorker.truthy v = true →
                    ServiceWorker.shown_body shown = v)
            ∧ ((∀ v, ServiceWorker.field "body" data = Some v →
                     ServiceWorker.truthy v = false) →
               ServiceWorker.shown_body shown
               = ServiceWorker.JString "You have a new message")
            ∧ ((∀ members, data ≠ ServiceWorker.JObject members) →
               ServiceWorker.shown_title shown = ServiceWorker.JString "Chat App"
               ∧ ServiceWorker.shown_body shown
                 = ServiceWorker.JString "You have a new message")) as Hshown.
  { intros data shown. subst shown. cbn [ServiceWorker.shown_title
      ServiceWorker.shown_body].
    split; [by apply or_default_truthy|]. split; [by apply or_default_truthy|].
    split; [apply or_default_spec|]. split; [apply or_default_spec|].
    split; [apply or_default_spec|]. split; [apply or_default_spec|].
    intros Hno. destruct data as [| | | | |members]; try done.
    by destruct (Hno members). }
  assert (∀ data, data ≠ ServiceWorker.JNull →
            ServiceWorker.on_push (ServiceWorker.JsonData data)
            = inr (ServiceWorker.mkShown
                     (ServiceWorker.or_default (ServiceWorker.field "title" data)
                        "Chat App")
                     (ServiceWorker.or_default (ServiceWorker.field "body" data)
                        "You have a new message")
                     "/icon-192x192.png" "/icon-72x72.png" data)) as Hvalue.
  { intros data Hdata. by destruct data. }
  destruct payload as [|data|error].
  - cbn [ServiceWorker.on_push].
    destruct (Hshown (ServiceWorker.JObject [])) as (Ht & Hb & H1 & H2 & H3 & H4 & H5).
    split; [exact Ht|]. split; [exact Hb|].
    split; [intros text; by apply truthy_string|].
    split; [intros text; by apply truthy_string|].
    exists (ServiceWorker.JObject []). split; [by right|]. done.
  - assert (data = ServiceWorker.JNull ∨ data ≠ ServiceWorker.JNull)
      as [->|Hdata] by (destruct data; first [by left | by right]).
    + cbn. right. done.
    + rewrite (Hvalue data Hdata).
      destruct (Hshown data) as (Ht & Hb & H1 & H2 & H3 & H4 & H5).
      split; [exact Ht|]. split; [exact Hb|].
      split; [intros text; by apply truthy_string|].
      split; [intros text; by apply truthy_string|].
      exists data. split; [by left|]. done.
  - cbn. by left.
Qed.

(** Two payloads outside the intended shape: [null] raises, and an empty
    array given as the title is passed on as the title. *)
Example push_payload_edge_cases :
  ServiceWorker.on_push (ServiceWorker.JsonData ServiceWorker.JNull)
  = inl (mkError "TypeError" "Cannot read properties of null (reading 'body')")
  ∧ ServiceWorker.on_push
      (ServiceWorker.JsonData
         (ServiceWorker.JObject [("title", ServiceWorker.JArray [])]))
    = inr (ServiceWorker.mkShown (ServiceWorker.JArray [])
             (ServiceWorker.JString "You have a new message")
             "/icon-192x192.png" "/icon-72x72.png"
             (ServiceWorker.JObject [("title", ServiceWorker.JArray [])])).
Proof. split; reflexivity. Qed.

Lemma focus_first_spec (clientList : list bool) (start : nat) :
  match ServiceWorker.focus_first start clientList with
  | Some index =>
      (start ≤ index)%nat
      ∧ clientList !! (index - start)%nat = Some true
      ∧ ∀ j, (j < index - start)%nat → clientList !! j = Some false
  | None => Forall (fun c => c = false) clientList
  end.
Proof.
  revert start. induction clientList as [|c rest IH]; intros start; cbn.
  - constructor.
  - destruct c.
    + rewrite Nat.sub_diag. repeat split; [lia | lia..].
    + specialize (IH (S start)).
      destruct (ServiceWorker.focus_first (S start) rest) as [index|].
      * destruct IH as (Hle & Hat & Hbefore).
        replace (index - start)%nat with (S (index - S start)) by lia.
        repeat split; [lia | done |].
        intros [|j] Hj; [done|]. cbn. apply Hbefore. lia.
      * by constructor.
Qed.

(** X3.  A click on a notification focuses the first window client that
    can be focused and opens nothing; only when no listed client can be
    focused does it open the root page, and then only if [openWindow]
    exists.  It never does both. *)
Theorem notificationclick_focuses_or_opens (clientList : list bool)
    (openWindow : bool) :
  match ServiceWorker.on_notificationclick clientList openWindow with
  | ServiceWorker.FocusClient index =>
      clientList !! index = Some true
      ∧ ∀ j, (j < index)%nat → clientList !! j = Some false
  | ServiceWorker.OpenWindow url =>
      url = "/" ∧ openWindow = true ∧ Forall (fun c => c = false) clientList
  | ServiceWorker.Nothing =>
      openWindow = false ∧ Forall (fun c => c = false) clientList
  end.
Proof.
  unfold ServiceWorker.on_notificationclick.
  pose proof (focus_first_spec clientList 0) as Hspec.
  destruct (ServiceWorker.focus_first 0 clientList) as [index|].
  - rewrite Nat.sub_0_r in Hspec. by destruct Hspec as (_ & ? & ?).
  - by destruct openWindow.
Qed.

(** ** The string handed to [atob] *)

Lemma replace_all_id (x y : N) (s : list N) :
  Forall (fun c => c ≠ x) s → Vapid.replace_all x y s = s.
Proof.
  unfold Vapid.replace_all. induction 1 as [|c s Hc _ IH]; [done|].
  cbn [map]. rewrite IH. apply N.eqb_neq in Hc. by rewrite Hc.
Qed.

Lemma base64_of_clean (s : list N) :
  Forall (fun c => c ≠ Vapid.MINUS ∧ c ≠ Vapid.UNDERSCORE) (Vapid.base64_of s).
Proof.
  unfold Vapid.base64_of, Vapid.replace_all. rewrite map_map.
  apply Forall_forall. intros c Hc. apply list_elem_of_fmap in Hc as (c0 & -> & _).
  destruct (c0 =? Vapid.MINUS)%N eqn:H1.
  - cbn. by compute.
  - apply N.eqb_neq in H1. destruct (c0 =? Vapid.UNDERSCORE)%N eqn:H2.
    + by compute.
    + apply N.eqb_neq in H2. done.
Qed.

Lemma base64_of_standard (s : list N) :
  (length s mod 4 = 0)%nat →
  Forall (fun c => c ≠ Vapid.MINUS ∧ c ≠ Vapid.UNDERSCORE) s →
  Vapid.base64_of s = s.
Proof.
  intros Hlen Hs. unfold Vapid.base64_of, Vapid.padding. rewrite Hlen.
  cbn [Nat.sub Nat.modulo replicate]. change ((4 - 0) mod 4)%nat with 0%nat.
  cbn [replicate]. rewrite app_nil_r.
  rewrite (replace_all_id Vapid.MINUS).
  - apply replace_all_id. eapply Forall_impl; [exact Hs|]. by intros c [_ ?].
  - eapply Forall_impl; [exact Hs|]. by intros c [? _].
Qed.

(** X4.  The string that either VAPID helper hands to [atob] holds no [-]
    and no [_]; it begins with the input in which these two characters are
    replaced; preparing it a second time changes nothing; and an input in
    the standard alphabet whose length is a multiple of four is handed over
    as it is. *)
Theorem base64_of_normal_form (s : list N) :
  Forall (fun c => c ≠ Vapid.MINUS ∧ c ≠ Vapid.UNDERSCORE) (Vapid.base64_of s)
  ∧ take (length s) (Vapid.base64_of s)
    = Vapid.replace_all Vapid.UNDERSCORE Vapid.SLASH
        (Vapid.replace_all Vapid.MINUS Vapid.PLUS s)
  ∧ Vapid.base64_of (Vapid.base64_of s) = Vapid.base64_of s
  ∧ ((length s mod 4 = 0)%nat →
     Forall (fun c => c ≠ Vapid.MINUS ∧ c ≠ Vapid.UNDERSCORE) s →
     Vapid.base64_of s = s).
Proof.
  split; [apply base64_of_clean|]. split; [|split].
  - unfold Vapid.base64_of, Vapid.replace_all. rewrite !map_app.
    rewrite take_app_length'; [done|]. by rewrite !length_map.
  - apply base64_of_standard; [apply padded_length | apply base64_of_clean].
  - apply base64_of_standard.
Qed.

Lemma base64_of_normal_form_witness :
  Vapid.base64_of [65; 45; 95; 66]%N = [65; 43; 47; 66]%N
  ∧ Vapid.base64_of [65; 43; 47; 66]%N = [65; 43; 47; 66]%N.
Proof.
  split; [vm_compute; reflexivity|].
  destruct (base64_of_normal_form [65; 43; 47; 66]%N) as (_ & _ & _ & Hstd).
  apply Hstd.
  - reflexivity.
  - repeat constructor; discriminate.
Defined.

(** ** Login and registration *)

Lemma truthy_nonempty (s : string) : Js.truthy s = true ↔ s ≠ "".
Proof. destruct s; cbn; split; done. Qed.

Lemma auth_rejection_none (login : bool) (email password : string)
    (name : option string) :
  auth_rejection login email password name = None →
  email ≠ "" ∧ (6 ≤ String.length password)%nat
  ∧ (login = false → ∃ u, name = Some u ∧ (3 ≤ String.length u)%nat).
Proof.
  unfold auth_rejection.
  destruct (Js.truthy email) eqn:He; [|done].
  destruct (Js.truthy password) eqn:Hp; [|done]. cbn [negb orb].
  destruct login; cbn [negb andb].
  - destruct (String.length password <? 6)%nat eqn:Hlen; [done|].
    apply Nat.ltb_ge in Hlen. apply truthy_nonempty in He. by intros _.
  - destruct (Js.truthy (or_else name "")) eqn:Hn; [|done]. cbn [negb].
    destruct (String.length (or_else name "") <? 3)%nat eqn:Hu; [done|].
    destruct (String.length password <? 6)%nat eqn:Hlen; [done|].
    apply Nat.ltb_ge in Hlen, Hu. apply truthy_nonempty in He. intros _.
    split; [done|]. split; [done|]. intros _.
    destruct name as [u|]; [|done]. exists u. split; [done|].
    unfold or_else in Hu, Hn. destruct (Js.truthy u); [done | cbn in Hn; done].
Qed.

Section AuthProofs.

Variable JSON_parse : string -> option User.
Variable JSON_stringify : User -> string.

(** X5.  [handleAuth] sends a request only for a form that passes its
    checks: the email sent is the trimmed input and is not empty, the
    password sent is the input as typed and has at least six characters,
    a login goes to /api/login without a username, and a registration goes
    to /api/register with a trimmed username of at least three characters.
    When it sends nothing, all it does is show one alert. *)
Theorem handleAuth_request_validated (now : Z) (form : AuthForm)
    (outcome : AuthOutcome) (cells : AuthCells) (st : AppState) :
  let r := handleAuth JSON_stringify now form outcome cells st in
  match auth_request r with
  | Some req =>
      req_email req = Js.trim (form_email form)
      ∧ req_email req ≠ ""
      ∧ req_password req = form_password form
      ∧ (6 ≤ String.length (req_password req))%nat
      ∧ (if isLogin cells
         then req_url req = "/api/login" ∧ req_username req = None
         else req_url req = "/api/register"
              ∧ ∃ u raw, form_username form = Some raw ∧ u = Js.trim raw
                         ∧ req_username req = Some u
                         ∧ (3 ≤ String.length u)%nat)
  | None =>
      auth_cells r = cells
      ∧ ∃ text, auth_app r = alert text st
  end.
Proof.
  unfold handleAuth.
  destruct (auth_rejection _ _ _ _) as [text|] eqn:Hrej.
  - cbn. split; [done|]. by exists text.
  - apply auth_rejection_none in Hrej as (Hemail & Hpw & Hname).
    assert (∀ req,
              req = (if isLogin cells
                     then mkAuthRequest "/api/login" (Js.trim (form_email form))
                            (form_password form) None
                     else mkAuthRequest "/api/register" (Js.trim (form_email form))
                            (form_password form) (Js.trim <$> form_username form)) →
              req_email req = Js.trim (form_email form)
              ∧ req_email req ≠ ""
              ∧ req_password req = form_password form
              ∧ (6 ≤ String.length (req_password req))%nat
              ∧ (if isLogin cells
                 then req_url req = "/api/login" ∧ req_username req = None
                 else req_url req = "/api/register"
                      ∧ ∃ u raw, form_username form = Some raw ∧ u = Js.trim raw
                                 ∧ req_username req = Some u
                                 ∧ (3 ≤ String.length u)%nat)) as Hreq.
    { intros req ->. destruct (isLogin cells) eqn:Hmode; cbn.
      - done.
      - repeat split; try done. destruct (Hname eq_refl) as (u & Hu & Hlen).
        destruct (form_username form) as [raw|]; [|done].
        cbn in Hu. injection Hu as <-. by exists (Js.trim raw), raw. }
    destruct (auth_body outcome) as [error|data].
    + cbn [auth_request]. by apply Hreq.
    + destruct (isLogin cells) eqn:Hmode; cbn [auth_request]; apply Hreq;
        by rewrite ?Hmode.
Qed.

(** X6.  Outside a successful login nothing is stored: when the form is
    in registration mode, or the request ends in any error, the storage,
    the current user, the socket and the connection status are as before,
    no push set-up and no welcome alert are started, and exactly one alert
    is shown. *)
Theorem handleAuth_stores_only_on_login (now : Z) (form : AuthForm)
    (outcome : AuthOutcome) (cells : AuthCells) (st : AppState) :
  isLogin cells = false ∨ (∃ error, auth_body outcome = inl error) →
  let r := handleAuth JSON_stringify now form outcome cells st in
  localStorage (auth_app r) = localStorage st
  ∧ currentUser (auth_app r) = currentUser st
  ∧ socketRef (auth_app r) = socketRef st
  ∧ connectionStatus (auth_app r) = connectionStatus st
  ∧ auth_push r = None
  ∧ auth_welcome r = None
  ∧ ∃ text, effects (auth_app r) = (effects st ++ [Alert text])%list.
Proof.
  intros Hcase. unfold handleAuth.
  destruct (auth_rejection _ _ _ _) as [text|]; [cbn; repeat split; by eexists|].
  destruct (auth_body outcome) as [error|data] eqn:Hbody;
    [cbn; repeat split; by eexists|].
  destruct Hcase as [Hmode | [error Herr]]; [|done].
  rewrite Hmode. cbn. repeat split. by eexists.
Qed.

Lemma handleAuth_login_ok (now : Z) (form : AuthForm) (data : AuthData)
    (cells : AuthCells) (st : AppState) :
  isLogin cells = true →
  auth_rejection true (Js.trim (form_email form)) (form_password form)
    (Js.trim <$> form_username form) = None →
  let r := handleAuth JSON_stringify now form (granted data) cells st in
  localStorage (auth_app r)
  = <["userData" := JSON_stringify (data_user data)]>
      (<["token" := data_token data]> (localStorage st))
  ∧ currentUser (auth_app r) = Some (data_user data)
  ∧ socketRef (auth_app r) = Some (mkSocket (data_token data) (selectedUser st))
  ∧ effects (auth_app r)
    = (effects st ++ [SocketOpen (data_token data); LoadUsers])%list
  ∧ auth_cells r = mkAuthCells true false
  ∧ auth_push r = Some (data_vapidPublicKey data, data_token data).
Proof.
  intros Hmode Hform. unfold handleAuth. rewrite Hmode, Hform. cbn.
  repeat split. by rewrite <- app_assoc.
Qed.

(** X7.  A login that the server grants stores the token and the profile,
    makes the profile the current user and opens the socket with the
    token.  If the page is then loaded again over the storage it left, the
    startup finds the credential: when validation is granted the server's
    profile becomes the current user, when validation ends in the exception
    the code takes for an outage the profile that was logged in is the
    current user; either way the socket is opened with the token of the
    login. *)
Theorem login_then_reload (now : Z) (form : AuthForm) (data : AuthData)
    (cells : AuthCells) (st : AppState) :
  isLogin cells = true →
  auth_rejection true (Js.trim (form_email form)) (form_password form)
    (Js.trim <$> form_username form) = None →
  data_token data ≠ "" →
  JSON_stringify (data_user data) ≠ "" →
  JSON_parse (JSON_stringify (data_user data)) = Some (data_user data) →
  let st' := auth_app (handleAuth JSON_stringify now form (granted data) cells st) in
  currentUser st' = Some (data_user data)
  ∧ effects st' = (effects st ++ [SocketOpen (data_token data); LoadUsers])%list
  ∧ (∀ profile,
       let reloaded :=
         initializeApp JSON_parse JSON_stringify
           (FetchResolves
              (mkResponse 200 (Some "application/json") (JsonValue profile)))
           (mount (localStorage st')) in
       currentUser reloaded = Some profile
       ∧ localStorage reloaded !! "token" = Some (data_token data)
       ∧ localStorage reloaded !! "userData" = Some (JSON_stringify profile)
       ∧ effects reloaded = [SocketOpen (data_token data); LoadUsers])
  ∧ (∀ outcome error,
       validation_exception outcome = Some error →
       validation_catch error = true →
       let reloaded :=
         initializeApp JSON_parse JSON_stringify outcome (mount (localStorage st')) in
       currentUser reloaded = Some (data_user data)
       ∧ effects reloaded = [SocketOpen (data_token data); LoadUsers]).
Proof.
  intros Hmode Hform Htoken Htext Hparse st'.
  destruct (handleAuth_login_ok now form data cells st Hmode Hform)
    as (Hstore & Huser & _ & Heff & _). fold st' in Hstore, Huser, Heff.
  split; [done|]. split; [done|].
  assert (stored "token" (mount (localStorage st')) = Some (data_token data))
    as Hst.
  { unfold stored, mount; cbn. rewrite Hstore.
    rewrite lookup_insert_ne by done. rewrite lookup_insert_eq.
    apply truthy_nonempty in Htoken. by rewrite Htoken. }
  assert (stored "userData" (mount (localStorage st'))
          = Some (JSON_stringify (data_user data))) as Hsu.
  { unfold stored, mount; cbn. rewrite Hstore, lookup_insert_eq.
    apply truthy_nonempty in Htext. by rewrite Htext. }
  split.
  - intros profile reloaded. subst reloaded. unfold initializeApp.
    rewrite Hst, Hsu, Hparse. cbn. rewrite Hstore. repeat split.
    + rewrite lookup_insert_ne by done. rewrite lookup_insert_ne by done.
      apply lookup_insert_eq.
    + apply lookup_insert_eq.
  - intros outcome error Hex Hcatch reloaded. subst reloaded.
    unfold initializeApp. rewrite Hst, Hsu, Hparse.
    rewrite (validateToken_exception _ _ _ error) by done.
    rewrite Hcatch. done.
Qed.

End AuthProofs.

Lemma handleAuth_stores_only_on_login_witness :
  let r :=
    handleAuth stringify_demo 0 demo_form
      (AuthResolves
         (mkAuthResponse 401 (Some "application/json") None
            (BodyValue (mkAuthData (Some "Invalid credentials") "" alice []))))
      (mkAuthCells true false) (mount ∅) in
  localStorage (auth_app r) = ∅
  ∧ currentUser (auth_app r) = None
  ∧ effects (auth_app r) = [Alert "Invalid credentials"].
Proof.
  intros r.
  destruct (handleAuth_stores_only_on_login stringify_demo 0 demo_form
              (AuthResolves
                 (mkAuthResponse 401 (Some "application/json") None
                    (BodyValue (mkAuthData (Some "Invalid credentials") "" alice []))))
              (mkAuthCells true false) (mount ∅))
    as (Hs & Hu & _ & _ & _ & _ & _).
  - right. eexists. vm_compute. reflexivity.
  - split; [exact Hs|]. split; [exact Hu|]. vm_compute. reflexivity.
Defined.

Lemma login_then_reload_witness :
  let st' :=
    auth_app (handleAuth stringify_demo 0 demo_form (granted demo_grant)
                (mkAuthCells true false) (mount ∅)) in
  currentUser st' = Some alice
  ∧ effects st' = [SocketOpen "t1"; LoadUsers]
  ∧ currentUser
      (initializeApp parse_demo stringify_demo
         (FetchResolves (mkResponse 200 (Some "application/json") (JsonValue bob)))
         (mount (localStorage st')))
    = Some bob.
Proof.
  intros st'.
  destruct (login_then_reload parse_demo stringify_demo 0 demo_form demo_grant
              (mkAuthCells true false) (mount ∅))
    as (Hu & He & Hok & _).
  - reflexivity.
  - vm_compute. reflexivity.
  - discriminate.
  - discriminate.
  - reflexivity.
  - split; [exact Hu|]. split; [exact He|]. by destruct (Hok bob).
Defined.

(** ** The loaders *)

Ltac no_alert :=
  exists []; rewrite app_nil_r; split_and!; [done | constructor | cbn; lia].

Ltac one_alert :=
  eexists [_]; split_and!; [done | repeat constructor; by eexists | cbn; lia].

Lemma load_catch_frame (text : string) (error : JsError) (st : AppState) :
  load_catch text error st = st ∨ load_catch text error st = alert text st.
Proof. unfold load_catch. case_bool_decide; [by right | by left]. Qed.

(** X8.  Neither loader touches the session unless the user confirms the
    logout dialog: with the dialog declined (or never shown), whatever the
    request gives, the stored credentials, the current user and the socket
    are as before and the only effects are alerts, at most one of them.
    [loadUsers] then leaves the open conversation alone and [loadMessages]
    the contact list.  A request that ends in a [TypeError] changes nothing
    at all: the contact list is kept as it was, not emptied. *)
Theorem loaders_keep_session (env : Browser)
    (contacts : HttpOutcome (list User)) (userId : JsId)
    (conversation : HttpOutcome (list Message)) (st : AppState) :
  confirm_answer env = false →
  (let st' := loadUsers env contacts st in
   localStorage st' = localStorage st ∧ currentUser st' = currentUser st
   ∧ socketRef st' = socketRef st
   ∧ selectedUser st' = selectedUser st ∧ messages st' = messages st
   ∧ ∃ alerts, effects st' = (effects st ++ alerts)%list
               ∧ only_alerts alerts ∧ (length alerts ≤ 1)%nat)
  ∧ (let st' := loadMessages env userId conversation st in
     localStorage st' = localStorage st ∧ currentUser st' = currentUser st
     ∧ socketRef st' = socketRef st ∧ users st' = users st
     ∧ ∃ alerts, effects st' = (effects st ++ alerts)%list
                 ∧ only_alerts alerts ∧ (length alerts ≤ 1)%nat)
  ∧ (∀ error, err_name error = "TypeError" →
       (is_Some (stored "token" st) → loadUsers env (HttpRejects error) st = st)
       ∧ loadMessages env userId (HttpRejects error) st = st).
Proof.
  intros Hno.
  assert (∀ text error,
            let st' := load_catch text error st in
            localStorage st' = localStorage st ∧ currentUser st' = currentUser st
            ∧ socketRef st' = socketRef st
            ∧ selectedUser st' = selectedUser st ∧ messages st' = messages st
            ∧ users st' = users st
            ∧ ∃ alerts, effects st' = (effects st ++ alerts)%list
                        ∧ only_alerts alerts ∧ (length alerts ≤ 1)%nat) as Hcatch.
  { intros text error.
    destruct (load_catch_frame text error st) as [-> | ->]; cbn;
      split_and!; try done; [no_alert | one_alert]. }
  split_and!.
  - unfold loadUsers. rewrite Hno. cbn [handleLogout].
    destruct (stored "token" st) as [token|];
      [|cbn; split_and!; try done; no_alert].
    destruct contacts as [res|error].
    + destruct (is_json (http_content_type res)); cbn [negb];
        [|cbn; split_and!; try done; no_alert].
      destruct (http_ok res).
      * destruct (http_body res) as [usersData|error].
        -- cbn; split_and!; try done; no_alert.
        -- destruct (Hcatch "Failed to load users. Please check your connection and try again." error)
             as (?&?&?&?&?&?&?). done.
      * destruct (http_status res =? 401)%N.
        -- cbn; split_and!; try done; one_alert.
        -- destruct (Hcatch "Failed to load users. Please check your connection and try again."
                       (mkError "Error" "Failed to load users"))
             as (?&?&?&?&?&?&?). done.
    + destruct (Hcatch "Failed to load users. Please check your connection and try again." error)
        as (?&?&?&?&?&?&?). done.
  - unfold loadMessages, loadMessages_in. rewrite Hno. cbn [handleLogout].
    destruct conversation as [res|error].
    + destruct (is_json (http_content_type res)); cbn [negb];
        [|cbn; split_and!; try done; no_alert].
      destruct (http_ok res).
      * destruct (http_body res) as [messagesData|error].
        -- cbn; split_and!; try done; no_alert.
        -- destruct (Hcatch "Failed to load messages. Please try again." error)
             as (?&?&?&?&?&?&?). done.
      * destruct (http_status res =? 401)%N.
        -- cbn; split_and!; try done; one_alert.
        -- destruct (Hcatch "Failed to load messages. Please try again."
                       (mkError "Error" "Failed to load messages"))
             as (?&?&?&?&?&?&?). done.
    + destruct (Hcatch "Failed to load messages. Please try again." error)
        as (?&?&?&?&?&?&?). done.
  - intros error Hname. split.
    + intros [token Htoken]. unfold loadUsers, load_catch. rewrite Htoken.
      rewrite bool_decide_eq_false_2; [done|]. by intros H.
    + unfold loadMessages, loadMessages_in, load_catch.
      rewrite bool_decide_eq_false_2; [done|]. by intros H.
Qed.

Lemma find_user_spec (userId : JsId) (contacts : list User) :
  match find_user userId contacts with
  | Some u => u ∈ contacts ∧ user_id u = userId
  | None => ∀ u, u ∈ contacts → user_id u ≠ userId
  end.
Proof.
  unfold find_user. destruct (List.find _ _) as [u|] eqn:Hfind.
  - apply List.find_some in Hfind as [Hin Hid].
    apply list_elem_of_In in Hin. by apply bool_decide_eq_true in Hid.
  - intros u Hin Hid. apply list_elem_of_In in Hin.
    pose proof (List.find_none _ _ Hfind u Hin) as Hnone. cbn in Hnone.
    by rewrite bool_decide_eq_true_2 in Hnone.
Qed.

Lemma loadMessages_loaded (env : Browser) (userId : JsId)
    (res : HttpResponse (list Message)) (messagesData : list Message)
    (st : AppState) :
  is_json (http_content_type res) = true →
  http_ok res = true →
  http_body res = BodyValue messagesData →
  loadMessages env userId (HttpResolves res) st
  = set_selectedUser (find_user userId (users st)) (set_messages messagesData st).
Proof.
  intros Hjson Hok Hbody. unfold loadMessages, loadMessages_in.
  by rewrite Hjson, Hok, Hbody.
Qed.

(** X9.  When the conversation request is answered with a JSON list, the
    message sequence becomes that list, nothing is emitted, and the
    selected conversation becomes a contact with the requested id taken
    from the contact list: if no contact has that id, no conversation is
    selected afterwards, although the messages were loaded, and
    [sendMessage] then does nothing. *)
Theorem loadMessages_opens_conversation (env : Browser) (userId : JsId)
    (res : HttpResponse (list Message)) (messagesData : list Message)
    (st : AppState) :
  is_json (http_content_type res) = true →
  http_ok res = true →
  http_body res = BodyValue messagesData →
  let st' := loadMessages env userId (HttpResolves res) st in
  messages st' = messagesData
  ∧ effects st' = effects st
  ∧ users st' = users st
  ∧ match selectedUser st' with
    | Some u => u ∈ users st ∧ user_id u = userId
    | None =>
        (∀ u, u ∈ users st → user_id u ≠ userId)
        ∧ ∀ now iso emit_throws, sendMessage now iso emit_throws st' = st'
    end.
Proof.
  intros Hjson Hok Hbody. rewrite (loadMessages_loaded _ _ _ messagesData) by done.
  cbn.
  split; [done|]. split; [done|]. split; [done|].
  pose proof (find_user_spec userId (users st)) as Hfind.
  destruct (find_user userId (users st)) as [u|] eqn:Hu; [done|].
  split; [done|]. intros now iso emit_throws.
  apply sendMessage_guard. right. left. done.
Qed.

Lemma loadMessages_opens_conversation_witness :
  let res := mkHttp 200 (Some "application/json")
               (BodyValue [mkMessage (inl 5%Z) "hey" (inl 2%Z) "2025-01-01" false false]) in
  let st' := loadMessages demo_env (inl 2%Z) (HttpResolves res) chat_ready in
  messages st' = [mkMessage (inl 5%Z) "hey" (inl 2%Z) "2025-01-01" false false]
  ∧ selectedUser st' = Some bob
  ∧ selectedUser (loadMessages demo_env (inl 9%Z) (HttpResolves res) chat_ready)
    = None.
Proof.
  intros res st'.
  destruct (loadMessages_opens_conversation demo_env (inl 2%Z) res
              [mkMessage (inl 5%Z) "hey" (inl 2%Z) "2025-01-01" false false]
              chat_ready) as (Hm & _); [reflexivity..|].
  split; [exact Hm|]. split; vm_compute; reflexivity.
Defined.

Lemma loaders_keep_session_witness :
  let st' :=
    loadUsers demo_env
      (HttpResolves (mkHttp 401 (Some "application/json") (BodyValue [])))
      chat_ready in
  localStorage st' = localStorage chat_ready
  ∧ currentUser st' = currentUser chat_ready
  ∧ socketRef st' = socketRef chat_ready.
Proof.
  intros st'.
  destruct (loaders_keep_session demo_env
              (HttpResolves (mkHttp 401 (Some "application/json") (BodyValue [])))
              (inl 2%Z) (HttpRejects (mkError "TypeError" "Failed to fetch"))
              chat_ready) as ((H1 & H2 & H3 & _) & _); [reflexivity|].
  split; [exact H1|]. split; [exact H2 | exact H3].
Defined.

(** ** Switching the conversation after a send *)

Lemma same_upto_pending_ids (l l' : list Message) (id : JsId) :
  Forall2 same_upto_pending l l' →
  (∀ m, m ∈ l → msg_id m ≠ id) → ∀ m, m ∈ l' → msg_id m ≠ id.
Proof.
  induction 1 as [|a b l l' Hab _ IH]; intros Hl m Hm.
  - by apply elem_of_nil in Hm.
  - apply elem_of_cons in Hm as [-> | Hm].
    + destruct Hab as (<- & _). apply Hl. apply elem_of_cons. by left.
    + apply IH; [|done]. intros m' Hm'. apply Hl. apply elem_of_cons. by right.
Qed.

(** X10.  A message is sent and emitted, and before its delivery timer
    fires another conversation is loaded whose list has no message with
    the provisional id.  Then the optimistic message is gone from the
    message sequence, and it stays gone: at every later time the sequence
    is the loaded list up to pending flags, so the sent message is shown
    neither as pending nor as delivered. *)
Theorem switch_drops_optimistic_message (env : Browser) (now : Z) (iso : string)
    (st : AppState) (sel me : User) (sock : Socket) (userId : JsId)
    (res : HttpResponse (list Message)) (messagesData : list Message) :
  timers_wf st →
  Js.truthy (Js.trim (newMessage st)) = true →
  selectedUser st = Some sel →
  socketRef st = Some sock →
  currentUser st = Some me →
  is_json (http_content_type res) = true →
  http_ok res = true →
  http_body res = BodyValue messagesData →
  (∀ m, m ∈ messagesData → msg_id m ≠ inl now) →
  let st1 := sendMessage now iso false st in
  let st2 := loadMessages env userId (HttpResolves res) st1 in
  SocketEmit "send_message" (user_id sel) (Some (Js.trim (newMessage st)))
    ∈ effects st2
  ∧ messages st2 = messagesData
  ∧ ∀ t, Forall2 same_upto_pending messagesData (messages (advance_to t st2))
         ∧ ∀ m, m ∈ messages (advance_to t st2) → msg_id m ≠ inl now.
Proof.
  intros Hwf Htext Hsel Hsock Hme Hjson Hok Hbody Hfresh st1 st2.
  destruct (sendMessage_sent now iso st sel me sock Htext Hsel Hsock Hme)
    as (_ & _ & _ & _ & _ & Heff). fold st1 in Heff.
  pose proof (sendMessage_wf now iso false st Hwf) as Hwf1. fold st1 in Hwf1.
  pose proof (loadMessages_loaded env userId res messagesData st1 Hjson Hok Hbody)
    as Hload. fold st2 in Hload.
  assert (messages st2 = messagesData) as Hm by by rewrite Hload.
  assert (effects st2 = effects st1) as He by by rewrite Hload.
  assert (timers st2 = timers st1) as Ht by by rewrite Hload.
  split; [|split; [done|]].
  - rewrite He, Heff. apply elem_of_app. right. by apply list_elem_of_singleton.
  - intros t.
    assert (Forall2 same_upto_pending messagesData (messages (advance_to t st2)))
      as Hsame.
    { rewrite <- Hm. unfold advance_to. apply run_until_frame.
      rewrite Ht. apply Hwf1. }
    split; [done|]. by eapply same_upto_pending_ids.
Qed.

Lemma switch_drops_optimistic_message_witness :
  let st := type_at 0 "hi" chat_ready in
  let res := mkHttp 200 (Some "application/json")
               (BodyValue [mkMessage (inl 5%Z) "hey" (inl 1%Z) "2025-01-01" false false]) in
  let st2 :=
    loadMessages demo_env (inl 1%Z) (HttpResolves res)
      (sendMessage 500 "iso" false st) in
  SocketEmit "send_message" (inl 2%Z) (Some "hi") ∈ effects st2
  ∧ ∀ m, m ∈ messages (advance_to 1500 st2) → msg_id m ≠ inl 500%Z.
Proof.
  intros st res st2.
  destruct (switch_drops_optimistic_message demo_env 500 "iso" st bob alice
              (mkSocket "t1" None) (inl 1%Z) res
              [mkMessage (inl 5%Z) "hey" (inl 1%Z) "2025-01-01" false false])
    as (Hemit & _ & Hlater).
  - exact typed_hi_wf.
  - reflexivity.
  - reflexivity.
  - reflexivity.
  - reflexivity.
  - reflexivity.
  - reflexivity.
  - reflexivity.
  - intros m Hm. apply list_elem_of_singleton in Hm as ->. discriminate.
  - split; [exact Hemit|]. by destruct (Hlater 1500%Z).
Defined.

(** ** Presence over a trace of events *)

Lemma on_socket_event_online (env : Browser) (sock : Socket) (ev : SocketEvent)
    (st : AppState) :
  socketRef st = Some sock →
  onlineUsers (on_socket_event env ev st)
  = match ev with
    | EvUserOnline i => Presence.user_online i (onlineUsers st)
    | EvUserOffline i => Presence.user_offline i (onlineUsers st)
    | _ => onlineUsers st
    end.
Proof.
  intros Hs. unfold on_socket_event. rewrite Hs. destruct ev; cbn; try done.
  - unfold on_connect_error. destruct (is_auth_failure error); [|done].
    unfold handleLogout. destruct (confirm_answer env); [|done].
    cbn. by destruct (socketRef st).
  - unfold on_message.
    by destruct (document_hidden env), (notification_supported env),
      (notification_permission env).
  - unfold on_error. destruct message as [m|]; [|done]. by destruct (_ && _).
Qed.

(** X11.  On a socket with listeners, whether a contact reads as online
    after a trace of events depends only on the events about that contact:
    it is what the last [user_online] or [user_offline] event for the id
    says, and what it was before if the trace has none.  Events about other
    contacts, messages, connection changes and a logout do not change it. *)
Theorem presence_follows_last_event (env : Browser) (sock : Socket)
    (evs : list SocketEvent) (id : JsId) (st : AppState) :
  socketRef st = Some sock →
  Presence.online (onlineUsers (run_events env evs st)) id
  = presence_after id evs (Presence.online (onlineUsers st) id).
Proof.
  revert st. induction evs as [|ev evs IH]; intros st Hs; [done|].
  cbn [run_events fold_left presence_after].
  destruct (on_socket_event_status env sock ev st Hs) as [Hs' _].
  fold (run_events env evs (on_socket_event env ev st)).
  rewrite (IH _ Hs'). unfold presence_after. f_equal.
  rewrite (on_socket_event_online env sock) by done.
  unfold Presence.online, Presence.user_online, Presence.user_offline.
  destruct ev; try done.
  - case_decide as Hid.
    + subst. apply bool_decide_eq_true. apply elem_of_union. right.
      by apply elem_of_singleton.
    + apply bool_decide_ext. rewrite elem_of_union, elem_of_singleton.
      split; [by intros [? | ?] | by left].
  - case_decide as Hid.
    + subst. apply bool_decide_eq_false. rewrite elem_of_difference, elem_of_singleton.
      tauto.
    + apply bool_decide_ext. rewrite elem_of_difference, elem_of_singleton.
      split; [by intros [? _] | done].
Qed.

Lemma presence_follows_last_event_witness :
  let evs := [EvUserOnline (inl 2%Z); EvUserOffline (inl 7%Z);
              EvMessage (mkMessage (inl 3%Z) "x" (inl 2%Z) "d" false false);
              EvUserOffline (inl 2%Z); EvUserOnline (inl 7%Z)] in
  Presence.online (onlineUsers (run_events demo_env evs presence_demo)) (inl 2%Z)
    = false
  ∧ Presence.online (onlineUsers (run_events demo_env evs presence_demo)) (inl 7%Z)
    = true.
Proof.
  intros evs.
  rewrite !(presence_follows_last_event demo_env (mkSocket "t1" None))
    by reflexivity.
  split; vm_compute; reflexivity.
Defined.

(** ** What the handlers leave alone *)

Lemma handleTypingStop_in_presence (sel : option User) (typing : bool)
    (st : AppState) :
  presence_kept st (handleTypingStop_in sel typing st).
Proof. unfold handleTypingStop_in, clearTimeout. break_matches; by split. Qed.

Lemma handleTypingStart_presence (now : Z) (st : AppState) :
  presence_kept st (handleTypingStart now st).
Proof.
  unfold handleTypingStart, clearTimeout, setTimeout. break_matches; by split.
Qed.

Lemma fire_presence (tid : N) (st : AppState) : presence_kept st (fire tid st).
Proof.
  unfold fire. destruct (List.find _ _) as [tm|]; [|by split].
  destruct (callback tm) as [sel typing|id]; cbn [run_callback].
  - destruct (handleTypingStop_in_presence sel typing
                (set_timers (filter (fun t' => timer_id t' ≠ tid) (timers st)) st))
      as [H1 H2]. by split.
  - by split.
Qed.

Lemma run_until_presence (fuel : nat) (t : Z) (st : AppState) :
  presence_kept st (run_until fuel t st).
Proof.
  revert st. induction fuel as [|fuel IH]; intros st; [by split|].
  cbn [run_until]. destruct (earliest (timers st)) as [tm|]; [|by split].
  destruct (due tm <=? t)%Z; [|by split].
  destruct (fire_presence (timer_id tm) st) as [H1 H2].
  destruct (IH (fire (timer_id tm) st)) as [H3 H4]. split; congruence.
Qed.

Lemma sendMessage_presence (now : Z) (iso : string) (emit_throws : bool)
    (st : AppState) :
  presence_kept st (sendMessage now iso emit_throws st).
Proof.
  unfold sendMessage.
  destruct (Js.truthy _); [|by split].
  destruct (selectedUser st) as [sel|]; [|by split].
  destruct (socketRef st) as [sock|]; [|by split].
  destruct (handleTypingStop_in_presence (selectedUser st) (isTyping st) st)
    as [H1 H2]. fold (handleTypingStop st) in H1, H2.
  destruct (currentUser st); [|by split].
  destruct emit_throws; by split.
Qed.

Lemma handleLogout_presence (confirmed : bool) (st : AppState) :
  presence_kept st (handleLogout confirmed st).
Proof.
  unfold handleLogout. destruct confirmed; [|by split].
  cbn [clearAuthData set_currentUser set_localStorage set_selectedUser
       set_messages set_users socketRef].
  by destruct (socketRef st).
Qed.

Lemma load_catch_presence (text : string) (error : JsError) (st : AppState) :
  presence_kept st (load_catch text error st).
Proof. destruct (load_catch_frame text error st) as [-> | ->]; by split. Qed.

Lemma loadUsers_presence (env : Browser) (outcome : HttpOutcome (list User))
    (st : AppState) :
  presence_kept st (loadUsers env outcome st).
Proof.
  pose proof (handleLogout_presence (confirm_answer env) st) as [H1 H2].
  unfold loadUsers.
  destruct (stored "token" st); [|by split].
  destruct outcome as [res|error]; [|apply load_catch_presence].
  destruct (is_json _); cbn [negb]; [|by split].
  destruct (http_ok res).
  - destruct (http_body res); [by split | apply load_catch_presence].
  - destruct (_ =? _)%N; [by split | apply load_catch_presence].
Qed.

Lemma loadMessages_presence (env : Browser) (userId : JsId)
    (outcome : HttpOutcome (list Message)) (st : AppState) :
  presence_kept st (loadMessages env userId outcome st).
Proof.
  pose proof (handleLogout_presence (confirm_answer env) st) as [H1 H2].
  unfold loadMessages, loadMessages_in.
  destruct outcome as [res|error]; [|apply load_catch_presence].
  destruct (is_json _); cbn [negb]; [|by split].
  destruct (http_ok res).
  - destruct (http_body res); [by split | apply load_catch_presence].
  - destruct (_ =? _)%N; [by split | apply load_catch_presence].
Qed.

Lemma loadUsers_settle_presence (env : Browser)
    (outcome : HttpOutcome (list User)) (st : AppState) :
  presence_kept st (loadUsers_settle env outcome st).
Proof.
  pose proof (handleLogout_presence (confirm_answer env) st) as [H1 H2].
  unfold loadUsers_settle.
  destruct outcome as [res|error]; [|apply load_catch_presence].
  destruct (is_json _); cbn [negb]; [|by split].
  destruct (http_ok res).
  - destruct (http_body res); [by split | apply load_catch_presence].
  - destruct (_ =? _)%N; [by split | apply load_catch_presence].
Qed.

Lemma loadMessages_in_presence (contacts : list User) (env : Browser)
    (userId : JsId) (outcome : HttpOutcome (list Message)) (st : AppState) :
  presence_kept st (loadMessages_in contacts env userId outcome st).
Proof.
  pose proof (handleLogout_presence (confirm_answer env) st) as [H1 H2].
  unfold loadMessages_in.
  destruct outcome as [res|error]; [|apply load_catch_presence].
  destruct (is_json _); cbn [negb]; [|by split].
  destruct (http_ok res).
  - destruct (http_body res); [by split | apply load_catch_presence].
  - destruct (_ =? _)%N; [by split | apply load_catch_presence].
Qed.

Section TraceProofs.

Variable JSON_parse : string -> option User.
Variable JSON_stringify : User -> string.

Lemma initializeApp_begin_presence (st : AppState) :
  presence_kept st (snd (initializeApp_begin JSON_parse st)).
Proof.
  unfold initializeApp_begin.
  destruct (stored "token" st); [|by split].
  destruct (stored "userData" st); [|by split].
  by destruct (JSON_parse _).
Qed.

Lemma initializeApp_settle_presence (sel : option User) (token : string)
    (outcome : FetchOutcome) (st : AppState) :
  presence_kept st (initializeApp_settle JSON_stringify sel token outcome st).
Proof.
  unfold initializeApp_settle.
  destruct outcome as [res|error]; cbn [validateToken].
  - destruct (negb _); [by split|]. destruct (res_ok res); [|by split].
    destruct (json_body res); [by split|]. by destruct (validation_catch _).
  - by destruct (validation_catch _).
Qed.

Lemma initializeApp_presence (outcome : FetchOutcome) (st : AppState) :
  presence_kept st (initializeApp JSON_parse JSON_stringify outcome st).
Proof.
  unfold initializeApp.
  destruct (stored "token" st); [|by split].
  destruct (stored "userData" st); [|by split].
  destruct (JSON_parse _); [|by split].
  destruct outcome as [res|error]; cbn [validateToken].
  - destruct (negb _); [by split|]. destruct (res_ok res); [|by split].
    destruct (json_body res); [by split|]. by destruct (validation_catch _).
  - by destruct (validation_catch _).
Qed.

Lemma handleAuth_presence (now : Z) (form : AuthForm) (outcome : AuthOutcome)
    (cells : AuthCells) (st : AppState) :
  presence_kept st (auth_app (handleAuth JSON_stringify now form outcome cells st)).
Proof.
  unfold handleAuth. destruct (auth_rejection _ _ _ _); [by split|].
  destruct (auth_body outcome); [by split|]. by destruct (isLogin cells).
Qed.

Lemma act_presence (env : Browser) (a : Action) (st : AppState) :
  (∀ ev, a ≠ ASocket ev) →
  presence_kept st (act JSON_parse JSON_stringify env a st).
Proof.
  intros Ha. destruct a; cbn [act].
  - apply initializeApp_presence.
  - apply handleAuth_presence.
  - by destruct (Ha ev).
  - unfold handleInputChange. destruct (Js.truthy _).
    + destruct (handleTypingStart_presence now (set_newMessage value st)). by split.
    + destruct (handleTypingStop_in_presence
                  (selectedUser (set_newMessage value st))
                  (isTyping (set_newMessage value st)) (set_newMessage value st)).
      by split.
  - apply sendMessage_presence.
  - apply run_until_presence.
  - apply handleLogout_presence.
  - apply loadUsers_presence.
  - apply loadMessages_presence.
  - by split.
  - apply initializeApp_begin_presence.
  - apply initializeApp_settle_presence.
  - apply loadUsers_settle_presence.
  - apply loadMessages_in_presence.
Qed.

Lemma on_socket_event_typing (env : Browser) (ev : SocketEvent) (id : JsId)
    (st : AppState) :
  ev ≠ EvTypingStop id →
  id ∈ typingUsers st → id ∈ typingUsers (on_socket_event env ev st).
Proof.
  intros Hev Hin. unfold on_socket_event. destruct (socketRef st); [|done].
  destruct ev; cbn; try done.
  - unfold on_connect_error. destruct (is_auth_failure error); [|done].
    destruct (handleLogout_presence (confirm_answer env)
                (setConnectionStatus ConnError st)) as [H _].
    cbn [alert perform set_effects typingUsers]. by rewrite H.
  - unfold on_message.
    by destruct (document_hidden env), (notification_supported env),
      (notification_permission env).
  - unfold Presence.user_online. apply elem_of_union. by left.
  - unfold Presence.user_offline. apply elem_of_difference. split; [done|].
    rewrite elem_of_singleton. intros ->. done.
  - unfold on_error. destruct message as [m|]; [|done]. by destruct (_ && _).
Qed.

Lemma on_socket_event_stays_online (env : Browser) (ev : SocketEvent) (id : JsId)
    (st : AppState) :
  ev ≠ EvUserOffline id →
  id ∈ onlineUsers st → id ∈ onlineUsers (on_socket_event env ev st).
Proof.
  intros Hev Hin. unfold on_socket_event. destruct (socketRef st); [|done].
  destruct ev; cbn; try done.
  - unfold on_connect_error. destruct (is_auth_failure error); [|done].
    destruct (handleLogout_presence (confirm_answer env)
                (setConnectionStatus ConnError st)) as [_ H].
    cbn [alert perform set_effects onlineUsers]. by rewrite H.
  - unfold on_message.
    by destruct (document_hidden env), (notification_supported env),
      (notification_permission env).
  - unfold Presence.user_online. apply elem_of_union. by left.
  - unfold Presence.user_offline. apply elem_of_difference. split; [done|].
    rewrite elem_of_singleton. intros ->. done.
  - unfold on_error. destruct message as [m|]; [|done]. by destruct (_ && _).
Qed.

(** X12.  Presence has no expiry on this side.  Through any run of
    handler calls (startup, login, socket events, key strokes, sends, the
    clock advancing and timers firing, logout, the loaders, going back) a
    contact that is marked as typing stays marked until a [typing_stop]
    event for it arrives, and a contact that is online stays online until a
    [user_offline] event for it arrives: no timer, no disconnect and no
    logout removes either mark. *)
Theorem presence_marks_persist (env : Browser) (actions : list Action)
    (id : JsId) (st : AppState) :
  (id ∈ typingUsers st →
   Forall (fun a => a ≠ ASocket (EvTypingStop id)) actions →
   id ∈ typingUsers (run JSON_parse JSON_stringify env actions st))
  ∧ (id ∈ onlineUsers st →
     Forall (fun a => a ≠ ASocket (EvUserOffline id)) actions →
     id ∈ onlineUsers (run JSON_parse JSON_stringify env actions st)).
Proof.
  split.
  - intros Hin Hactions. revert st Hin.
    induction Hactions as [|a actions Ha _ IH]; intros st Hin; [done|].
    cbn [run fold_left]. apply IH.
    assert ((∃ ev, a = ASocket ev) ∨ ∀ ev, a ≠ ASocket ev) as [[ev ->] | Hno]
      by (destruct a; first [by (left; eexists) | by right]).
    + cbn [act]. apply on_socket_event_typing; [|done]. congruence.
    + by destruct (act_presence env a st Hno) as [-> _].
  - intros Hin Hactions. revert st Hin.
    induction Hactions as [|a actions Ha _ IH]; intros st Hin; [done|].
    cbn [run fold_left]. apply IH.
    assert ((∃ ev, a = ASocket ev) ∨ ∀ ev, a ≠ ASocket ev) as [[ev ->] | Hno]
      by (destruct a; first [by (left; eexists) | by right]).
    + cbn [act]. apply on_socket_event_stays_online; [|done]. congruence.
    + by destruct (act_presence env a st Hno) as [_ ->].
Qed.

End TraceProofs.

Lemma presence_marks_persist_witness :
  let st := on_socket_event demo_env (EvTypingStart (inl 2%Z)) chat_ready in
  let actions :=
    [AInput 0 "hi"; ASocket (EvUserOffline (inl 2%Z)); AClock 600000;
     ASocket (EvDisconnect "transport close"); ABack] in
  inl 2%Z ∈ typingUsers (run parse_demo stringify_demo demo_env actions st).
Proof.
  intros st actions.
  apply (presence_marks_persist parse_demo stringify_demo demo_env actions
           (inl 2%Z) st).
  - apply (bool_decide_unpack _). vm_compute. exact I.
  - repeat constructor; discriminate.
Defined.

(** ** Who emits on the socket *)

Lemma emits_of_app (event : string) (l l' : list Effect) :
  emits_of event (l ++ l') = (emits_of event l ++ emits_of event l')%list.
Proof. unfold emits_of. apply filter_app. Qed.

Lemma emits_of_no_emit (event : string) (extra : list Effect) :
  Forall no_emit extra → emits_of event extra = [].
Proof.
  unfold emits_of. induction 1 as [|e extra He _ IH]; [done|].
  rewrite filter_cons_False; [done|]. by destruct e.
Qed.

Lemma quiet_refl (st : AppState) : quiet st st.
Proof. split_and!; try done. exists []. by rewrite app_nil_r. Qed.

Lemma quiet_trans (a b c : AppState) : quiet a b → quiet b c → quiet a c.
Proof.
  intros (H1 & H2 & e1 & H3 & H4) (H5 & H6 & e2 & H7 & H8).
  split_and!; [congruence | congruence |]. exists (e1 ++ e2)%list.
  split; [by rewrite H7, H3, app_assoc | by apply Forall_app].
Qed.

Lemma quiet_perform (e : Effect) (st : AppState) : no_emit e → quiet st (perform e st).
Proof.
  intros He. split_and!; try done. exists [e]. split; [done|]. by constructor.
Qed.

Ltac quiet_leaf :=
  split_and!;
  [done | done
  | first [ by (exists []; rewrite app_nil_r)
          | eexists; split;
            [cbn; rewrite <- ?app_assoc; reflexivity | by repeat constructor] ] ].

Lemma handleLogout_quiet (confirmed : bool) (st : AppState) :
  quiet st (handleLogout confirmed st).
Proof.
  unfold handleLogout. destruct confirmed; [|apply quiet_refl].
  cbn [clearAuthData set_currentUser set_localStorage set_selectedUser
       set_messages set_users socketRef].
  destruct (socketRef st); quiet_leaf.
Qed.

Lemma load_catch_quiet (text : string) (error : JsError) (st : AppState) :
  quiet st (load_catch text error st).
Proof.
  destruct (load_catch_frame text error st) as [-> | ->];
    [apply quiet_refl | by apply quiet_perform].
Qed.

Lemma loadUsers_quiet (env : Browser) (outcome : HttpOutcome (list User))
    (st : AppState) :
  quiet st (loadUsers env outcome st).
Proof.
  pose proof (handleLogout_quiet (confirm_answer env) st) as Hout.
  unfold loadUsers.
  destruct (stored "token" st); [|done].
  destruct outcome as [res|error]; [|apply load_catch_quiet].
  destruct (is_json _); cbn [negb]; [|quiet_leaf].
  destruct (http_ok res).
  - destruct (http_body res); [quiet_leaf | apply load_catch_quiet].
  - destruct (_ =? _)%N; [|apply load_catch_quiet].
    eapply quiet_trans; [exact Hout | by apply quiet_perform].
Qed.

Lemma loadMessages_quiet (env : Browser) (userId : JsId)
    (outcome : HttpOutcome (list Message)) (st : AppState) :
  quiet st (loadMessages env userId outcome st).
Proof.
  pose proof (handleLogout_quiet (confirm_answer env) st) as Hout.
  unfold loadMessages, loadMessages_in.
  destruct outcome as [res|error]; [|apply load_catch_quiet].
  destruct (is_json _); cbn [negb]; [|quiet_leaf].
  destruct (http_ok res).
  - destruct (http_body res); [quiet_leaf | apply load_catch_quiet].
  - destruct (_ =? _)%N; [|apply load_catch_quiet].
    eapply quiet_trans; [exact Hout | by apply quiet_perform].
Qed.

Lemma loadUsers_settle_quiet (env : Browser) (outcome : HttpOutcome (list User))
    (st : AppState) :
  quiet st (loadUsers_settle env outcome st).
Proof.
  pose proof (handleLogout_quiet (confirm_answer env) st) as Hout.
  unfold loadUsers_settle.
  destruct outcome as [res|error]; [|apply load_catch_quiet].
  destruct (is_json _); cbn [negb]; [|quiet_leaf].
  destruct (http_ok res).
  - destruct (http_body res); [quiet_leaf | apply load_catch_quiet].
  - destruct (_ =? _)%N; [|apply load_catch_quiet].
    eapply quiet_trans; [exact Hout | by apply quiet_perform].
Qed.

Lemma loadMessages_in_quiet (contacts : list User) (env : Browser)
    (userId : JsId) (outcome : HttpOutcome (list Message)) (st : AppState) :
  quiet st (loadMessages_in contacts env userId outcome st).
Proof.
  pose proof (handleLogout_quiet (confirm_answer env) st) as Hout.
  unfold loadMessages_in.
  destruct outcome as [res|error]; [|apply load_catch_quiet].
  destruct (is_json _); cbn [negb]; [|quiet_leaf].
  destruct (http_ok res).
  - destruct (http_body res); [quiet_leaf | apply load_catch_quiet].
  - destruct (_ =? _)%N; [|apply load_catch_quiet].
    eapply quiet_trans; [exact Hout | by apply quiet_perform].
Qed.

Lemma on_socket_event_quiet (env : Browser) (ev : SocketEvent) (st : AppState) :
  quiet st (on_socket_event env ev st).
Proof.
  unfold on_socket_event. destruct (socketRef st); [|apply quiet_refl].
  destruct ev; try quiet_leaf.
  - unfold on_connect_error. destruct (is_auth_failure error); [|quiet_leaf].
    eapply quiet_trans; [|by apply quiet_perform].
    eapply quiet_trans; [|apply handleLogout_quiet]. quiet_leaf.
  - unfold on_message.
    destruct (document_hidden env), (notification_supported env),
      (notification_permission env); quiet_leaf.
  - unfold on_error. destruct message as [m|]; [|apply quiet_refl].
    destruct (_ && _); [by apply quiet_perform | apply quiet_refl].
Qed.

Lemma emit_balance (st st' : AppState) (e : Effect) :
  effects st' = (effects st ++ [e])%list →
  length (emits_of "typing_start" (effects st'))
  = (length (emits_of "typing_start" (effects st))
     + (if emit_named "typing_start" e then 1 else 0))%nat
  ∧ length (emits_of "typing_stop" (effects st'))
    = (length (emits_of "typing_stop" (effects st))
       + (if emit_named "typing_stop" e then 1 else 0))%nat.
Proof.
  intros ->. rewrite !emits_of_app, !length_app. unfold emits_of.
  rewrite !filter_cons, !filter_nil.
  split; destruct (emit_named _ e); by case_decide.
Qed.

Lemma quiet_balanced (st st' : AppState) :
  quiet st st' →
  (callbacks_stale st → callbacks_stale st')
  ∧ (typing_balanced st → typing_balanced st').
Proof.
  intros (Hty & Ht & extra & He & Hextra). unfold callbacks_stale, typing_balanced.
  rewrite Hty, Ht, He, !emits_of_app, !(emits_of_no_emit _ extra), !app_nil_r;
    done.
Qed.

Lemma clearTimeout_stale (ref : option N) (st : AppState) :
  callbacks_stale st → callbacks_stale (clearTimeout ref st).
Proof.
  unfold callbacks_stale, clearTimeout. destruct ref as [k|]; [|done]. cbn.
  intros H. apply Forall_forall. intros t Ht.
  apply list_elem_of_filter in Ht as [_ Ht]. by eapply Forall_forall in H.
Qed.

Lemma handleTypingStop_balanced (st : AppState) :
  callbacks_stale st → typing_balanced st →
  callbacks_stale (handleTypingStop st) ∧ typing_balanced (handleTypingStop st)
  ∧ (isTyping st = false → handleTypingStop st = st).
Proof.
  intros Hstale Hbal. unfold handleTypingStop, handleTypingStop_in.
  destruct (selectedUser st) as [u|]; [|done].
  destruct (socketRef st) as [sock|]; [|done].
  destruct (isTyping st) eqn:Hty; [|done].
  set (st2 := emit "typing_stop" (user_id u) None (set_isTyping false st)).
  assert (callbacks_stale st2) as Hstale2 by done.
  split; [by apply clearTimeout_stale|]. split; [|done].
  destruct (emit_balance st st2 (SocketEmit "typing_stop" (user_id u) None))
    as [Hs Hp]; [done|].
  assert (effects (clearTimeout (typingTimeoutRef st2) st2) = effects st2
          ∧ isTyping (clearTimeout (typingTimeoutRef st2) st2) = false) as [He Hi].
  { unfold clearTimeout. by destruct (typingTimeoutRef st2). }
  unfold typing_balanced in *. cbn [emit_named] in Hs, Hp.
  rewrite He, Hi, Hs, Hp, Hbal, Hty. repeat case_bool_decide; first [done | cbn; lia].
Qed.

Lemma handleTypingStart_balanced (now : Z) (st : AppState) :
  callbacks_stale st → typing_balanced st →
  callbacks_stale (handleTypingStart now st)
  ∧ typing_balanced (handleTypingStart now st).
Proof.
  intros Hstale Hbal. unfold handleTypingStart.
  destruct (selectedUser st) as [u|] eqn:Hu; [|done].
  destruct (socketRef st) as [sock|]; [|done].
  destruct (isTyping st) eqn:Hty; [done|].
  set (st2 := emit "typing_start" (user_id u) None (set_isTyping true st)).
  destruct (emit_balance st st2 (SocketEmit "typing_start" (user_id u) None))
    as [Hs Hp]; [done|].
  assert (callbacks_stale (clearTimeout (typingTimeoutRef st2) st2)) as Hstale3
    by by apply clearTimeout_stale.
  assert (effects (clearTimeout (typingTimeoutRef st2) st2) = effects st2
          ∧ isTyping (clearTimeout (typingTimeoutRef st2) st2) = true) as [He Hi].
  { unfold clearTimeout. by destruct (typingTimeoutRef st2). }
  cbn [setTimeout]. split.
  - unfold callbacks_stale in *. cbn. apply Forall_app. split; [done|].
    by repeat constructor.
  - unfold typing_balanced in *. cbn [effects isTyping set_typingTimeoutRef
      set_next_timer set_timers]. cbn [emit_named] in Hs, Hp.
    rewrite He, Hi, Hs, Hp, Hbal, Hty. repeat case_bool_decide; first [done | cbn; lia].
Qed.

Lemma fire_balanced (tid : N) (st : AppState) :
  callbacks_stale st → typing_balanced st →
  callbacks_stale (fire tid st) ∧ typing_balanced (fire tid st)
  ∧ effects (fire tid st) = effects st.
Proof.
  intros Hstale Hbal. unfold fire.
  destruct (List.find _ _) as [tm|] eqn:Hfind; [|done].
  apply List.find_some in Hfind as [Hin _]. apply list_elem_of_In in Hin.
  set (st0 := set_timers (filter (fun t' => timer_id t' ≠ tid) (timers st)) st).
  assert (callbacks_stale st0) as Hstale0.
  { unfold callbacks_stale in *. cbn. apply Forall_forall. intros t Ht.
    apply list_elem_of_filter in Ht as [_ Ht]. by eapply Forall_forall in Hstale. }
  unfold callbacks_stale in Hstale. eapply Forall_forall in Hstale; [|exact Hin].
  destruct (callback tm) as [sel typing|id].
  - subst typing. by rewrite stale_typing_stop_inert.
  - done.
Qed.

Lemma run_until_balanced (fuel : nat) (t : Z) (st : AppState) :
  callbacks_stale st → typing_balanced st →
  callbacks_stale (run_until fuel t st) ∧ typing_balanced (run_until fuel t st)
  ∧ effects (run_until fuel t st) = effects st.
Proof.
  revert st. induction fuel as [|fuel IH]; intros st Hstale Hbal; [done|].
  cbn [run_until]. destruct (earliest (timers st)) as [tm|]; [|done].
  destruct (due tm <=? t)%Z; [|done].
  destruct (fire_balanced (timer_id tm) st Hstale Hbal) as (H1 & H2 & H3).
  destruct (IH _ H1 H2) as (H4 & H5 & H6). split_and!; [done | done | congruence].
Qed.

Lemma sendMessage_balanced (now : Z) (iso : string) (emit_throws : bool)
    (st : AppState) :
  callbacks_stale st → typing_balanced st →
  callbacks_stale (sendMessage now iso emit_throws st)
  ∧ typing_balanced (sendMessage now iso emit_throws st).
Proof.
  intros Hstale Hbal.
  destruct (handleTypingStop_balanced st Hstale Hbal) as (Hs1 & Hb1 & _).
  unfold sendMessage.
  destruct (Js.truthy _); [|done].
  destruct (selectedUser st) as [sel|]; [|done].
  destruct (socketRef st) as [sock|]; [|done].
  destruct (currentUser st) as [me|]; [|done].
  set (st1 := handleTypingStop st) in *.
  destruct emit_throws.
  - match goal with
    | |- callbacks_stale ?s ∧ _ =>
        destruct (quiet_balanced st1 s) as [Ha Hb];
          [quiet_leaf | split; [by apply Ha | by apply Hb]]
    end.
  - cbn [setTimeout snd]. split.
    + unfold callbacks_stale in *. cbn. apply Forall_app. split; [done|].
      by repeat constructor.
    + set (body := Some _).
      destruct (emit_balance st1
                  (emit "send_message" (user_id sel) body
                     (set_newMessage ""
                        (set_messages (messages st1 ++ [mkMessage (inl now)
                           (Js.trim (newMessage st)) (user_id me) iso true true]) st1)))
                  (SocketEmit "send_message" (user_id sel) body)) as [Hs Hp]; [done|].
      unfold typing_balanced in *. cbn [effects isTyping set_next_timer set_timers].
      cbn [effects isTyping emit perform set_effects set_newMessage set_messages] in Hs, Hp |- *.
      cbn [emit_named] in Hs, Hp.
      rewrite Hs, Hp, Hb1. repeat case_bool_decide; first [done | cbn; lia].
Qed.

Section BalanceProofs.

Variable JSON_parse : string -> option User.
Variable JSON_stringify : User -> string.

Lemma initializeApp_quiet (outcome : FetchOutcome) (st : AppState) :
  quiet st (initializeApp JSON_parse JSON_stringify outcome st).
Proof.
  unfold initializeApp.
  destruct (stored "token" st); [|apply quiet_refl].
  destruct (stored "userData" st); [|apply quiet_refl].
  destruct (JSON_parse _); [|quiet_leaf].
  destruct outcome as [res|error]; cbn [validateToken].
  - destruct (negb _); [quiet_leaf|]. destruct (res_ok res); [|quiet_leaf].
    destruct (json_body res); [quiet_leaf|].
    destruct (validation_catch _); quiet_leaf.
  - destruct (validation_catch _); quiet_leaf.
Qed.

Lemma initializeApp_begin_quiet (st : AppState) :
  quiet st (snd (initializeApp_begin JSON_parse st)).
Proof.
  unfold initializeApp_begin.
  destruct (stored "token" st); [|apply quiet_refl].
  destruct (stored "userData" st); [|apply quiet_refl].
  destruct (JSON_parse _); quiet_leaf.
Qed.

Lemma initializeApp_settle_quiet (sel : option User) (token : string)
    (outcome : FetchOutcome) (st : AppState) :
  quiet st (initializeApp_settle JSON_stringify sel token outcome st).
Proof.
  unfold initializeApp_settle.
  destruct outcome as [res|error]; cbn [validateToken].
  - destruct (negb _); [quiet_leaf|]. destruct (res_ok res); [|quiet_leaf].
    destruct (json_body res); [quiet_leaf|].
    destruct (validation_catch _); quiet_leaf.
  - destruct (validation_catch _); quiet_leaf.
Qed.

Lemma handleAuth_quiet (now : Z) (form : AuthForm) (outcome : AuthOutcome)
    (cells : AuthCells) (st : AppState) :
  quiet st (auth_app (handleAuth JSON_stringify now form outcome cells st)).
Proof.
  unfold handleAuth. destruct (auth_rejection _ _ _ _); [quiet_leaf|].
  destruct (auth_body outcome); [quiet_leaf|].
  destruct (isLogin cells); quiet_leaf.
Qed.

Lemma act_balanced (env : Browser) (a : Action) (st : AppState) :
  callbacks_stale st → typing_balanced st →
  callbacks_stale (act JSON_parse JSON_stringify env a st)
  ∧ typing_balanced (act JSON_parse JSON_stringify env a st)
  ∧ (emits_nothing a →
     ∃ extra, effects (act JSON_parse JSON_stringify env a st)
              = (effects st ++ extra)%list ∧ Forall no_emit extra).
Proof.
  intros Hstale Hbal.
  assert (∀ st', quiet st st' →
            callbacks_stale st' ∧ typing_balanced st'
            ∧ ∃ extra, effects st' = (effects st ++ extra)%list
                       ∧ Forall no_emit extra) as Hquiet.
  { intros st' Hq. destruct (quiet_balanced st st' Hq) as [Ha Hb].
    destruct Hq as (_ & _ & Hextra). split_and!; [by apply Ha | by apply Hb | done]. }
  destruct a; cbn [act emits_nothing].
  - destruct (Hquiet _ (initializeApp_quiet outcome st)) as (?&?&?). done.
  - destruct (Hquiet _ (handleAuth_quiet now form outcome cells st)) as (?&?&?). done.
  - destruct (Hquiet _ (on_socket_event_quiet env ev st)) as (?&?&?). done.
  - split_and!; [| |done]; unfold handleInputChange; destruct (Js.truthy _).
    + by apply handleTypingStart_balanced.
    + by apply (handleTypingStop_balanced (set_newMessage value st)).
    + by apply handleTypingStart_balanced.
    + by apply (handleTypingStop_balanced (set_newMessage value st)).
  - destruct (sendMessage_balanced now iso emit_throws st Hstale Hbal). done.
  - destruct (run_until_balanced (length (timers st)) t st Hstale Hbal)
      as (?&?&He). split_and!; [done | done |]. intros _. exists [].
    rewrite app_nil_r. split; [exact He | constructor].
  - destruct (Hquiet _ (handleLogout_quiet (confirm_answer env) st)) as (?&?&?). done.
  - destruct (Hquiet _ (loadUsers_quiet env outcome st)) as (?&?&?). done.
  - destruct (Hquiet _ (loadMessages_quiet env userId outcome st)) as (?&?&?). done.
  - assert (quiet st (handleBackToContacts st)) as Hq by quiet_leaf.
    destruct (Hquiet _ Hq) as (?&?&?). done.
  - destruct (Hquiet _ (initializeApp_begin_quiet st)) as (?&?&?). done.
  - destruct (Hquiet _ (initializeApp_settle_quiet sel token outcome st))
      as (?&?&?). done.
  - destruct (Hquiet _ (loadUsers_settle_quiet env outcome st)) as (?&?&?). done.
  - destruct (Hquiet _ (loadMessages_in_quiet contacts env userId outcome st))
      as (?&?&?). done.
Qed.

Lemma run_balanced (env : Browser) (actions : list Action) (st : AppState) :
  callbacks_stale st → typing_balanced st →
  callbacks_stale (run JSON_parse JSON_stringify env actions st)
  ∧ typing_balanced (run JSON_parse JSON_stringify env actions st).
Proof.
  revert st. induction actions as [|a actions IH]; intros st Hstale Hbal; [done|].
  cbn [run fold_left].
  destruct (act_balanced env a st Hstale Hbal) as (H1 & H2 & _). by apply IH.
Qed.

(** X13.  After any run of handler calls on a freshly mounted component,
    the number of [typing_start] emits equals the number of [typing_stop]
    emits, plus one exactly when [isTyping] is set: the two events
    alternate on the wire, beginning with a start, and an unmatched start
    is outstanding precisely while the flag is set. *)
Theorem typing_emits_alternate (env : Browser) (actions : list Action)
    (storage : gmap string string) :
  let st := run JSON_parse JSON_stringify env actions (mount storage) in
  length (emits_of "typing_start" (effects st))
  = (length (emits_of "typing_stop" (effects st))
     + (if isTyping st then 1 else 0))%nat.
Proof.
  apply run_balanced; [constructor | reflexivity].
Qed.

(** X14.  In a state reached from a freshly mounted component by any run
    of handler calls, only a key stroke or a send emits on the socket:
    whatever comes next among startup, login, a socket event, the clock
    advancing with every due timer firing, logout, the loaders and going
    back, the effects it adds hold no socket emit.  In particular the
    two-second typing timer emits nothing when it fires. *)
Theorem only_input_and_send_emit (env : Browser) (actions : list Action)
    (storage : gmap string string) (a : Action) :
  emits_nothing a →
  let st := run JSON_parse JSON_stringify env actions (mount storage) in
  ∃ extra, effects (act JSON_parse JSON_stringify env a st)
           = (effects st ++ extra)%list
           ∧ Forall no_emit extra.
Proof.
  intros Ha st.
  destruct (run_balanced env actions (mount storage)) as [Hstale Hbal];
    [constructor | reflexivity |].
  destruct (act_balanced env a st Hstale Hbal) as (_ & _ & H). by apply H.
Qed.

End BalanceProofs.

Lemma only_input_and_send_emit_witness :
  let st := run parse_demo stringify_demo demo_env
              [AStartup (FetchResolves
                           (mkResponse 200 (Some "application/json") (JsonValue alice)));
               ASocket EvConnect;
               ALoadUsers (HttpResolves (mkHttp 200 (Some "application/json")
                                           (BodyValue [alice; bob])));
               ALoadMessages (inl 2%Z)
                 (HttpResolves (mkHttp 200 (Some "application/json") (BodyValue [])));
               AInput 0 "h"]
              (mount demo_storage) in
  emits_of "typing_start" (effects st) = [SocketEmit "typing_start" (inl 2%Z) None]
  ∧ ∃ extra, effects (act parse_demo stringify_demo demo_env (AClock 5000) st)
             = (effects st ++ extra)%list
             ∧ Forall no_emit extra.
Proof.
  split; [vm_compute; reflexivity|].
  apply (only_input_and_send_emit parse_demo stringify_demo demo_env _
           demo_storage (AClock 5000)).
  exact I.
Defined.

(** ** The session and the stored credential *)

Lemma stored_lookup (key value : string) (st : AppState) :
  stored key st = Some value → localStorage st !! key = Some value.
Proof.
  unfold stored. destruct (localStorage st !! key) as [v|]; [|done].
  destruct (Js.truthy v); [|done]. by intros [= ->].
Qed.

Lemma handleTypingStop_in_session (sel : option User) (typing : bool)
    (st : AppState) :
  session_same st (handleTypingStop_in sel typing st).
Proof. unfold handleTypingStop_in, clearTimeout. break_matches; by split. Qed.

Lemma handleTypingStart_session (now : Z) (st : AppState) :
  session_same st (handleTypingStart now st).
Proof.
  unfold handleTypingStart, clearTimeout, setTimeout. break_matches; by split.
Qed.

Lemma fire_session (tid : N) (st : AppState) : session_same st (fire tid st).
Proof.
  unfold fire. destruct (List.find _ _) as [tm|]; [|by split].
  destruct (callback tm) as [sel typing|id]; cbn [run_callback].
  - destruct (handleTypingStop_in_session sel typing
                (set_timers (filter (fun t' => timer_id t' ≠ tid) (timers st)) st))
      as [H1 H2]. by split.
  - by split.
Qed.

Lemma run_until_session (fuel : nat) (t : Z) (st : AppState) :
  session_same st (run_until fuel t st).
Proof.
  revert st. induction fuel as [|fuel IH]; intros st; [by split|].
  cbn [run_until]. destruct (earliest (timers st)) as [tm|]; [|by split].
  destruct (due tm <=? t)%Z; [|by split].
  destruct (fire_session (timer_id tm) st) as [H1 H2].
  destruct (IH (fire (timer_id tm) st)) as [H3 H4]. split; congruence.
Qed.

Lemma sendMessage_session (now : Z) (iso : string) (emit_throws : bool)
    (st : AppState) :
  session_same st (sendMessage now iso emit_throws st).
Proof.
  unfold session_same, sendMessage.
  destruct (Js.truthy _); [|by split].
  destruct (selectedUser st) as [sel|]; [|by split].
  destruct (socketRef st) as [sock|]; [|by split].
  destruct (handleTypingStop_in_session (selectedUser st) (isTyping st) st)
    as [H1 H2]. fold (handleTypingStop st) in H1, H2.
  destruct (currentUser st); [|by split].
  destruct emit_throws; by split.
Qed.

Lemma session_step_same (st st' : AppState) :
  session_same st st' → session_step st st'.
Proof. by left. Qed.

Lemma handleLogout_session (confirmed : bool) (st : AppState) :
  session_step st (handleLogout confirmed st)
  ∧ (confirmed = true →
     localStorage (handleLogout confirmed st) !! "token" = None
     ∧ localStorage (handleLogout confirmed st) !! "userData" = None
     ∧ currentUser (handleLogout confirmed st) = None
     ∧ selectedUser (handleLogout confirmed st) = None).
Proof.
  unfold handleLogout. destruct confirmed; [|split; [by left | done]].
  cbn [clearAuthData set_currentUser set_localStorage set_selectedUser
       set_messages set_users socketRef].
  destruct (socketRef st); (split; [right; by left|]); intros _; cbn;
    (split_and!; try done; [by rewrite lookup_delete_ne, lookup_delete_eq
                           | by rewrite lookup_delete_eq]).
Qed.

Lemma session_step_alert (text : string) (st st' : AppState) :
  session_step st st' → session_step st (alert text st').
Proof. intros [[H1 H2] | [H | H]]; [left; by split | right; by left | right; by right]. Qed.

Lemma load_catch_session (text : string) (error : JsError) (st : AppState) :
  session_step st (load_catch text error st).
Proof. destruct (load_catch_frame text error st) as [-> | ->]; left; by split. Qed.

Lemma loadUsers_settle_session (env : Browser)
    (outcome : HttpOutcome (list User)) (st : AppState) :
  session_step st (loadUsers_settle env outcome st).
Proof.
  destruct (handleLogout_session (confirm_answer env) st) as [Hout _].
  unfold loadUsers_settle.
  destruct outcome as [res|error]; [|apply load_catch_session].
  destruct (is_json _); cbn [negb]; [|left; by split].
  destruct (http_ok res).
  - destruct (http_body res); [left; by split | apply load_catch_session].
  - destruct (_ =? _)%N; [by apply session_step_alert | apply load_catch_session].
Qed.

Lemma loadUsers_unfold (env : Browser) (outcome : HttpOutcome (list User))
    (st : AppState) :
  loadUsers env outcome st
  = match stored "token" st with
    | None => handleLogout (confirm_answer env) st
    | Some _ => loadUsers_settle env outcome st
    end.
Proof. reflexivity. Qed.

Lemma loadUsers_session (env : Browser) (outcome : HttpOutcome (list User))
    (st : AppState) :
  session_step st (loadUsers env outcome st).
Proof.
  rewrite loadUsers_unfold. destruct (stored "token" st).
  - apply loadUsers_settle_session.
  - by destruct (handleLogout_session (confirm_answer env) st).
Qed.

Lemma loadMessages_in_session (contacts : list User) (env : Browser)
    (userId : JsId) (outcome : HttpOutcome (list Message)) (st : AppState) :
  session_step st (loadMessages_in contacts env userId outcome st).
Proof.
  destruct (handleLogout_session (confirm_answer env) st) as [Hout _].
  unfold loadMessages_in.
  destruct outcome as [res|error]; [|apply load_catch_session].
  destruct (is_json _); cbn [negb]; [|left; by split].
  destruct (http_ok res).
  - destruct (http_body res); [left; by split | apply load_catch_session].
  - destruct (_ =? _)%N; [by apply session_step_alert | apply load_catch_session].
Qed.

Lemma on_socket_event_session (env : Browser) (ev : SocketEvent)
    (st : AppState) :
  session_step st (on_socket_event env ev st).
Proof.
  unfold on_socket_event. destruct (socketRef st); [|left; by split].
  destruct ev; try (left; by split).
  - unfold on_connect_error. destruct (is_auth_failure error); [|left; by split].
    apply session_step_alert.
    destruct (handleLogout_session (confirm_answer env)
                (setConnectionStatus ConnError st)) as [[[H1 H2] | [H | H]] _].
    + left. by split.
    + right. by left.
    + right. by right.
  - unfold on_message.
    destruct (document_hidden env), (notification_supported env),
      (notification_permission env); left; by split.
  - unfold on_error. destruct message as [m|]; [|left; by split].
    destruct (_ && _); left; by split.
Qed.

Section SessionProofs.

Variable JSON_parse : string -> option User.
Variable JSON_stringify : User -> string.

(** [initializeApp] is its first half followed at once by its second. *)
Lemma initializeApp_halves (outcome : FetchOutcome) (st : AppState) :
  initializeApp JSON_parse JSON_stringify outcome st
  = match initializeApp_begin JSON_parse st with
    | (Some token, st1) =>
        initializeApp_settle JSON_stringify (selectedUser st) token outcome st1
    | (None, st1) => st1
    end.
Proof.
  unfold initializeApp, initializeApp_begin, initializeApp_settle.
  destruct (stored "token" st); [|done].
  destruct (stored "userData" st); [|done].
  by destruct (JSON_parse _).
Qed.

Lemma initializeApp_begin_session (st : AppState) :
  session_step st (snd (initializeApp_begin JSON_parse st)).
Proof.
  unfold initializeApp_begin.
  destruct (stored "token" st) as [token|]; [|left; by split].
  destruct (stored "userData" st) as [userData|] eqn:Hu; [|left; by split].
  apply stored_lookup in Hu.
  destruct (JSON_parse _); [|right; by left].
  right. right. cbn. by rewrite Hu.
Qed.

Lemma initializeApp_settle_session (sel : option User) (token : string)
    (outcome : FetchOutcome) (st : AppState) :
  session_step st (initializeApp_settle JSON_stringify sel token outcome st).
Proof.
  unfold initializeApp_settle.
  destruct outcome as [res|error]; cbn [validateToken].
  - destruct (negb _); [right; by left|]. destruct (res_ok res); [|right; by left].
    destruct (json_body res) as [profile|error].
    + right. right. cbn. by rewrite lookup_insert_eq.
    + destruct (validation_catch _); [left; by split | right; by left].
  - destruct (validation_catch _); [left; by split | right; by left].
Qed.

Lemma session_step_backed (st st' : AppState) :
  session_step st st' → profile_backed st → profile_backed st'.
Proof.
  unfold profile_backed. intros [[H1 H2] | [H | H]] Hst Hu.
  - rewrite H1. apply Hst. by rewrite <- H2.
  - done.
  - done.
Qed.

Lemma initializeApp_session (outcome : FetchOutcome) (st : AppState) :
  profile_backed st →
  profile_backed (initializeApp JSON_parse JSON_stringify outcome st).
Proof.
  intros Hst. rewrite initializeApp_halves.
  pose proof (initializeApp_begin_session st) as Hbegin.
  destruct (initializeApp_begin JSON_parse st) as [[token|] st1]; cbn [snd] in Hbegin.
  - eapply session_step_backed; [apply initializeApp_settle_session|].
    by eapply session_step_backed.
  - by eapply session_step_backed.
Qed.

Lemma handleAuth_session (now : Z) (form : AuthForm) (outcome : AuthOutcome)
    (cells : AuthCells) (st : AppState) :
  session_step st (auth_app (handleAuth JSON_stringify now form outcome cells st)).
Proof.
  unfold handleAuth. destruct (auth_rejection _ _ _ _); [left; by split|].
  destruct (auth_body outcome); [left; by split|].
  destruct (isLogin cells); [|left; by split].
  right. right. cbn. by rewrite lookup_insert_eq.
Qed.

Lemma act_session (env : Browser) (a : Action) (st : AppState) :
  profile_backed st → profile_backed (act JSON_parse JSON_stringify env a st).
Proof.
  intros Hst.
  assert (∀ st', session_step st st' → profile_backed st') as Hstep
    by (intros st' H; by eapply session_step_backed).
  destruct a; cbn [act].
  - by apply initializeApp_session.
  - apply Hstep, handleAuth_session.
  - apply Hstep, on_socket_event_session.
  - apply Hstep. left. unfold handleInputChange. destruct (Js.truthy _).
    + destruct (handleTypingStart_session now (set_newMessage value st)). by split.
    + destruct (handleTypingStop_in_session
                  (selectedUser (set_newMessage value st))
                  (isTyping (set_newMessage value st)) (set_newMessage value st)).
      by split.
  - apply Hstep. left. apply sendMessage_session.
  - apply Hstep. left. apply run_until_session.
  - apply Hstep. by destruct (handleLogout_session (confirm_answer env) st).
  - apply Hstep, loadUsers_session.
  - apply Hstep, loadMessages_in_session.
  - apply Hstep. left. by split.
  - apply Hstep, initializeApp_begin_session.
  - apply Hstep, initializeApp_settle_session.
  - apply Hstep, loadUsers_settle_session.
  - apply Hstep, loadMessages_in_session.
Qed.

(** X15.  After any run of steps on a freshly mounted component, whatever
    the storage held at the start and however the asynchronous handlers
    interleave with the others, a user is current only while a profile is
    stored: every step that sets the current user has stored the profile
    just before or found it stored, and the two steps that remove the
    profile also clear the current user. *)
Theorem current_user_has_stored_profile (env : Browser) (actions : list Action)
    (storage : gmap string string) :
  let st := run JSON_parse JSON_stringify env actions (mount storage) in
  currentUser st ≠ None → is_Some (localStorage st !! "userData").
Proof.
  assert (∀ st, profile_backed st →
                profile_backed (run JSON_parse JSON_stringify env actions st)) as H.
  { induction actions as [|a actions IH]; intros st Hst; [done|].
    cbn [run fold_left]. by apply IH, act_session. }
  apply H. by intros Hu.
Qed.

(** X16.  After a logout that the user confirms, the token and the profile
    are gone, no user is current and no conversation is selected, so
    [sendMessage] does nothing; and a reload over the storage that is left
    stays as mounted whatever a validation request would answer: no request
    outcome is read, no user becomes current and no socket is opened. *)
Theorem logout_then_reload (st : AppState) (outcome : FetchOutcome) :
  let st' := handleLogout true st in
  localStorage st' !! "token" = None
  ∧ localStorage st' !! "userData" = None
  ∧ currentUser st' = None
  ∧ (∀ now iso emit_throws, sendMessage now iso emit_throws st' = st')
  ∧ initializeApp JSON_parse JSON_stringify outcome (mount (localStorage st'))
    = mount (localStorage st').
Proof.
  intros st'. destruct (handleLogout_session true st) as [_ Hout].
  destruct (Hout eq_refl) as (Ht & Hu & Hc & Hsel).
  fold st' in Ht, Hu, Hc, Hsel. clearbody st'.
  split_and!; [exact Ht | exact Hu | exact Hc | |].
  - intros now iso emit_throws. apply sendMessage_guard. right. by left.
  - unfold initializeApp, stored. cbn [mount localStorage]. by rewrite Ht.
Qed.

(** X18.  The token is not kept with the user.  Startup finds a stored
    session and starts its validation; the user logs out and confirms
    before the request has settled; then the request is granted.  The
    second half of the startup makes the server's profile the current user
    again, stores it, and opens the socket with the token it read at the
    start, although no token is stored any more.  The contacts request it
    starts next finds no token and asks for the logout again. *)
Theorem logout_during_validation_is_undone (env : Browser)
    (storage : gmap string string) (token text : string) (cached profile : User)
    (res : Response) :
  confirm_answer env = true →
  stored "token" (mount storage) = Some token →
  stored "userData" (mount storage) = Some text →
  JSON_parse text = Some cached →
  is_json (content_type res) = true →
  res_ok res = true →
  json_body res = JsonValue profile →
  initializeApp_begin JSON_parse (mount storage)
  = (Some token, set_currentUser (Some cached) (mount storage))
  ∧ let st :=
      run JSON_parse JSON_stringify env
        [AStartupBegin; ALogout; AValidationSettle None token (FetchResolves res)]
        (mount storage) in
    currentUser st = Some profile
    ∧ localStorage st !! "token" = None
    ∧ localStorage st !! "userData" = Some (JSON_stringify profile)
    ∧ socketRef st = Some (mkSocket token None)
    ∧ effects st
      = [Alert "You have been logged out successfully."; SocketOpen token; LoadUsers]
    ∧ ∀ outcome, loadUsers env outcome st = handleLogout true st.
Proof.
  intros Hconfirm Htoken Htext Hparse Hjson Hok Hbody.
  assert (initializeApp_begin JSON_parse (mount storage)
          = (Some token, set_currentUser (Some cached) (mount storage))) as Hbegin.
  { unfold initializeApp_begin. by rewrite Htoken, Htext, Hparse. }
  split; [exact Hbegin|].
  cbn [run fold_left act]. rewrite Hbegin, Hconfirm. cbn [snd].
  set (st0 := set_currentUser (Some cached) (mount storage)).
  assert (effects (handleLogout true st0)
          = [Alert "You have been logged out successfully."]
          ∧ socketRef (handleLogout true st0) = None) as [He1 Hs1] by done.
  destruct (handleLogout_session true st0) as [_ Hout].
  destruct (Hout eq_refl) as (Ht1 & _ & _ & _).
  set (st1 := handleLogout true st0) in *. clearbody st1. clear Hout.
  set (st2 := initializeApp_settle JSON_stringify None token (FetchResolves res) st1).
  assert (currentUser st2 = Some profile
          ∧ localStorage st2
            = <["userData" := JSON_stringify profile]> (localStorage st1)
          ∧ socketRef st2 = Some (mkSocket token None)
          ∧ effects st2 = (effects st1 ++ [SocketOpen token; LoadUsers])%list)
    as (Hu2 & Hl2 & Hs2 & He2).
  { subst st2. unfold initializeApp_settle. cbn [validateToken].
    rewrite Hjson, Hok, Hbody. cbn [negb]. cbn. by rewrite <- app_assoc. }
  assert (localStorage st2 !! "token" = None) as Ht2
    by (rewrite Hl2, lookup_insert_ne by done; exact Ht1).
  clearbody st2.
  split_and!.
  - exact Hu2.
  - exact Ht2.
  - by rewrite Hl2, lookup_insert_eq.
  - exact Hs2.
  - by rewrite He2, He1.
  - intros outcome. rewrite loadUsers_unfold, Hconfirm.
    unfold stored. by rewrite Ht2.
Qed.

End SessionProofs.

Lemma current_user_has_stored_profile_witness :
  let st := run parse_demo stringify_demo demo_env
              [AAuth 0 (mkAuthCells true false) demo_form (granted demo_grant);
               ASocket EvConnect; AInput 10 "hi"]
              (mount ∅) in
  currentUser st = Some alice
  ∧ is_Some (localStorage st !! "userData").
Proof.
  intros st. assert (currentUser st = Some alice) as Hu by (vm_compute; reflexivity).
  split; [exact Hu|].
  apply (current_user_has_stored_profile parse_demo stringify_demo demo_env _ ∅).
  fold st. rewrite Hu. discriminate.
Defined.

Lemma logout_during_validation_is_undone_witness :
  let env := mkBrowser false true PermGranted true in
  let st :=
    run parse_demo stringify_demo env
      [AStartupBegin; ALogout;
       AValidationSettle None "t1"
         (FetchResolves (mkResponse 200 (Some "application/json") (JsonValue bob)))]
      (mount demo_storage) in
  currentUser st = Some bob
  ∧ localStorage st !! "token" = None
  ∧ localStorage st !! "userData" = Some "bob-profile".
Proof.
  intros env st.
  destruct (logout_during_validation_is_undone parse_demo stringify_demo env
              demo_storage "t1" "alice-profile" alice bob
              (mkResponse 200 (Some "application/json") (JsonValue bob)))
    as (_ & Hu & Ht & Hp & _); try reflexivity.
  done.
Defined.

(** ** Sending while typing *)

(** X17.  A send that passes the guards while [isTyping] is set first
    emits [typing_stop] and then [send_message], both to the selected
    contact, cancels the timer named by [typingTimeoutRef], clears the flag
    and empties the input; the next key stroke with non-blank text then
    emits [typing_start] again.  When the flag is not set, the send emits
    [send_message] alone. *)
Theorem send_stops_typing (now later : Z) (iso value : string) (st : AppState)
    (sel me : User) (sock : Socket) :
  Js.truthy (Js.trim (newMessage st)) = true →
  selectedUser st = Some sel →
  socketRef st = Some sock →
  currentUser st = Some me →
  Js.truthy (Js.trim value) = true →
  let st1 := sendMessage now iso false st in
  effects st1
  = (effects st
     ++ (if isTyping st then [SocketEmit "typing_stop" (user_id sel) None] else [])
     ++ [SocketEmit "send_message" (user_id sel) (Some (Js.trim (newMessage st)))])%list
  ∧ isTyping st1 = false
  ∧ newMessage st1 = ""
  ∧ (isTyping st = true →
     ∀ t, t ∈ timers st1 → typingTimeoutRef st ≠ Some (timer_id t)
          ∨ t = mkTimer (next_timer st) (now + 1000) (MarkDeliveredCallback (inl now)))
  ∧ effects (handleInputChange later value st1)
    = (effects st1 ++ [SocketEmit "typing_start" (user_id sel) None])%list.
Proof.
  intros Htext Hsel Hsock Hme Hvalue st1.
  destruct (sendMessage_sent now iso st sel me sock Htext Hsel Hsock Hme)
    as (_ & Ht & _ & _ & Hs1 & He). fold st1 in Ht, Hs1, He.
  assert (effects (handleTypingStop st)
          = (effects st
             ++ (if isTyping st
                 then [SocketEmit "typing_stop" (user_id sel) None] else []))%list
          ∧ (isTyping st = true →
             timers (handleTypingStop st)
             = timers (clearTimeout (typingTimeoutRef st) st))) as [Hstop Htimers].
  { unfold handleTypingStop, handleTypingStop_in. rewrite Hsel, Hsock.
    destruct (isTyping st); [|by rewrite app_nil_r].
    destruct (typingTimeoutRef st) as [k|] eqn:Hk; cbn; rewrite Hk; done. }
  assert (isTyping st1 = false ∧ newMessage st1 = "" ∧ selectedUser st1 = Some sel)
    as (Hty1 & Hnm1 & Hsel1).
  { subst st1. unfold sendMessage. rewrite Htext, Hsel, Hsock, Hme.
    unfold handleTypingStop, handleTypingStop_in. rewrite Hsel, Hsock.
    destruct (isTyping st) eqn:Hty; [|by cbn].
    destruct (typingTimeoutRef st) as [k|] eqn:Hk; cbn; rewrite Hk; done. }
  split_and!; try done.
  - by rewrite He, Hstop, <- app_assoc.
  - intros Hty t Hin. rewrite Ht, (Htimers Hty) in Hin.
    apply elem_of_app in Hin as [Hin | Hin].
    + left. unfold clearTimeout in Hin.
      destruct (typingTimeoutRef st) as [k|]; [|done]. cbn in Hin.
      apply list_elem_of_filter in Hin as [Hne _]. congruence.
    + right. by apply list_elem_of_singleton in Hin.
  - unfold handleInputChange. rewrite Hvalue.
    destruct (handleTypingStart_timer later (set_newMessage value st1) sel sock)
      as (_ & Hstart & _); done.
Qed.

Lemma send_stops_typing_witness :
  let st := type_at 0 "hi" chat_ready in
  let st1 := sendMessage 500 "iso" false st in
  effects st1
  = (effects st ++ [SocketEmit "typing_stop" (inl 2%Z) None;
                    SocketEmit "send_message" (inl 2%Z) (Some "hi")])%list
  ∧ effects (handleInputChange 900 "again" st1)
    = (effects st1 ++ [SocketEmit "typing_start" (inl 2%Z) None])%list.
Proof.
  intros st st1.
  destruct (send_stops_typing 500 900 "iso" "again" st bob alice
              (mkSocket "t1" None)) as (He & _ & _ & _ & Hnext);
    [reflexivity..|].
  split; [|exact Hnext]. fold st1 in He. rewrite He.
  f_equal.
Defined.
